(** * Simple-Blockchain: blocks, proof of work and chain validation

    A shallow embedding of the server of the repository (class [Block],
    class [Blockchain], [parseUpChain] and the stand-alone [validateChain]
    for uploaded chains), with the properties of mining, appending and
    validation stated and proved over it. *)

From Stdlib Require Import ZArith List String Ascii Bool Lia.
From Stdlib Require Import DecimalString DecimalZ DecimalPos.
Import ListNotations.

Local Open Scope string_scope.

(** ** SHA-256 (FIPS 180-4), as used through [crypto.createHash('sha256')]

    Words are 32-bit integers held in [Z] with the wrap-around written out. *)
Module Sha256.
Local Open Scope Z_scope.

Definition mask32 : Z := 0xFFFFFFFF.
Definition wrap (x : Z) : Z := Z.land x mask32.
Definition add32 (x y : Z) : Z := wrap (x + y).
Definition rotr (n x : Z) : Z :=
  Z.lor (Z.shiftr x n) (wrap (Z.shiftl x (32 - n))).
Definition not32 (x : Z) : Z := Z.lxor x mask32.

Definition ch (x y z : Z) : Z := Z.lxor (Z.land x y) (Z.land (not32 x) z).
Definition maj (x y z : Z) : Z :=
  Z.lxor (Z.lxor (Z.land x y) (Z.land x z)) (Z.land y z).
Definition bsig0 (x : Z) : Z := Z.lxor (Z.lxor (rotr 2 x) (rotr 13 x)) (rotr 22 x).
Definition bsig1 (x : Z) : Z := Z.lxor (Z.lxor (rotr 6 x) (rotr 11 x)) (rotr 25 x).
Definition ssig0 (x : Z) : Z := Z.lxor (Z.lxor (rotr 7 x) (rotr 18 x)) (Z.shiftr x 3).
Definition ssig1 (x : Z) : Z := Z.lxor (Z.lxor (rotr 17 x) (rotr 19 x)) (Z.shiftr x 10).

(** The constants of the standard: the first 32 bits of the fractional
    parts of the cube roots (round constants) and of the square roots
    (initial state) of the first primes.  The integer part of the [k]-th
    root of [p * 2^(32k)] is found bit by bit. *)
Definition is_prime (n : nat) : bool :=
  Nat.ltb 1 n && forallb (fun q => negb (Nat.eqb (n mod q) 0)) (seq 2 (n - 2)).

Definition first_primes (count : nat) : list Z :=
  map Z.of_nat (firstn count (filter is_prime (seq 2 310))).

Fixpoint root_bits (k : Z) (bits : nat) (n r : Z) : Z :=
  match bits with
  | O => r
  | S bits' =>
      let candidate := r + 2 ^ Z.of_nat bits' in
      root_bits k bits' n (if candidate ^ k <=? n then candidate else r)
  end.

Definition root_fraction (k p : Z) : Z :=
  wrap (root_bits k 36 (p * 2 ^ (32 * k)) 0).

Definition round_constants : list Z :=
  Eval vm_compute in map (root_fraction 3) (first_primes 64).

Definition initial_state : list Z :=
  Eval vm_compute in map (root_fraction 2) (first_primes 8).

(** Padding: a single 1 bit, zeros up to 56 mod 64, the bit length on 8 bytes. *)
Definition be_bytes (count : nat) (x : Z) : list Z :=
  map (fun i => Z.land (Z.shiftr x (8 * Z.of_nat i)) 0xFF) (rev (seq 0 count)).

Definition pad (msg : list Z) : list Z :=
  let len := Z.of_nat (List.length msg) in
  let zeros := Z.to_nat ((55 - len) mod 64) in
  msg ++ [0x80] ++ repeat 0 zeros ++ be_bytes 8 (8 * len).

Fixpoint words_of_bytes (bs : list Z) : list Z :=
  match bs with
  | b0 :: b1 :: b2 :: b3 :: rest =>
      Z.lor (Z.shiftl b0 24) (Z.lor (Z.shiftl b1 16) (Z.lor (Z.shiftl b2 8) b3))
      :: words_of_bytes rest
  | _ => []
  end.

Fixpoint chunks16 (fuel : nat) (ws : list Z) : list (list Z) :=
  match fuel, ws with
  | S fuel', _ :: _ => firstn 16 ws :: chunks16 fuel' (skipn 16 ws)
  | _, _ => []
  end.

(** The message schedule, kept newest word first while it is extended. *)
Fixpoint extend_schedule (count : nat) (rev_w : list Z) : list Z :=
  match count with
  | O => rev_w
  | S count' =>
      let w2 := nth 1 rev_w 0 in
      let w7 := nth 6 rev_w 0 in
      let w15 := nth 14 rev_w 0 in
      let w16 := nth 15 rev_w 0 in
      extend_schedule count'
        (add32 (add32 (ssig1 w2) w7) (add32 (ssig0 w15) w16) :: rev_w)
  end.

Definition schedule (chunk : list Z) : list Z :=
  rev (extend_schedule 48 (rev chunk)).

Record regs := Regs { ra : Z; rb : Z; rc : Z; rd : Z; re : Z; rf : Z; rg : Z; rh : Z }.

Definition round (s : regs) (kw : Z * Z) : regs :=
  let t1 := add32 (add32 (add32 (rh s) (bsig1 (re s))) (ch (re s) (rf s) (rg s)))
                  (add32 (fst kw) (snd kw)) in
  let t2 := add32 (bsig0 (ra s)) (maj (ra s) (rb s) (rc s)) in
  Regs (add32 t1 t2) (ra s) (rb s) (rc s) (add32 (rd s) t1) (re s) (rf s) (rg s).

Definition regs_of_list (l : list Z) : regs :=
  Regs (nth 0 l 0) (nth 1 l 0) (nth 2 l 0) (nth 3 l 0)
       (nth 4 l 0) (nth 5 l 0) (nth 6 l 0) (nth 7 l 0).
Definition list_of_regs (s : regs) : list Z :=
  [ra s; rb s; rc s; rd s; re s; rf s; rg s; rh s].

Definition compress (h : list Z) (chunk : list Z) : list Z :=
  let s := fold_left round (combine round_constants (schedule chunk)) (regs_of_list h) in
  map (fun p => add32 (fst p) (snd p)) (combine h (list_of_regs s)).

Definition digest_words (msg : list Z) : list Z :=
  let ws := words_of_bytes (pad msg) in
  fold_left compress (chunks16 (List.length ws) ws) initial_state.

Definition hex_digit (x : Z) : ascii :=
  ascii_of_nat (Z.to_nat (if x <? 10 then 48 + x else 87 + x)).

Definition hex_of_word (w : Z) : string :=
  string_of_list_ascii
    (map (fun i => hex_digit (Z.land (Z.shiftr w (4 * Z.of_nat i)) 0xF)) (rev (seq 0 8))).

Definition bytes_of_string (s : string) : list Z :=
  map (fun c => Z.of_nat (nat_of_ascii c)) (list_ascii_of_string s).

(** [createHash('sha256').update(s).digest('hex')]; a string is the sequence
    of its UTF-8 bytes. *)
Definition hex (s : string) : string :=
  String.concat EmptyString (map hex_of_word (digest_words (bytes_of_string s))).

End Sha256.

Set Warnings "-register-all".

(** ** JavaScript values

    The values that reach the chain code are the values of JSON documents
    (and [undefined], [NaN]).  Numbers are the integer-valued doubles of the
    exactly representable range, plus [NaN], which [Number(undefined)]
    produces; [-0] and [0] are not told apart, as neither [===] nor string
    conversion tells them apart.  An object is the list of its own
    properties in enumeration order, each key once.  Values are finite
    trees: a JSON document has no cycle.  A YAML document can make an array
    or an object contain itself through an anchor; such values are outside
    the model. *)
Inductive JsNum : Type :=
| NaN
| Int (z : Z).

Inductive JsVal : Type :=
| JUndefined
| JNull
| JBool (b : bool)
| JNum (n : JsNum)
| JStr (s : string)
| JArr (elems : list JsVal)
| JObj (props : list (string * JsVal)).

(** Outcome of a call: a value, an exception, or a search that is still
    running when the step budget of the model is used up. *)
Inductive Exn : Type :=
| TypeError
| RangeError
| MalformedFile.

Inductive Outcome (A : Type) : Type :=
| Returns (a : A)
| Throws (e : Exn)
| OutOfFuel.
Arguments Returns {A} a.
Arguments Throws {A} e.
Arguments OutOfFuel {A}.

Definition bind {A B : Type} (m : Outcome A) (k : A -> Outcome B) : Outcome B :=
  match m with
  | Returns a => k a
  | Throws e => Throws e
  | OutOfFuel => OutOfFuel
  end.

Notation "x <- m ;; k" := (bind m (fun x => k))
  (at level 61, m at next level, right associativity).

(** *** Numbers *)
Definition num_eqb (a b : JsNum) : bool :=        (* a === b *)
  match a, b with
  | Int x, Int y => Z.eqb x y
  | _, _ => false
  end.

Definition num_add (a b : JsNum) : JsNum :=       (* a + b *)
  match a, b with
  | Int x, Int y => Int (x + y)
  | _, _ => NaN
  end.

Definition num_to_string (n : JsNum) : string :=  (* `${n}` *)
  match n with
  | NaN => "NaN"
  | Int z => NilZero.string_of_int (Z.to_int z)
  end.

(** *** Strings *)
Definition startsWith (s p : string) : bool := String.prefix p s.

Fixpoint repeat_string (s : string) (count : nat) : string :=
  match count with
  | O => EmptyString
  | S count' => s ++ repeat_string s count'
  end.

Definition dquote : string := String "034"%char EmptyString.

Definition hex4 (n : nat) : string :=
  String (Sha256.hex_digit (Z.of_nat (n / 16)))
    (String (Sha256.hex_digit (Z.of_nat (n mod 16))) EmptyString).

(** One character of [QuoteJSONString]. *)
Definition quote_char (c : ascii) : string :=
  let n := nat_of_ascii c in
  if Nat.eqb n 8 then "\b"
  else if Nat.eqb n 9 then "\t"
  else if Nat.eqb n 10 then "\n"
  else if Nat.eqb n 12 then "\f"
  else if Nat.eqb n 13 then "\r"
  else if Nat.eqb n 34 then "\" ++ dquote
  else if Nat.eqb n 92 then "\\"
  else if Nat.ltb n 32 then "\u00" ++ hex4 n
  else String c EmptyString.

Fixpoint quote_body (s : string) : string :=
  match s with
  | EmptyString => EmptyString
  | String c rest => quote_char c ++ quote_body rest
  end.

Definition QuoteJSONString (s : string) : string :=
  dquote ++ quote_body s ++ dquote.

(** *** [JSON.stringify]: [None] is the result [undefined].  This is what
    the call returns when it returns; [Limits.stringify] below has its
    failure on values nested too deep. *)
Fixpoint JSON_stringify (v : JsVal) : option string :=
  match v with
  | JUndefined => None
  | JNull => Some "null"
  | JBool true => Some "true"
  | JBool false => Some "false"
  | JNum NaN => Some "null"
  | JNum n => Some (num_to_string n)
  | JStr s => Some (QuoteJSONString s)
  | JArr elems =>
      let item x := match JSON_stringify x with Some t => t | None => "null" end in
      Some ("[" ++ String.concat "," (map item elems) ++ "]")
  | JObj props =>
      let member (kv : string * JsVal) :=
        match JSON_stringify (snd kv) with
        | Some t => [QuoteJSONString (fst kv) ++ ":" ++ t]
        | None => []
        end in
      Some ("{" ++ String.concat "," (flat_map member props) ++ "}")
  end.

(** A template literal renders [undefined] by its name. *)
Definition template_opt (o : option string) : string :=
  match o with
  | Some t => t
  | None => "undefined"
  end.

(** ** class Block *)
Record Block : Type := mkBlock {
  index : JsNum;
  timestamp : string;
  data : JsVal;
  previousHash : string;
  nonce : JsNum;
  hash : string
}.

Definition set_hash (b : Block) (h : string) : Block :=
  mkBlock (index b) (timestamp b) (data b) (previousHash b) (nonce b) h.
Definition set_nonce (b : Block) (n : JsNum) : Block :=
  mkBlock (index b) (timestamp b) (data b) (previousHash b) n (hash b).
Definition set_index (b : Block) (i : JsNum) : Block :=
  mkBlock i (timestamp b) (data b) (previousHash b) (nonce b) (hash b).
Definition set_timestamp (b : Block) (t : string) : Block :=
  mkBlock (index b) t (data b) (previousHash b) (nonce b) (hash b).
Definition set_data (b : Block) (d : JsVal) : Block :=
  mkBlock (index b) (timestamp b) d (previousHash b) (nonce b) (hash b).
Definition set_previousHash (b : Block) (p : string) : Block :=
  mkBlock (index b) (timestamp b) (data b) p (nonce b) (hash b).

(** The string that is hashed. *)
Definition hash_input (b : Block) : string :=
  num_to_string (index b) ++ "|" ++ timestamp b ++ "|"
  ++ template_opt (JSON_stringify (data b)) ++ "|"
  ++ previousHash b ++ "|" ++ num_to_string (nonce b).

Definition computeHash (b : Block) : string := Sha256.hex (hash_input b).

(** [new Block(index, timestamp, data, previousHash)] *)
Definition new_Block (i : JsNum) (t : string) (d : JsVal) (p : string) : Block :=
  let this := mkBlock i t d p (Int 0) EmptyString in
  set_hash this (computeHash this).

(** ** class Blockchain *)
Record Blockchain : Type := mkBlockchain {
  difficulty : nat;
  chain : list Block
}.

Definition targetPrefix (d : nat) : string := repeat_string "0" d.

(** [proofOfWork(block)]: the block after the loop; its [hash] is the value
    the method returns.  [fuel] bounds the number of iterations. *)
Fixpoint proofOfWork (fuel : nat) (d : nat) (block : Block) : Outcome Block :=
  match fuel with
  | O => OutOfFuel
  | S fuel' =>
      let block1 := set_hash block (computeHash block) in
      if startsWith (hash block1) (targetPrefix d) then Returns block1
      else proofOfWork fuel' d (set_nonce block1 (num_add (nonce block1) (Int 1)))
  end.

(** The same loop as a relation, without a bound. *)
Inductive mines (d : nat) : Block -> Block -> Prop :=
| mines_found b :
    startsWith (computeHash b) (targetPrefix d) = true ->
    mines d b (set_hash b (computeHash b))
| mines_retry b b' :
    startsWith (computeHash b) (targetPrefix d) = false ->
    mines d (set_nonce (set_hash b (computeHash b)) (num_add (nonce b) (Int 1))) b' ->
    mines d b b'.

Definition genesis_data : JsVal := JObj [("message", JStr "Genesis Block")].

(** [creatGenBlock()]; [now] is [new Date().toISOString()]. *)
Definition creatGenBlock (fuel d : nat) (now : string) : Outcome Block :=
  let gen := new_Block (Int 0) now genesis_data "0" in
  proofOfWork fuel d gen.

(** [new Blockchain({ difficulty })] *)
Definition new_Blockchain (fuel d : nat) (now : string) : Outcome Blockchain :=
  gen <- creatGenBlock fuel d now ;;
  Returns (mkBlockchain d [gen]).

(** [getLastBlock()]: [None] is [undefined]. *)
Definition getLastBlock (bc : Blockchain) : option Block :=
  nth_error (chain bc) (List.length (chain bc) - 1).

(** [addBlock(data)]: the returned block and the chain afterwards. *)
Definition addBlock (fuel : nat) (now : string) (d : JsVal) (bc : Blockchain)
  : Outcome (Block * Blockchain) :=
  match getLastBlock bc with
  | None => Throws TypeError
  | Some latest =>
      let newBlock := new_Block (num_add (index latest) (Int 1)) now d (hash latest) in
      mined <- proofOfWork fuel (difficulty bc) newBlock ;;
      Returns (mined, mkBlockchain (difficulty bc) (chain bc ++ [mined]))
  end.

(** ** Validation reports *)
Record Detail : Type := mkDetail {
  d_index : JsNum;
  isHashValid : bool;
  isPowValid : bool;
  isPrevValid : bool;
  isIndexValid : bool;
  matchesServerGenesis : option bool;   (* absent from the internal report *)
  blockValid : bool;
  cascaded : bool
}.

Record Report : Type := mkReport {
  isValid : bool;
  invalidBlockIndices : list JsNum;
  details : list Detail
}.

(** The state the loops carry: the report so far and [cascadeInvalid]. *)
Definition LoopState : Type := (Report * bool)%type.

Definition initial_loop_state : LoopState := (mkReport true [] [], false).

(** The detail object [Blockchain.validateChain()] builds at position [i]
    for the block [current], [cascadeInvalid] being the flag at that point. *)
Definition block_detail (d : nat) (c : list Block) (i : nat) (current : Block)
    (cascadeInvalid : bool) : Detail :=
  let recomputedHash := computeHash current in
  let isHashValid := String.eqb recomputedHash (hash current) in
  let isPowValid := startsWith (hash current) (targetPrefix d) in
  let isIndexValid :=
    match i, nth_error c (i - 1) with
    | O, _ => num_eqb (index current) (Int 0)
    | _, Some prev => num_eqb (index current) (num_add (index prev) (Int 1))
    | _, None => false
    end in
  let isPrevValid :=
    match i, nth_error c (i - 1) with
    | O, _ => String.eqb (previousHash current) "0"
    | _, Some prev =>
        let prevRecomputedHash := computeHash prev in
        String.eqb (previousHash current) prevRecomputedHash
    | _, None => false
    end in
  let blockValid :=
    negb cascadeInvalid && isHashValid && isPowValid && isPrevValid && isIndexValid in
  mkDetail (index current) isHashValid isPowValid isPrevValid isIndexValid
           None blockValid cascadeInvalid.

(** The end of an iteration, the same in both validators: push the detail;
    if the block is not valid, clear [isValid], push its index and raise
    [cascadeInvalid]. *)
Definition record_detail (st : LoopState) (det : Detail) : LoopState :=
  let '(result, cascadeInvalid) := st in
  let result1 :=
    mkReport (isValid result) (invalidBlockIndices result) (details result ++ [det]) in
  if negb (blockValid det)
  then (mkReport false (invalidBlockIndices result1 ++ [d_index det]) (details result1),
        true)
  else (result1, cascadeInvalid).

(** One iteration of the loop of [Blockchain.validateChain()]. *)
Definition validate_step (d : nat) (c : list Block) (st : LoopState) (i : nat) : LoopState :=
  match nth_error c i with
  | None => st
  | Some current => record_detail st (block_detail d c i current (snd st))
  end.

Definition validateChain (bc : Blockchain) : Report :=
  fst (fold_left (validate_step (difficulty bc) (chain bc))
                 (seq 0 (List.length (chain bc))) initial_loop_state).

(** ** The upload path: [parseUpChain] and the stand-alone [validateChain] *)
Module Upload.

(** *** Value operations the validator uses *)
Definition truthy (v : JsVal) : bool :=
  match v with
  | JUndefined | JNull => false
  | JBool b => b
  | JNum NaN => false
  | JNum (Int z) => negb (Z.eqb z 0)
  | JStr s => negb (String.eqb s EmptyString)
  | JArr _ | JObj _ => true
  end.

Definition or_empty_object (v : JsVal) : JsVal :=      (* v || {} *)
  if truthy v then v else JObj [].

Definition nullish (v : JsVal) : bool :=
  match v with
  | JUndefined | JNull => true
  | _ => false
  end.

Definition coalesce (a b : JsVal) : JsVal :=           (* a ?? b *)
  if nullish a then b else a.

Fixpoint own_property (props : list (string * JsVal)) (key : string) : option JsVal :=
  match props with
  | [] => None
  | (k, v) :: rest => if String.eqb k key then Some v else own_property rest key
  end.

(** [v.key] for a receiver that is not nullish and a key that no prototype
    defines (the block field names): the own property of an object,
    [undefined] on anything else. *)
Definition js_get (v : JsVal) (key : string) : JsVal :=
  match v with
  | JObj props =>
      match own_property props key with
      | Some x => x
      | None => JUndefined
      end
  | _ => JUndefined
  end.

Definition js_get_opt (v : JsVal) (key : string) : JsVal :=   (* v?.key *)
  if nullish v then JUndefined else js_get v key.

(** [String(v)].  A property of a parsed document is never callable, so an
    object that has an own [toString] has no usable conversion method left
    ([valueOf] yields the object itself) and the conversion throws. *)
Fixpoint join_with (item : JsVal -> Outcome string) (l : list JsVal) : Outcome string :=
  match l with
  | [] => Returns EmptyString
  | [x] => item x
  | x :: rest => s <- item x ;; r <- join_with item rest ;; Returns (s ++ "," ++ r)
  end.

Fixpoint js_String (v : JsVal) : Outcome string :=
  match v with
  | JUndefined => Returns "undefined"
  | JNull => Returns "null"
  | JBool true => Returns "true"
  | JBool false => Returns "false"
  | JNum n => Returns (num_to_string n)
  | JStr s => Returns s
  | JArr elems =>
      (* Array.prototype.join: null and undefined elements give the empty string *)
      join_with (fun x => match x with
                          | JUndefined | JNull => Returns EmptyString
                          | _ => js_String x
                          end) elems
  | JObj props =>
      match own_property props "toString" with
      | Some _ => Throws TypeError
      | None => Returns "[object Object]"
      end
  end.

(** The record the text format yields for a section. *)
Definition opt_str (o : option string) : JsVal :=
  match o with
  | Some t => JStr t
  | None => JUndefined
  end.

Section Engine.

(** Conversion of a string to a number by the engine ([Number(s)]): its
    results on literals that are not integers lie outside [JsNum], so it is
    taken as given. *)
Variable StringToNumber : string -> JsNum.

(** [Number(v)] *)
Definition js_Number (v : JsVal) : Outcome JsNum :=
  match v with
  | JUndefined => Returns NaN
  | JNull => Returns (Int 0)
  | JBool true => Returns (Int 1)
  | JBool false => Returns (Int 0)
  | JNum n => Returns n
  | JStr s => Returns (StringToNumber s)
  | JArr _ => s <- js_String v ;; Returns (StringToNumber s)
  | JObj _ => s <- js_String v ;; Returns (StringToNumber s)
  end.

(** The block [validateChain] rebuilds from the record before it, read
    through the canonical keys only. *)
Definition previous_block (prev : JsVal) : Outcome Block :=
  pIndex <- js_Number (js_get prev "index") ;;
  pTimestamp <- js_String (coalesce (js_get prev "timestamp") (JStr EmptyString)) ;;
  pPrevHash <- js_String (coalesce (js_get prev "previousHash") (JStr EmptyString)) ;;
  let prevTemp := new_Block pIndex pTimestamp (js_get prev "data") pPrevHash in
  pNonce <- js_Number (coalesce (js_get prev "nonce") (JNum (Int 0))) ;;
  Returns (set_nonce prevTemp pNonce).

(** The detail object [validateChain(chain, difficulty)] builds at position
    [i]; [server] is the module-level [blockchain].  No value of a parsed
    document is a [Date], so the timestamp always takes the [String] branch. *)
Definition upload_detail (server : Blockchain) (d : nat) (c : list JsVal)
    (i : nat) (cascadeInvalid : bool) : Outcome Detail :=
  let raw := or_empty_object (nth i c JUndefined) in
  let prevHashRaw :=
    coalesce (coalesce (coalesce (js_get raw "previousHash") (js_get raw "prevHash"))
                       (js_get raw "prev_hash")) (js_get raw "previous_hash") in
  let hashRaw := coalesce (coalesce (js_get raw "hash") (js_get raw "Hash")) (js_get raw "HASH") in
  let dataRaw := coalesce (js_get raw "data") (js_get raw "Data") in
  let indexRaw := coalesce (js_get raw "index") (js_get raw "Index") in
  let nonceRaw := coalesce (js_get raw "nonce") (js_get raw "Nonce") in
  let timestampRaw :=
    coalesce (coalesce (js_get raw "timestamp") (js_get raw "Timestamp")) (js_get raw "time") in
  bIndex <- js_Number indexRaw ;;
  prevHashStr <- js_String (coalesce prevHashRaw (JStr EmptyString)) ;;
  hashStr <- js_String (coalesce hashRaw (JStr EmptyString)) ;;
  timestampStr <- js_String (coalesce timestampRaw (JStr EmptyString)) ;;
  nonceNum <- js_Number (coalesce nonceRaw (JNum (Int 0))) ;;
  let temp := set_nonce (new_Block bIndex timestampStr dataRaw prevHashStr) nonceNum in
  let reHash := computeHash temp in
  let isHashValid := String.eqb reHash hashStr in
  let isPowValid := startsWith hashStr (targetPrefix d) in
  prevIndex <- (if Nat.eqb i 0 then Returns (Int (-1))
                else js_Number (js_get_opt (nth (i - 1) c JUndefined) "index")) ;;
  let isIndexValid :=
    if Nat.eqb i 0 then num_eqb bIndex (Int 0)
    else num_eqb bIndex (num_add prevIndex (Int 1)) in
  isPrevValid <- (if Nat.eqb i 0 then Returns (String.eqb prevHashStr "0")
                  else
                    let prev := or_empty_object (nth (i - 1) c JUndefined) in
                    prevTemp <- previous_block prev ;;
                    let prevRecomputedHash := computeHash prevTemp in
                    Returns (String.eqb prevHashStr prevRecomputedHash)) ;;
  let matchesServerGenesis :=
    if negb (Nat.eqb i 0) || Nat.eqb (List.length (chain server)) 0 then true
    else match nth_error (chain server) 0 with
         | Some gen => String.eqb hashStr (hash gen)
         | None => false
         end in
  let blockValid :=
    negb cascadeInvalid && isHashValid && isPowValid && isPrevValid && isIndexValid
    && matchesServerGenesis in
  Returns (mkDetail bIndex isHashValid isPowValid isPrevValid isIndexValid
                    (Some matchesServerGenesis) blockValid cascadeInvalid).

(** One iteration of the loop of [validateChain(chain, difficulty)]. *)
Definition validate_step (server : Blockchain) (d : nat) (c : list JsVal)
    (i : nat) (st : LoopState) : Outcome LoopState :=
  det <- upload_detail server d c i (snd st) ;;
  Returns (record_detail st det).

Fixpoint for_each (body : nat -> LoopState -> Outcome LoopState)
    (positions : list nat) (st : LoopState) : Outcome LoopState :=
  match positions with
  | [] => Returns st
  | i :: rest => st' <- body i st ;; for_each body rest st'
  end.

Definition validateChain (server : Blockchain) (c : list JsVal) (d : nat) : Outcome Report :=
  st <- for_each (validate_step server d c) (seq 0 (List.length c)) initial_loop_state ;;
  Returns (fst st).

(** *** [parseUpChain]

    The parsers and the regular-expression operations are the platform's:
    [JSON.parse] and [yaml.load] ([None] when they throw), the split of the
    text on its [---] separator lines, [trim], and the match of the line
    pattern of a label (the label at a line start, a colon, optional white
    space, the rest of the line), which yields that rest. *)
Variable JSON_parse : string -> option JsVal.
Variable yaml_load : string -> option JsVal.
Variable split_sections : string -> list string.
Variable trim : string -> string.
Variable match_line : string -> string -> option string.

(** [Array.isArray(parsed)], else [parsed && Array.isArray(parsed.chain)]. *)
Definition chain_of_document (parsed : JsVal) : option (list JsVal) :=
  match parsed with
  | JArr blocks => Some blocks
  | _ =>
      if truthy parsed
      then match js_get parsed "chain" with
           | JArr blocks => Some blocks
           | _ => None
           end
      else None
  end.

Definition try_document (r : option JsVal) : option (list JsVal) :=
  match r with
  | Some parsed => chain_of_document parsed
  | None => None
  end.

(** The body of the loop over the sections of the text format: the block
    pushed for a section, if any. *)
Definition text_block (section : string) : option JsVal :=
  let s := trim section in
  if String.eqb s EmptyString then None
  else
    let getLine label := option_map trim (match_line label s) in
    let indexStr := getLine "Index" in
    let timestamp := getLine "Timestamp" in
    let previousHash := getLine "Previous Hash" in
    let hash := getLine "Hash" in
    let dataStr := getLine "Data" in
    let nonceStr := getLine "Nonce" in
    match indexStr, nonceStr with
    | Some indexStr, Some nonceStr =>
        let dataVal :=
          match JSON_parse (template_opt dataStr) with
          | Some v => v
          | None => opt_str dataStr
          end in
        Some (JObj [ ("index", JNum (StringToNumber indexStr));
                     ("timestamp", opt_str timestamp);
                     ("previousHash", opt_str previousHash);
                     ("hash", opt_str hash);
                     ("data", dataVal);
                     ("nonce", JNum (StringToNumber nonceStr)) ])
    | _, _ => None
    end.

Definition text_blocks (raw : string) : list JsVal :=
  flat_map (fun section => match text_block section with
                           | Some b => [b]
                           | None => []
                           end) (split_sections raw).

(** [parseUpChain]; [raw] is the content of the uploaded file. *)
Definition parseUpChain (raw : string) : Outcome (list JsVal) :=
  match try_document (JSON_parse raw) with
  | Some blocks => Returns blocks
  | None =>
      match try_document (yaml_load raw) with
      | Some blocks => Returns blocks
      | None =>
          let blocks := text_blocks raw in
          if Nat.ltb 0 (List.length blocks) then Returns blocks
          else Throws MalformedFile
      end
  end.

End Engine.
End Upload.

(** ** Vocabulary of the properties *)

(** [block.nonce += 1] *)
Definition bump (n : JsNum) : JsNum := num_add n (Int 1).

(** The checks of a detail other than the cascade flag. *)
Definition local_checks (det : Detail) : bool :=
  isHashValid det && isPowValid det && isPrevValid det && isIndexValid det
  && match matchesServerGenesis det with
     | Some m => m
     | None => true
     end.

Definition invalid (det : Detail) : bool := negb (blockValid det).

(** What a report says about cascading: a detail is flagged [cascaded]
    exactly when an earlier detail of the report is invalid, everything after
    an invalid detail is flagged and invalid, and the indices of the invalid
    details are listed in the order of the details. *)
Definition Cascading (r : Report) : Prop :=
  (forall j dj, nth_error (details r) j = Some dj ->
     (cascaded dj = true <->
      exists k dk, k < j /\ nth_error (details r) k = Some dk /\ blockValid dk = false))
  /\ (forall k j dk dj,
        k < j -> nth_error (details r) k = Some dk -> blockValid dk = false ->
        nth_error (details r) j = Some dj ->
        cascaded dj = true /\ blockValid dj = false)
  /\ invalidBlockIndices r = map d_index (filter invalid (details r))
  /\ isValid r = forallb blockValid (details r).

(** How the upload validator reads the fields of the record it checks. *)
Definition current_record (c : list JsVal) (i : nat) : JsVal :=
  Upload.or_empty_object (nth i c JUndefined).

Definition read_index (raw : JsVal) : JsVal :=
  Upload.coalesce (Upload.js_get raw "index") (Upload.js_get raw "Index").

Definition read_hash (raw : JsVal) : JsVal :=
  Upload.coalesce
    (Upload.coalesce
       (Upload.coalesce (Upload.js_get raw "hash") (Upload.js_get raw "Hash"))
       (Upload.js_get raw "HASH"))
    (JStr EmptyString).

Definition read_previousHash (raw : JsVal) : JsVal :=
  Upload.coalesce
    (Upload.coalesce
       (Upload.coalesce
          (Upload.coalesce (Upload.js_get raw "previousHash") (Upload.js_get raw "prevHash"))
          (Upload.js_get raw "prev_hash"))
       (Upload.js_get raw "previous_hash"))
    (JStr EmptyString).

Definition read_timestamp (raw : JsVal) : JsVal :=
  Upload.coalesce
    (Upload.coalesce
       (Upload.coalesce (Upload.js_get raw "timestamp") (Upload.js_get raw "Timestamp"))
       (Upload.js_get raw "time"))
    (JStr EmptyString).

Definition read_nonce (raw : JsVal) : JsVal :=
  Upload.coalesce
    (Upload.coalesce (Upload.js_get raw "nonce") (Upload.js_get raw "Nonce"))
    (JNum (Int 0)).

Definition read_data (raw : JsVal) : JsVal :=
  Upload.coalesce (Upload.js_get raw "data") (Upload.js_get raw "Data").

(** [matchesServerGenesis] as a function of the position and the coerced hash. *)
Definition genesis_match (server : Blockchain) (i : nat) (hashStr : string) : bool :=
  match i, chain server with
  | S _, _ => true
  | O, [] => true
  | O, gen :: _ => String.eqb hashStr (hash gen)
  end.

(** The block rebuilt from the record before the current one takes its five
    hashed fields from the canonical keys of that record. *)
Definition rebuilt_from_canonical (StringToNumber : string -> JsNum)
    (prev : JsVal) (prevTemp : Block) : Prop :=
  Upload.js_Number StringToNumber (Upload.js_get prev "index") = Returns (index prevTemp)
  /\ Upload.js_String (Upload.coalesce (Upload.js_get prev "timestamp") (JStr EmptyString))
     = Returns (timestamp prevTemp)
  /\ data prevTemp = Upload.js_get prev "data"
  /\ Upload.js_String (Upload.coalesce (Upload.js_get prev "previousHash") (JStr EmptyString))
     = Returns (previousHash prevTemp)
  /\ Upload.js_Number StringToNumber
       (Upload.coalesce (Upload.js_get prev "nonce") (JNum (Int 0)))
     = Returns (nonce prevTemp).

(** Values whose conversion to a string or a number does not throw: no
    object with an own [toString], directly or among array elements. *)
Fixpoint convertible (v : JsVal) : bool :=
  match v with
  | JArr elems => forallb convertible elems
  | JObj props =>
      match Upload.own_property props "toString" with
      | Some _ => false
      | None => true
      end
  | _ => true
  end.


(** What C6 counts: the blocks an encoding extracts from a file. *)
Definition extracted (o : option (list JsVal)) : nat :=
  match o with
  | Some blocks => List.length blocks
  | None => 0
  end.

(** A change of exactly one stored field of a block to a different value
    of the kind the class stores there; for [data], to a value that
    [JSON.stringify] renders differently.  [overwrite] below stores any
    value. *)
Inductive tampered (b : Block) : Block -> Prop :=
| tamper_index v : v <> index b -> tampered b (set_index b v)
| tamper_timestamp v : v <> timestamp b -> tampered b (set_timestamp b v)
| tamper_data v :
    template_opt (JSON_stringify v) <> template_opt (JSON_stringify (data b)) ->
    tampered b (set_data b v)
| tamper_previousHash v : v <> previousHash b -> tampered b (set_previousHash b v)
| tamper_nonce v : v <> nonce b -> tampered b (set_nonce b v)
| tamper_hash v : v <> hash b -> tampered b (set_hash b v).

(** SHA-256 tells the two strings apart. *)
Definition no_collision (x y : string) : Prop :=
  Sha256.hex x = Sha256.hex y -> x = y.

(** The chains the class produces: by its constructor, then by [addBlock]. *)
Inductive produced (d : nat) : Blockchain -> Prop :=
| produced_new fuel now bc :
    new_Blockchain fuel d now = Returns bc -> produced d bc
| produced_add fuel now payload bc b bc' :
    produced d bc -> addBlock fuel now payload bc = Returns (b, bc') -> produced d bc'.

(** Every block carries its own hash with the required prefix, its position
    as index, and the hash of the block before it (0 for the first). *)
Definition well_linked (d : nat) (c : list Block) : Prop :=
  forall i b,
    nth_error c i = Some b ->
    hash b = computeHash b
    /\ startsWith (hash b) (targetPrefix d) = true
    /\ index b = Int (Z.of_nat i)
    /\ match i with
       | O => previousHash b = "0"
       | S k => exists prev, nth_error c k = Some prev /\ previousHash b = hash prev
       end.

(** The invariant of both validation loops. *)
Record loop_inv (st : LoopState) : Prop := mk_loop_inv {
  inv_flag : snd st = negb (forallb blockValid (details (fst st)));
  inv_isValid : isValid (fst st) = forallb blockValid (details (fst st));
  inv_indices :
    invalidBlockIndices (fst st) = map d_index (filter invalid (details (fst st)));
  inv_cascaded :
    forall j dj, nth_error (details (fst st)) j = Some dj ->
      cascaded dj = negb (forallb blockValid (firstn j (details (fst st))))
      /\ blockValid dj = negb (cascaded dj) && local_checks dj
}.

(** The chain with the block at position [i] replaced. *)
Fixpoint replace_nth {A : Type} (l : list A) (i : nat) (x : A) : list A :=
  match l, i with
  | [], _ => []
  | _ :: rest, O => x :: rest
  | y :: rest, S i' => y :: replace_nth rest i' x
  end.

Definition with_block (bc : Blockchain) (i : nat) (b : Block) : Blockchain :=
  mkBlockchain (difficulty bc) (replace_nth (chain bc) i b).

(** ** Example data *)
Definition example_now : string := "2024-01-01T00:00:00.000Z".
Definition example_later : string := "2024-01-01T00:00:05.250Z".

Definition fresh_block : Block :=
  new_Block (Int 0) example_now genesis_data "0".

Definition two_block_chain :=
  Eval vm_compute in
    match (bc <- new_Blockchain 200 1 example_now ;;
           r <- addBlock 200 example_later (JArr [JNull]) bc ;;
           Returns (snd r)) with
    | Returns bc => bc
    | _ => mkBlockchain 1 []
    end.

Definition genesis_only_chain :=
  Eval vm_compute in mkBlockchain 1 (firstn 1 (chain two_block_chain)).

Definition second_block :=
  Eval vm_compute in nth 1 (chain two_block_chain) fresh_block.

Definition three_block_chain :=
  Eval vm_compute in
    match addBlock 200 "2024-01-01T00:00:09.000Z" (JObj [("note", JStr "x")])
                   two_block_chain with
    | Returns r => snd r
    | _ => mkBlockchain 1 []
    end.

(** The chain with the stored hash of block 1 replaced. *)
Definition forged_chain :=
  Eval vm_compute in
    with_block three_block_chain 1 (set_hash second_block "0bad").

(** A block as a record of an uploaded document. *)
Definition block_record (b : Block) : JsVal :=
  JObj [ ("index", JNum (index b)); ("timestamp", JStr (timestamp b));
         ("data", data b); ("previousHash", JStr (previousHash b));
         ("nonce", JNum (nonce b)); ("hash", JStr (hash b)) ].

Definition forged_upload := Eval vm_compute in map block_record (chain forged_chain).

(** A chain mined by another process, and its upload. *)
Definition foreign_chain :=
  Eval vm_compute in
    match (bc <- new_Blockchain 200 1 "2023-06-30T12:00:00.000Z" ;;
           r <- addBlock 200 "2023-06-30T12:00:01.000Z" (JStr "hello") bc ;;
           Returns (snd r)) with
    | Returns bc => bc
    | _ => mkBlockchain 1 []
    end.

Definition foreign_upload := Eval vm_compute in map block_record (chain foreign_chain).

(** The conversion of decimal literals; the examples hold no numeric string. *)
Definition decimal_literal (s : string) : JsNum :=
  match NilZero.int_of_string s with
  | Some i => Int (Z.of_int i)
  | None => NaN
  end.

(** An upload whose only record has a [hash] that is an object with an own
    [toString]. *)
Definition shadowed_upload : list JsVal :=
  [JObj [("index", JNum (Int 0)); ("hash", JObj [("toString", JNull)])]].

(** A block as a record that uses alias keys only. *)
Definition alias_record (b : Block) : JsVal :=
  JObj [ ("Index", JNum (index b)); ("Timestamp", JStr (timestamp b));
         ("Data", data b); ("prev_hash", JStr (previousHash b));
         ("Nonce", JNum (nonce b)); ("Hash", JStr (hash b)) ].

Definition canonical_upload := Eval vm_compute in map block_record (chain three_block_chain).
Definition alias_upload := Eval vm_compute in map alias_record (chain three_block_chain).

(** The platform functions on the strings met while the file content [[]]
    is parsed: [JSON.parse] and [yaml.load] give the empty array; the
    content has no separator line, nothing to trim and no labelled line. *)
Definition brackets_parse (s : string) : option JsVal :=
  if String.eqb s "[]" then Some (JArr []) else None.
Definition brackets_split (s : string) : list string := [s].
Definition brackets_trim (s : string) : string := s.
Definition brackets_match (label s : string) : option string := None.

(** Block 1 of [two_block_chain] with its data [[null]] replaced by [[NaN]]. *)
Definition nan_block := Eval vm_compute in set_data second_block (JArr [JNum NaN]).

Definition report_or_empty (o : Outcome Report) : Report :=
  match o with
  | Returns r => r
  | _ => mkReport true [] []
  end.

(** The report on the foreign chain by a server that holds [two_block_chain]. *)
Definition foreign_report :=
  Eval vm_compute in
    report_or_empty (Upload.validateChain decimal_literal two_block_chain foreign_upload 1).

(** ** The routes of the server *)

(** [POST /api/mine]: the payload used when the request body has no
    [data]; [now] is the clock reading and [rand] the random suffix. *)
Definition default_mine_data (now rand : string) : JsVal :=
  JObj [("note", JStr "Mined via /api/mine"); ("ts", JStr now); ("rand", JStr rand)].

(** [POST /api/mine] on the module-level [blockchain]: the answer (the
    block and the validation of the chain) and the chain afterwards.
    [body] is [req.body]. *)
Definition api_mine (fuel : nat) (body : JsVal) (now_data rand now_block : string)
    (bc : Blockchain) : Outcome ((Block * Report) * Blockchain) :=
  let bodyData := Upload.js_get_opt body "data" in
  let payload := Upload.coalesce bodyData (default_mine_data now_data rand) in
  r <- addBlock fuel now_block payload bc ;;
  Returns ((fst r, validateChain (snd r)), snd r).

(** The answers of [POST /api/validate]: status 200 with the difficulty, the
    parsed chain and its validation, status 400 with a reason, or the
    status 500 with which a failure of the upload middleware is answered. *)
Inductive Refusal : Type :=
| NoFile
| Failed (e : Exn).

Inductive ValidateAnswer : Type :=
| Status200 (d : nat) (c : list JsVal) (validation : Report)
| Status400 (reason : Refusal)
| Status500.

Section Routes.
Variable StringToNumber : string -> JsNum.
Variable JSON_parse : string -> option JsVal.
Variable yaml_load : string -> option JsVal.
Variable split_sections : string -> list string.
Variable trim : string -> string.
Variable match_line : string -> string -> option string.

(** The handler of [POST /api/validate] where [JSON.stringify] returns;
    [file] is the content of the uploaded file, if any.  Whatever
    [parseUpChain] or [validateChain] throws is caught and answered with
    status 400 (neither of them searches, so the last case never arises).
    [LimitsRoute.api_validate] below is the route with the upload
    middleware and the failure of [JSON.stringify]. *)
Definition api_validate (file : option string) (bc : Blockchain) : ValidateAnswer :=
  match file with
  | None => Status400 NoFile
  | Some raw =>
      match (c <- Upload.parseUpChain StringToNumber JSON_parse yaml_load split_sections
                    trim match_line raw ;;
             validation <- Upload.validateChain StringToNumber bc c (difficulty bc) ;;
             Returns (c, validation)) with
      | Returns (c, validation) => Status200 (difficulty bc) c validation
      | Throws e => Status400 (Failed e)
      | OutOfFuel => Status400 (Failed TypeError)
      end
  end.

End Routes.

(** The chains the server holds: the one its constructor builds, then one
    more block for each answered [POST /api/mine]. *)
Inductive served (d : nat) : Blockchain -> Prop :=
| served_new fuel now bc :
    new_Blockchain fuel d now = Returns bc -> served d bc
| served_mine fuel body now_data rand now_block bc answer bc' :
    served d bc ->
    api_mine fuel body now_data rand now_block bc = Returns (answer, bc') ->
    served d bc'.

(** ** The text format

    The export of [GET /api/download?format=txt], and the three operations
    [parseUpChain] applies to a text file, written out on strings as
    sequences of UTF-8 bytes: the split on the separator pattern (an
    optional CR, LF, three dashes, an optional CR, LF), [trim], and the match
    of the line pattern of a label (flags [m] and [i]). *)
Module Text.

Definition byte (n : nat) : ascii := ascii_of_nat n.
Definition LF : ascii := byte 10.
Definition CR : ascii := byte 13.
Definition newline : string := String LF EmptyString.

Definition is_byte (c : ascii) (n : nat) : bool := Nat.eqb (nat_of_ascii c) n.

(** The length in bytes of the line terminator at the head of [s] (LF, CR,
    U+2028, U+2029); 0 when there is none. *)
Definition term_len (s : string) : nat :=
  match s with
  | String c rest =>
      if is_byte c 10 || is_byte c 13 then 1
      else if is_byte c 226 then
        match rest with
        | String c1 (String c2 _) =>
            if is_byte c1 128 && (is_byte c2 168 || is_byte c2 169) then 3 else 0
        | _ => 0
        end
      else 0
  | EmptyString => 0
  end.

(** White space, the class of the pattern and what [trim] removes, by the
    bytes of its encoding: TAB, LF, VT, FF, CR and space; U+00A0; U+1680,
    U+2000 to U+200A, U+2028, U+2029, U+202F, U+205F, U+3000 and U+FEFF. *)
Definition ws1 (c : ascii) : bool :=
  let n := nat_of_ascii c in (Nat.leb 9 n && Nat.leb n 13) || Nat.eqb n 32.

Definition ws2 (c c1 : ascii) : bool := is_byte c 194 && is_byte c1 160.

Definition ws3 (c c1 c2 : ascii) : bool :=
  let n2 := nat_of_ascii c2 in
  (is_byte c 225 && is_byte c1 154 && Nat.eqb n2 128)
  || (is_byte c 226 && is_byte c1 128
      && ((Nat.leb 128 n2 && Nat.leb n2 138) || Nat.eqb n2 168 || Nat.eqb n2 169
          || Nat.eqb n2 175))
  || (is_byte c 226 && is_byte c1 129 && Nat.eqb n2 159)
  || (is_byte c 227 && is_byte c1 128 && Nat.eqb n2 128)
  || (is_byte c 239 && is_byte c1 187 && Nat.eqb n2 191).

(** The length in bytes of the white space character at the head of [s],
    0 when there is none. *)
Definition ws_len (s : string) : nat :=
  match s with
  | String c rest =>
      if ws1 c then 1
      else
        match rest with
        | String c1 rest1 =>
            if ws2 c c1 then 2
            else
              match rest1 with
              | String c2 _ => if ws3 c c1 c2 then 3 else 0
              | EmptyString => 0
              end
        | EmptyString => 0
        end
  | EmptyString => 0
  end.

(** The same for a string read from its end: [r] holds the bytes in
    reverse. *)
Definition ws_len_back (r : string) : nat :=
  match r with
  | String c2 rest =>
      if ws1 c2 then 1
      else
        match rest with
        | String c1 rest1 =>
            if ws2 c1 c2 then 2
            else
              match rest1 with
              | String c _ => if ws3 c c1 c2 then 3 else 0
              | EmptyString => 0
              end
        | EmptyString => 0
        end
  | EmptyString => 0
  end.

(** [s] without the characters [len] finds at its head, one after the
    other; [pending] counts the bytes of a character still to be dropped. *)
Fixpoint skip_from (len : string -> nat) (pending : nat) (s : string) : string :=
  match s with
  | EmptyString => EmptyString
  | String c rest =>
      match pending with
      | S k => skip_from len k rest
      | O =>
          match len s with
          | O => s
          | S k => skip_from len k rest
          end
      end
  end.

Fixpoint rev_onto (acc s : string) : string :=
  match s with
  | EmptyString => acc
  | String c rest => rev_onto (String c acc) rest
  end.

Definition reverse (s : string) : string := rev_onto EmptyString s.

Definition skip_ws (s : string) : string := skip_from ws_len 0 s.

Definition trim_end (s : string) : string :=
  reverse (skip_from ws_len_back 0 (reverse s)).

(** [s.trim()] *)
Definition trim (s : string) : string := trim_end (skip_ws s).

(** The rest of the line, the group of the line pattern: up to the next
    line terminator or the end. *)
Fixpoint take_line (s : string) : string :=
  match s with
  | EmptyString => EmptyString
  | String c rest =>
      match term_len s with
      | O => String c (take_line rest)
      | S _ => EmptyString
      end
  end.

(** Comparison without regard to case, as flag [i] makes it: a letter of
    the label matches the same ASCII letter in either case and nothing
    else. *)
Definition upper (c : ascii) : ascii :=
  let n := nat_of_ascii c in
  if Nat.leb 97 n && Nat.leb n 122 then ascii_of_nat (n - 32) else c.

Fixpoint prefix_ci (p s : string) : option string :=
  match p with
  | EmptyString => Some s
  | String a p' =>
      match s with
      | EmptyString => None
      | String b s' => if Ascii.eqb (upper a) (upper b) then prefix_ci p' s' else None
      end
  end.

(** The first match of the line pattern of [label] in [s], searched from
    left to right: the pattern matches where a line starts (at the start of
    [s] or after a line terminator) with the label and a colon; its group is
    what follows the white space after the colon, up to the end of that
    line.  [pending] counts the bytes of a line terminator still to pass. *)
Fixpoint find_line (label : string) (pending : nat) (at_start : bool) (s : string)
  : option string :=
  match s with
  | EmptyString => None
  | String c rest =>
      match pending with
      | S k => find_line label k (Nat.eqb k 0) rest
      | O =>
          match (if at_start then prefix_ci (label ++ ":") s else None) with
          | Some after => Some (take_line (skip_ws after))
          | None =>
              match term_len s with
              | O => find_line label 0 false rest
              | S k => find_line label k (Nat.eqb k 0) rest
              end
          end
      end
  end.

Definition match_line (label s : string) : option string := find_line label 0 true s.

(** The length of what the separator pattern matches after its LF, at the
    head of [s]: three dashes, an optional CR, LF; 0 when it does not match. *)
Definition after_dashes (s : string) : nat :=
  match s with
  | String d1 (String d2 (String d3 rest)) =>
      if is_byte d1 45 && is_byte d2 45 && is_byte d3 45 then
        match rest with
        | String e1 rest1 =>
            if is_byte e1 10 then 4
            else if is_byte e1 13 then
              match rest1 with
              | String e2 _ => if is_byte e2 10 then 5 else 0
              | EmptyString => 0
              end
            else 0
        | EmptyString => 0
        end
      else 0
  | _ => 0
  end.

(** The length of the separator at the head of [s], 0 when there is none. *)
Definition sep_len (s : string) : nat :=
  match s with
  | String c rest =>
      if is_byte c 10 then
        match after_dashes rest with
        | O => 0
        | S k => S (S k)
        end
      else if is_byte c 13 then
        match rest with
        | String c1 rest1 =>
            if is_byte c1 10 then
              match after_dashes rest1 with
              | O => 0
              | S k => S (S (S k))
              end
            else 0
        | EmptyString => 0
        end
      else 0
  | EmptyString => 0
  end.

(** [raw.split(separator)]: the first piece and the pieces after it;
    [pending] counts the bytes of a separator still to pass. *)
Fixpoint split_from (pending : nat) (s : string) : string * list string :=
  match s with
  | EmptyString => (EmptyString, [])
  | String c rest =>
      match pending with
      | S k => split_from k rest
      | O =>
          match sep_len s with
          | O => let (piece, pieces) := split_from 0 rest in (String c piece, pieces)
          | S k => let (piece, pieces) := split_from k rest in (EmptyString, piece :: pieces)
          end
      end
  end.

Definition split_sections (raw : string) : list string :=
  let (piece, pieces) := split_from 0 raw in piece :: pieces.

(** The text of the [Data] line of a block. *)
Definition data_text (v : JsVal) : string :=
  match v with
  | JStr s => s
  | _ => template_opt (JSON_stringify v)
  end.

(** The lines the export pushes for a block. *)
Definition block_lines (b : Block) : list string :=
  [ "---";
    "Index: " ++ num_to_string (index b);
    "Timestamp: " ++ timestamp b;
    "Previous Hash: " ++ previousHash b;
    "Hash: " ++ hash b;
    "Data: " ++ data_text (data b);
    "Nonce: " ++ num_to_string (nonce b) ].

(** [GET /api/download?format=txt]: the text sent. *)
Definition download_txt (bc : Blockchain) : string :=
  String.concat newline (flat_map block_lines (chain bc)).

End Text.

(** *** Vocabulary of the text format *)

(** A printable ASCII byte other than the space. *)
Definition solid (c : ascii) : bool :=
  let n := nat_of_ascii c in Nat.leb 33 n && Nat.leb n 126.

Fixpoint all_solid (s : string) : bool :=
  match s with
  | EmptyString => true
  | String c rest => solid c && all_solid rest
  end.

Fixpoint last_solid (s : string) : bool :=
  match s with
  | EmptyString => false
  | String c EmptyString => solid c
  | String c rest => last_solid rest
  end.

(** No line terminator in [s]. *)
Fixpoint one_line (s : string) : bool :=
  match s with
  | EmptyString => true
  | String c rest => Nat.eqb (Text.term_len s) 0 && one_line rest
  end.

(** A field value the text format carries unchanged: one line, not empty,
    no white space at either end. *)
Definition plain (s : string) : bool :=
  one_line s && negb (String.eqb s EmptyString) && Nat.eqb (Text.ws_len s) 0
  && String.eqb (Text.trim_end s) s.

Definition plain_block (b : Block) : bool :=
  plain (timestamp b) && plain (previousHash b) && plain (hash b)
  && plain (Text.data_text (data b)).

(** No byte of [s] starts a line terminator. *)
Fixpoint no_break (s : string) : bool :=
  match s with
  | EmptyString => true
  | String c rest =>
      negb (Text.is_byte c 10 || Text.is_byte c 13 || Text.is_byte c 226) && no_break rest
  end.

(** The first characters of label and line differ, compared without regard
    to case. *)
Definition head_differs (label line : string) : bool :=
  match label, line with
  | String a _, String b _ => negb (Ascii.eqb (Text.upper a) (Text.upper b))
  | _, _ => false
  end.

(** The line ends a text file may have: LF, or CR and LF. *)
Definition crlf : string := String Text.CR (String Text.LF EmptyString).

Definition line_end (eol : string) : Prop := eol = Text.newline \/ eol = crlf.

Definition break_byte (c : ascii) : bool := Text.is_byte c 10 || Text.is_byte c 13.

(** What may follow a value: the end of the text or a line end. *)
Definition ends_line (rest : string) : bool :=
  match rest with
  | EmptyString => true
  | String c _ => break_byte c
  end.

(** Six lines in the layout of the export, each ended by [eol] but the
    last, which is followed by [rest]. *)
Definition record_text (eol i t p h d n rest : string) : string :=
  "Index: " ++ i ++ eol ++
  "Timestamp: " ++ t ++ eol ++
  "Previous Hash: " ++ p ++ eol ++
  "Hash: " ++ h ++ eol ++
  "Data: " ++ d ++ eol ++
  "Nonce: " ++ n ++ rest.

(** The six lines of a block in the export, followed by [rest]. *)
Definition body_then (eol : string) (b : Block) (rest : string) : string :=
  record_text eol (num_to_string (index b)) (timestamp b) (previousHash b) (hash b)
              (Text.data_text (data b)) (num_to_string (nonce b)) rest.

(** The export after its first block. *)
Fixpoint more_blocks (eol : string) (blocks : list Block) : string :=
  match blocks with
  | [] => EmptyString
  | b :: rest => eol ++ "---" ++ eol ++ body_then eol b (more_blocks eol rest)
  end.

(** The text export with [eol] between its lines; the server sends it
    with LF. *)
Definition export_with (eol : string) (bc : Blockchain) : string :=
  String.concat eol (flat_map Text.block_lines (chain bc)).

(** What the pattern of the [Data] line captures in the section of a
    block: the text of its data or, when that is empty, the line after it. *)
Definition data_line_value (b : Block) : string :=
  if String.eqb (Text.data_text (data b)) EmptyString
  then "Nonce: " ++ num_to_string (nonce b)
  else Text.data_text (data b).

(** The record [parseUpChain] builds from the section of a block when
    [dataStr] is what it reads as data. *)
Definition imported_with (StringToNumber : string -> JsNum)
    (JSON_parse : string -> option JsVal) (b : Block) (dataStr : string) : JsVal :=
  JObj [ ("index", JNum (StringToNumber (num_to_string (index b))));
         ("timestamp", JStr (timestamp b));
         ("previousHash", JStr (previousHash b));
         ("hash", JStr (hash b));
         ("data", match JSON_parse dataStr with
                  | Some v => v
                  | None => JStr dataStr
                  end);
         ("nonce", JNum (StringToNumber (num_to_string (nonce b)))) ].

Definition imported (StringToNumber : string -> JsNum) (JSON_parse : string -> option JsVal)
    (b : Block) : JsVal :=
  imported_with StringToNumber JSON_parse b (Text.data_text (data b)).

(** The fields of a block other than its data are plain, and the text of
    its data is plain or empty. *)
Definition exportable (b : Block) : bool :=
  plain (timestamp b) && plain (previousHash b) && plain (hash b)
  && (plain (Text.data_text (data b)) || String.eqb (Text.data_text (data b)) EmptyString).

(** Two records with the same own properties, whatever their order. *)
Definition same_fields (r r' : JsVal) : Prop :=
  exists props props',
    r = JObj props /\ r' = JObj props'
    /\ forall key, Upload.own_property props key = Upload.own_property props' key.

(** The block [parseUpChain] builds a record of, when the platform reads
    the numbers back: the block with the data it reads from the text. *)
Definition reread (JSON_parse : string -> option JsVal) (b : Block) : Block :=
  set_data b (match JSON_parse (Text.data_text (data b)) with
              | Some v => v
              | None => JStr (Text.data_text (data b))
              end).


(** ** Vocabulary of the further properties *)

(** The position of the first invalid detail; the length when all are valid. *)
Fixpoint first_invalid (l : list Detail) : nat :=
  match l with
  | [] => 0
  | det :: rest => if blockValid det then S (first_invalid rest) else 0
  end.

(** What both reports say as a whole: the details are valid up to some
    position and invalid from it on, [invalidBlockIndices] lists the
    indices of that tail, and [isValid] says that the tail is empty. *)
Definition Suffix_invalid (r : Report) : Prop :=
  let k := first_invalid (details r) in
  k <= List.length (details r)
  /\ map blockValid (details r)
     = (repeat true k ++ repeat false (List.length (details r) - k))%list
  /\ invalidBlockIndices r = map d_index (skipn k (details r))
  /\ (isValid r = true <-> invalidBlockIndices r = [])
  /\ (isValid r = true <-> k = List.length (details r)).

Definition is_number (n : JsNum) : bool :=
  match n with
  | Int _ => true
  | NaN => false
  end.

(** The values the upload validator passes to [String] or [Number] at
    position [i], in the order in which it converts them: five fields of the
    record it checks, then, after the first position, the index and four
    fields of the record before. *)
Definition conversions (c : list JsVal) (i : nat) : list JsVal :=
  let raw := current_record c i in
  [read_index raw; read_previousHash raw; read_hash raw; read_timestamp raw; read_nonce raw]
  ++ match i with
     | O => []
     | S k =>
         let prev := current_record c k in
         [ Upload.js_get_opt (nth k c JUndefined) "index";
           Upload.js_get prev "index";
           Upload.coalesce (Upload.js_get prev "timestamp") (JStr EmptyString);
           Upload.coalesce (Upload.js_get prev "previousHash") (JStr EmptyString);
           Upload.coalesce (Upload.js_get prev "nonce") (JNum (Int 0)) ]
     end.

Definition converts_at (c : list JsVal) (i : nat) : bool :=
  forallb convertible (conversions c i).

Definition converts_all (c : list JsVal) : bool :=
  forallb (converts_at c) (seq 0 (List.length c)).

(** An outcome that is a value when [ok] holds and a [TypeError] otherwise. *)
Definition guarded {A : Type} (ok : bool) (o : Outcome A) : Prop :=
  exists a, o = if ok then Returns a else Throws TypeError.

Definition is_object (v : JsVal) : bool :=
  match v with
  | JObj _ => true
  | _ => false
  end.

(** The shape of the records the text format yields. *)
Definition text_shaped (b : JsVal) : Prop :=
  exists i ts ph h dv n,
    b = JObj [ ("index", JNum i); ("timestamp", Upload.opt_str ts);
               ("previousHash", Upload.opt_str ph); ("hash", Upload.opt_str h);
               ("data", dv); ("nonce", JNum n) ].

(** The block the upload validator hashes for the record of [b]: [null]
    data falls through [raw.data ?? raw.Data] to [undefined]. *)
Definition as_uploaded (b : Block) : Block :=
  set_data b (Upload.coalesce (data b) JUndefined).

(** The five checks of a detail that do not depend on what came before. *)
Definition flags (det : Detail) : JsNum * bool * bool * bool * bool :=
  (d_index det, isHashValid det, isPowValid det, isPrevValid det, isIndexValid det).

(** A detail and a report of the internal validator, with the
    [matchesServerGenesis] entry of the upload validator added as true. *)
Definition tag_detail (det : Detail) : Detail :=
  mkDetail (d_index det) (isHashValid det) (isPowValid det) (isPrevValid det)
           (isIndexValid det) (Some true) (blockValid det) (cascaded det).

Definition tag_report (r : Report) : Report :=
  mkReport (isValid r) (invalidBlockIndices r) (map tag_detail (details r)).

Definition tag_state (st : LoopState) : LoopState := (tag_report (fst st), snd st).

(** A chain with a block whose data is [null]. *)
Definition null_data_chain :=
  Eval vm_compute in
    match addBlock 200 example_later JNull genesis_only_chain with
    | Returns r => snd r
    | _ => mkBlockchain 1 []
    end.

Definition null_data_block :=
  Eval vm_compute in nth 1 (chain null_data_chain) fresh_block.

(** The platform functions on the strings met while a file with the two
    lines [Index: 0] and [Nonce: 5] is parsed: it is not JSON, YAML reads it
    as a mapping, it has no separator line and nothing to trim, and of the
    six labels only [Index] and [Nonce] have a line. *)
Definition two_lines : string := "Index: 0" ++ String "010"%char "Nonce: 5".
Definition two_lines_json (s : string) : option JsVal := None.
Definition two_lines_yaml (s : string) : option JsVal :=
  Some (JObj [("Index", JNum (Int 0)); ("Nonce", JNum (Int 5))]).
Definition two_lines_match (label s : string) : option string :=
  if String.eqb label "Index" then Some "0"
  else if String.eqb label "Nonce" then Some "5"
  else None.

(** The detail the upload validator builds for the record of block [b] at
    position [i] of the records of [blocks]. *)
Definition uploaded_detail (server : Blockchain) (d : nat) (blocks : list Block)
    (i : nat) (b : Block) (casc : bool) : Detail :=
  let bd := block_detail d blocks i b casc in
  let hv := String.eqb (computeHash (as_uploaded b)) (hash b) in
  let gm := genesis_match server i (hash b) in
  mkDetail (index b) hv (isPowValid bd) (isPrevValid bd) (isIndexValid bd) (Some gm)
           (negb casc && hv && isPowValid bd && isPrevValid bd && isIndexValid bd && gm)
           casc.

Definition null_data_upload := Eval vm_compute in map block_record (chain null_data_chain).
Definition two_block_upload := Eval vm_compute in map block_record (chain two_block_chain).

Definition null_data_report :=
  Eval vm_compute in
    report_or_empty (Upload.validateChain decimal_literal null_data_chain null_data_upload 1).

(** A chain with a block whose data is the empty string. *)
Definition empty_data_chain : Blockchain :=
  mkBlockchain 1 [mkBlock (Int 0) example_now (JStr EmptyString) "0" (Int 5) "0abc"].

(** [JSON.parse] on the texts met while the export of a chain of the
    example data is read: the data of the genesis block and the texts [7]
    and [[null]] are JSON, the export itself and the other lines are not. *)
Definition example_parse (s : string) : option JsVal :=
  if String.eqb s "7" then Some (JNum (Int 7))
  else if String.eqb s "[null]" then Some (JArr [JNull])
  else if String.eqb s (Text.data_text genesis_data) then Some genesis_data
  else None.

(** A chain with a block whose data is the string [7]. *)
Definition json_text_chain :=
  Eval vm_compute in
    match addBlock 200 example_later (JStr "7") genesis_only_chain with
    | Returns r => snd r
    | _ => mkBlockchain 1 []
    end.

Definition json_text_block :=
  Eval vm_compute in nth 1 (chain json_text_chain) fresh_block.

Definition json_text_import :=
  Eval vm_compute in
    Upload.text_blocks decimal_literal example_parse Text.split_sections Text.trim
      Text.match_line (Text.download_txt json_text_chain).

Definition json_text_report :=
  Eval vm_compute in
    report_or_empty (Upload.validateChain decimal_literal json_text_chain json_text_import 1).


(** ** The limit of [JSON.stringify]

    [JSON.stringify] recurses into the value it is given, and throws a
    [RangeError] when the value is nested deeper than the call stack of the
    engine allows.  Where that happens is the platform's: [stringifies v]
    says that the call made while a block is constructed returns on [v]; a
    later call on the same value is made with no less stack.  What the call
    returns is [JSON_stringify v].  The definitions of this module are
    those of the classes and of the stand-alone [validateChain] with that
    failure written out, for data that has not been hashed before: the
    [data] argument of [addBlock] and the data of uploaded records. *)
Module Limits.
Section Stack.
Variable stringifies : JsVal -> bool.

(** [JSON.stringify(v)] *)
Definition stringify (v : JsVal) : Outcome (option string) :=
  if stringifies v then Returns (JSON_stringify v) else Throws RangeError.

(** [computeHash()] *)
Definition computeHash (b : Block) : Outcome string :=
  text <- stringify (data b) ;;
  Returns (Sha256.hex (num_to_string (index b) ++ "|" ++ timestamp b ++ "|"
                       ++ template_opt text ++ "|"
                       ++ previousHash b ++ "|" ++ num_to_string (nonce b))).

(** [new Block(index, timestamp, data, previousHash)] *)
Definition new_Block (i : JsNum) (t : string) (d : JsVal) (p : string) : Outcome Block :=
  let this := mkBlock i t d p (Int 0) EmptyString in
  h <- computeHash this ;;
  Returns (set_hash this h).

(** [proofOfWork(block)] *)
Fixpoint proofOfWork (fuel : nat) (d : nat) (block : Block) : Outcome Block :=
  match fuel with
  | O => OutOfFuel
  | S fuel' =>
      h <- computeHash block ;;
      let block1 := set_hash block h in
      if startsWith (hash block1) (targetPrefix d) then Returns block1
      else proofOfWork fuel' d (set_nonce block1 (num_add (nonce block1) (Int 1)))
  end.

(** [addBlock(data)] *)
Definition addBlock (fuel : nat) (now : string) (d : JsVal) (bc : Blockchain)
  : Outcome (Block * Blockchain) :=
  match getLastBlock bc with
  | None => Throws TypeError
  | Some latest =>
      newBlock <- new_Block (num_add (index latest) (Int 1)) now d (hash latest) ;;
      mined <- proofOfWork fuel (difficulty bc) newBlock ;;
      Returns (mined, mkBlockchain (difficulty bc) (chain bc ++ [mined]))
  end.

Variable StringToNumber : string -> JsNum.

(** The block [validateChain] rebuilds from the record before. *)
Definition previous_block (prev : JsVal) : Outcome Block :=
  pIndex <- Upload.js_Number StringToNumber (Upload.js_get prev "index") ;;
  pTimestamp <- Upload.js_String
                  (Upload.coalesce (Upload.js_get prev "timestamp") (JStr EmptyString)) ;;
  pPrevHash <- Upload.js_String
                 (Upload.coalesce (Upload.js_get prev "previousHash") (JStr EmptyString)) ;;
  prevTemp <- new_Block pIndex pTimestamp (Upload.js_get prev "data") pPrevHash ;;
  pNonce <- Upload.js_Number StringToNumber
              (Upload.coalesce (Upload.js_get prev "nonce") (JNum (Int 0))) ;;
  Returns (set_nonce prevTemp pNonce).

(** The detail object [validateChain(chain, difficulty)] builds at position
    [i]. *)
Definition upload_detail (server : Blockchain) (d : nat) (c : list JsVal)
    (i : nat) (cascadeInvalid : bool) : Outcome Detail :=
  let raw := Upload.or_empty_object (nth i c JUndefined) in
  let prevHashRaw :=
    Upload.coalesce
      (Upload.coalesce
         (Upload.coalesce (Upload.js_get raw "previousHash") (Upload.js_get raw "prevHash"))
         (Upload.js_get raw "prev_hash")) (Upload.js_get raw "previous_hash") in
  let hashRaw :=
    Upload.coalesce (Upload.coalesce (Upload.js_get raw "hash") (Upload.js_get raw "Hash"))
                    (Upload.js_get raw "HASH") in
  let dataRaw := Upload.coalesce (Upload.js_get raw "data") (Upload.js_get raw "Data") in
  let indexRaw := Upload.coalesce (Upload.js_get raw "index") (Upload.js_get raw "Index") in
  let nonceRaw := Upload.coalesce (Upload.js_get raw "nonce") (Upload.js_get raw "Nonce") in
  let timestampRaw :=
    Upload.coalesce
      (Upload.coalesce (Upload.js_get raw "timestamp") (Upload.js_get raw "Timestamp"))
      (Upload.js_get raw "time") in
  bIndex <- Upload.js_Number StringToNumber indexRaw ;;
  prevHashStr <- Upload.js_String (Upload.coalesce prevHashRaw (JStr EmptyString)) ;;
  hashStr <- Upload.js_String (Upload.coalesce hashRaw (JStr EmptyString)) ;;
  timestampStr <- Upload.js_String (Upload.coalesce timestampRaw (JStr EmptyString)) ;;
  nonceNum <- Upload.js_Number StringToNumber (Upload.coalesce nonceRaw (JNum (Int 0))) ;;
  temp0 <- new_Block bIndex timestampStr dataRaw prevHashStr ;;
  let temp := set_nonce temp0 nonceNum in
  reHash <- computeHash temp ;;
  let isHashValid := String.eqb reHash hashStr in
  let isPowValid := startsWith hashStr (targetPrefix d) in
  prevIndex <- (if Nat.eqb i 0 then Returns (Int (-1))
                else Upload.js_Number StringToNumber
                       (Upload.js_get_opt (nth (i - 1) c JUndefined) "index")) ;;
  let isIndexValid :=
    if Nat.eqb i 0 then num_eqb bIndex (Int 0)
    else num_eqb bIndex (num_add prevIndex (Int 1)) in
  isPrevValid <- (if Nat.eqb i 0 then Returns (String.eqb prevHashStr "0")
                  else
                    let prev := Upload.or_empty_object (nth (i - 1) c JUndefined) in
                    prevTemp <- previous_block prev ;;
                    prevRecomputedHash <- computeHash prevTemp ;;
                    Returns (String.eqb prevHashStr prevRecomputedHash)) ;;
  let matchesServerGenesis :=
    if negb (Nat.eqb i 0) || Nat.eqb (List.length (chain server)) 0 then true
    else match nth_error (chain server) 0 with
         | Some gen => String.eqb hashStr (hash gen)
         | None => false
         end in
  let blockValid :=
    negb cascadeInvalid && isHashValid && isPowValid && isPrevValid && isIndexValid
    && matchesServerGenesis in
  Returns (mkDetail bIndex isHashValid isPowValid isPrevValid isIndexValid
                    (Some matchesServerGenesis) blockValid cascadeInvalid).

Definition validate_step (server : Blockchain) (d : nat) (c : list JsVal)
    (i : nat) (st : LoopState) : Outcome LoopState :=
  det <- upload_detail server d c i (snd st) ;;
  Returns (record_detail st det).

(** [validateChain(chain, difficulty)] *)
Definition validateChain (server : Blockchain) (c : list JsVal) (d : nat) : Outcome Report :=
  st <- Upload.for_each (validate_step server d c) (seq 0 (List.length c))
          initial_loop_state ;;
  Returns (fst st).

End Stack.
End Limits.

(** The data values the upload validator hashes at position [i]: the data
    of the record it checks and, after the first position, the data of the
    record before, read through the canonical key. *)
Definition hashed (c : list JsVal) (i : nat) : list JsVal :=
  read_data (current_record c i)
  :: match i with
     | O => []
     | S k => [Upload.js_get (current_record c k) "data"]
     end.

Definition hashes_at (stringifies : JsVal -> bool) (c : list JsVal) (i : nat) : bool :=
  forallb stringifies (hashed c i).

Definition hashes_all (stringifies : JsVal -> bool) (c : list JsVal) : bool :=
  forallb (hashes_at stringifies c) (seq 0 (List.length c)).

(** An outcome that is a value or one of the two errors of the engine. *)
Definition decided {A : Type} (o : Outcome A) : Prop :=
  (exists a, o = Returns a) \/ o = Throws TypeError \/ o = Throws RangeError.

(** The body of the answer of [POST /api/validate] with status 200, which
    [res.json] passes to [JSON.stringify]. *)
Definition detail_value (det : Detail) : JsVal :=
  JObj ([ ("index", JNum (d_index det)); ("isHashValid", JBool (isHashValid det));
          ("isPowValid", JBool (isPowValid det)); ("isPrevValid", JBool (isPrevValid det));
          ("isIndexValid", JBool (isIndexValid det)) ]
        ++ match matchesServerGenesis det with
           | Some m => [("matchesServerGenesis", JBool m)]
           | None => []
           end
        ++ [ ("blockValid", JBool (blockValid det)); ("cascaded", JBool (cascaded det)) ]).

Definition report_value (r : Report) : JsVal :=
  JObj [ ("isValid", JBool (isValid r));
         ("invalidBlockIndices", JArr (map JNum (invalidBlockIndices r)));
         ("details", JArr (map detail_value (details r))) ].

Definition answer_value (d : nat) (c : list JsVal) (validation : Report) : JsVal :=
  JObj [ ("difficulty", JNum (Int (Z.of_nat d))); ("chain", JArr c);
         ("validation", report_value validation) ].

(** What the upload middleware leaves to the handler of
    [POST /api/validate], for a request that the body parsers of the
    application have passed on to the route: a failure of its own, a
    request without a file, or the content of the file it stored. *)
Inductive Uploaded : Type :=
| UploadFailed
| NoUpload
| FileContent (raw : string).

Module LimitsRoute.
Section Route.
Variable stringifies : JsVal -> bool.
Variable sends : JsVal -> bool.
Variable StringToNumber : string -> JsNum.
Variable JSON_parse : string -> option JsVal.
Variable yaml_load : string -> option JsVal.
Variable split_sections : string -> list string.
Variable trim : string -> string.
Variable match_line : string -> string -> option string.

(** [res.json(body)]: [sends body] says that its call of [JSON.stringify]
    returns on the body. *)
Definition res_json (body : JsVal) : Outcome unit :=
  if sends body then Returns tt else Throws RangeError.

(** [POST /api/validate]: a failure of the middleware is answered with
    status 500 before the handler runs; whatever [parseUpChain],
    [validateChain] or [res.json] throws in the handler is caught and
    answered with status 400 (none of them searches, so the last case never
    arises). *)
Definition api_validate (upload : Uploaded) (bc : Blockchain) : ValidateAnswer :=
  match upload with
  | UploadFailed => Status500
  | NoUpload => Status400 NoFile
  | FileContent raw =>
      match (c <- Upload.parseUpChain StringToNumber JSON_parse yaml_load split_sections
                    trim match_line raw ;;
             validation <- Limits.validateChain stringifies StringToNumber bc c
                             (difficulty bc) ;;
             sent <- res_json (answer_value (difficulty bc) c validation) ;;
             Returns (c, validation)) with
      | Returns (c, validation) => Status200 (difficulty bc) c validation
      | Throws e => Status400 (Failed e)
      | OutOfFuel => Status400 (Failed TypeError)
      end
  end.

End Route.
End LimitsRoute.

(** The depth to which a value is nested. *)
Fixpoint nesting (v : JsVal) : nat :=
  match v with
  | JArr elems => S (fold_right (fun x m => Nat.max (nesting x) m) 0 elems)
  | JObj props => S (fold_right (fun kv m => Nat.max (nesting (snd kv)) m) 0 props)
  | _ => 0
  end.

(** An engine whose [JSON.stringify] returns on values nested at most 100
    deep. *)
Definition example_stack (v : JsVal) : bool := Nat.leb (nesting v) 100.

(** An engine with no stack to spare, whose [JSON.stringify] fails on every
    array and object. *)
Definition no_stack (v : JsVal) : bool := Nat.eqb (nesting v) 0.

(** ** Blocks with overwritten fields

    Any value can be stored in a field of a block of the chain.
    [computeHash] renders every field through the template literal, and
    [Blockchain.validateChain] compares with [===], calls [startsWith] on
    the stored hash and adds 1 to the stored index.  This module is
    [computeHash] and [validateChain] on blocks whose fields hold arbitrary
    values. *)
Module Raw.

Record Block : Type := mkBlock {
  index : JsVal;
  timestamp : JsVal;
  data : JsVal;
  previousHash : JsVal;
  nonce : JsVal;
  hash : JsVal
}.

Record Detail : Type := mkDetail {
  d_index : JsVal;
  isHashValid : bool;
  isPowValid : bool;
  isPrevValid : bool;
  isIndexValid : bool;
  blockValid : bool;
  cascaded : bool
}.

Record Report : Type := mkReport {
  isValid : bool;
  invalidBlockIndices : list JsVal;
  details : list Detail
}.

Definition LoopState : Type := (Report * bool)%type.

Definition initial_loop_state : LoopState := (mkReport true [] [], false).

(** [v === w] where one of the two is a primitive: an array or an object
    is then never equal to the other. *)
Definition strict_eq (v w : JsVal) : bool :=
  match v, w with
  | JUndefined, JUndefined => true
  | JNull, JNull => true
  | JBool a, JBool b => Bool.eqb a b
  | JNum a, JNum b => num_eqb a b
  | JStr a, JStr b => String.eqb a b
  | _, _ => false
  end.

(** [v + 1]: a string, an array or an object is brought to a string, to
    which 1 is appended; anything else is brought to a number. *)
Definition plus_one (v : JsVal) : Outcome JsVal :=
  match v with
  | JUndefined => Returns (JNum NaN)
  | JNull => Returns (JNum (Int 1))
  | JBool true => Returns (JNum (Int 2))
  | JBool false => Returns (JNum (Int 1))
  | JNum n => Returns (JNum (num_add n (Int 1)))
  | JStr s => Returns (JStr (s ++ "1"))
  | JArr _ | JObj _ => s <- Upload.js_String v ;; Returns (JStr (s ++ "1"))
  end.

(** [h.startsWith(prefix)]: only a string has the method. *)
Definition starts_with (h : JsVal) (prefix : string) : Outcome bool :=
  match h with
  | JStr s => Returns (startsWith s prefix)
  | _ => Throws TypeError
  end.

Section Stack.
Variable stringifies : JsVal -> bool.

(** [computeHash()] *)
Definition computeHash (b : Block) : Outcome string :=
  i <- Upload.js_String (index b) ;;
  t <- Upload.js_String (timestamp b) ;;
  d <- Limits.stringify stringifies (data b) ;;
  p <- Upload.js_String (previousHash b) ;;
  n <- Upload.js_String (nonce b) ;;
  Returns (Sha256.hex (i ++ "|" ++ t ++ "|" ++ template_opt d ++ "|" ++ p ++ "|" ++ n)).

(** The detail object [validateChain()] builds at position [i]. *)
Definition block_detail (d : nat) (c : list Block) (i : nat) (current : Block)
    (cascadeInvalid : bool) : Outcome Detail :=
  recomputedHash <- computeHash current ;;
  let isHashValid := strict_eq (JStr recomputedHash) (hash current) in
  isPowValid <- starts_with (hash current) (targetPrefix d) ;;
  isIndexValid <- match i with
                  | O => Returns (strict_eq (index current) (JNum (Int 0)))
                  | S k =>
                      match nth_error c k with
                      | Some prev =>
                          next <- plus_one (index prev) ;;
                          Returns (strict_eq (index current) next)
                      | None => Throws TypeError
                      end
                  end ;;
  isPrevValid <- match i with
                 | O => Returns (strict_eq (previousHash current) (JStr "0"))
                 | S k =>
                     match nth_error c k with
                     | Some prev =>
                         prevRecomputedHash <- computeHash prev ;;
                         Returns (strict_eq (previousHash current) (JStr prevRecomputedHash))
                     | None => Throws TypeError
                     end
                 end ;;
  let blockValid :=
    negb cascadeInvalid && isHashValid && isPowValid && isPrevValid && isIndexValid in
  Returns (mkDetail (index current) isHashValid isPowValid isPrevValid isIndexValid
                    blockValid cascadeInvalid).

Definition record_detail (st : LoopState) (det : Detail) : LoopState :=
  let '(result, cascadeInvalid) := st in
  let result1 :=
    mkReport (isValid result) (invalidBlockIndices result) (details result ++ [det]) in
  if negb (blockValid det)
  then (mkReport false (invalidBlockIndices result1 ++ [d_index det]) (details result1),
        true)
  else (result1, cascadeInvalid).

Definition validate_step (d : nat) (c : list Block) (i : nat) (st : LoopState)
  : Outcome LoopState :=
  match nth_error c i with
  | None => Returns st
  | Some current =>
      det <- block_detail d c i current (snd st) ;;
      Returns (record_detail st det)
  end.

Fixpoint for_each (body : nat -> LoopState -> Outcome LoopState)
    (positions : list nat) (st : LoopState) : Outcome LoopState :=
  match positions with
  | [] => Returns st
  | i :: rest => st' <- body i st ;; for_each body rest st'
  end.

(** [validateChain()] *)
Definition validateChain (d : nat) (c : list Block) : Outcome Report :=
  st <- for_each (validate_step d c) (seq 0 (List.length c)) initial_loop_state ;;
  Returns (fst st).

End Stack.
End Raw.

(** A block of the chain as the class stores it. *)
Definition raw_of (b : Block) : Raw.Block :=
  Raw.mkBlock (JNum (index b)) (JStr (timestamp b)) (data b) (JStr (previousHash b))
              (JNum (nonce b)) (JStr (hash b)).

(** The stored fields of a block. *)
Inductive Field : Type :=
| F_index
| F_timestamp
| F_data
| F_previousHash
| F_nonce
| F_hash.

(** [block.field = v] *)
Definition overwrite (f : Field) (v : JsVal) (b : Raw.Block) : Raw.Block :=
  match f with
  | F_index =>
      Raw.mkBlock v (Raw.timestamp b) (Raw.data b) (Raw.previousHash b) (Raw.nonce b)
                  (Raw.hash b)
  | F_timestamp =>
      Raw.mkBlock (Raw.index b) v (Raw.data b) (Raw.previousHash b) (Raw.nonce b)
                  (Raw.hash b)
  | F_data =>
      Raw.mkBlock (Raw.index b) (Raw.timestamp b) v (Raw.previousHash b) (Raw.nonce b)
                  (Raw.hash b)
  | F_previousHash =>
      Raw.mkBlock (Raw.index b) (Raw.timestamp b) (Raw.data b) v (Raw.nonce b) (Raw.hash b)
  | F_nonce =>
      Raw.mkBlock (Raw.index b) (Raw.timestamp b) (Raw.data b) (Raw.previousHash b) v
                  (Raw.hash b)
  | F_hash =>
      Raw.mkBlock (Raw.index b) (Raw.timestamp b) (Raw.data b) (Raw.previousHash b)
                  (Raw.nonce b) v
  end.

(** The text a value contributes to the hashed string in the place of a
    field: what [JSON.stringify] makes of it for [data], its conversion to a
    string for the other fields. *)
Definition rendered (stringifies : JsVal -> bool) (f : Field) (v : JsVal) : Outcome string :=
  match f with
  | F_data => t <- Limits.stringify stringifies v ;; Returns (template_opt t)
  | _ => Upload.js_String v
  end.

(** The text the field of a block of the class contributes. *)
Definition field_text (f : Field) (b : Block) : string :=
  match f with
  | F_index => num_to_string (index b)
  | F_timestamp => timestamp b
  | F_data => template_opt (JSON_stringify (data b))
  | F_previousHash => previousHash b
  | F_nonce => num_to_string (nonce b)
  | F_hash => hash b
  end.

(** The hashed string of a block with the text of one field replaced. *)
Definition hash_input_with (f : Field) (text : string) (b : Block) : string :=
  (match f with F_index => text | _ => num_to_string (index b) end) ++ "|"
  ++ (match f with F_timestamp => text | _ => timestamp b end) ++ "|"
  ++ (match f with F_data => text | _ => template_opt (JSON_stringify (data b)) end) ++ "|"
  ++ (match f with F_previousHash => text | _ => previousHash b end) ++ "|"
  ++ (match f with F_nonce => text | _ => num_to_string (nonce b) end).

(** A detail and a report of [validateChain] as [Raw.validateChain]
    gives them. *)
Definition raw_detail (det : Detail) : Raw.Detail :=
  Raw.mkDetail (JNum (d_index det)) (isHashValid det) (isPowValid det) (isPrevValid det)
               (isIndexValid det) (blockValid det) (cascaded det).

Definition raw_report (r : Report) : Raw.Report :=
  Raw.mkReport (isValid r) (map JNum (invalidBlockIndices r)) (map raw_detail (details r)).

Definition raw_state (st : LoopState) : Raw.LoopState := (raw_report (fst st), snd st).

Definition raw_report_or_empty (o : Outcome Raw.Report) : Raw.Report :=
  match o with
  | Returns r => r
  | _ => Raw.mkReport true [] []
  end.

(** The chain of three blocks with the nonce of its second block
    overwritten: by a string of other digits, and by the string of its own
    digits. *)
Definition tampered_nonce_report :=
  Eval vm_compute in
    raw_report_or_empty
      (Raw.validateChain example_stack 1
         (replace_nth (map raw_of (chain three_block_chain)) 1
            (overwrite F_nonce (JStr "7777") (raw_of second_block)))).

Definition retyped_nonce_report :=
  Eval vm_compute in
    raw_report_or_empty
      (Raw.validateChain example_stack 1
         (replace_nth (map raw_of (chain three_block_chain)) 1
            (overwrite F_nonce (JStr (num_to_string (nonce second_block)))
               (raw_of second_block)))).

(** The report of the upload validator on the records of the forged chain,
    by a server that holds the chain as it was mined. *)
Definition forged_upload_report :=
  Eval vm_compute in
    report_or_empty (Upload.validateChain decimal_literal three_block_chain forged_upload 1).

(** The records read from the text export of [two_block_chain]. *)
Definition two_block_import :=
  Eval vm_compute in
    Upload.text_blocks decimal_literal example_parse Text.split_sections Text.trim
      Text.match_line (Text.download_txt two_block_chain).

(** ** Lemmas on strings and digests *)

Arguments Sha256.hex : simpl never.
Arguments computeHash : simpl never.

Example sha_constants :
  List.length Sha256.round_constants = 64
  /\ nth 0 Sha256.round_constants 0%Z = 0x428a2f98%Z
  /\ nth 63 Sha256.round_constants 0%Z = 0xc67178f2%Z
  /\ nth 0 Sha256.initial_state 0%Z = 0x6a09e667%Z
  /\ nth 7 Sha256.initial_state 0%Z = 0x5be0cd19%Z.
Proof. repeat split. Qed.

Example sha_empty :
  Sha256.hex EmptyString = "e3b0c44298fc1c149afbf4c8996fb92427ae41e4649b934ca495991b7852b855".
Proof. vm_compute. reflexivity. Qed.

Example sha_abc :
  Sha256.hex "abc" = "ba7816bf8f01cfea414140de5dae2223b00361a396177a9cb410ff61f20015ad".
Proof. vm_compute. reflexivity. Qed.

Example sha_two_blocks :
  Sha256.hex "abcdbcdecdefdefgefghfghighijhijkijkljklmklmnlmnomnopnopq"
  = "248d6a61d20638b8e5c026930c3e6039a33ce45964ff2167f6ecedd419db06c1".
Proof. vm_compute. reflexivity. Qed.

Lemma length_string_of_list_ascii (l : list ascii) :
  String.length (string_of_list_ascii l) = List.length l.
Proof. induction l as [|a l IH]; simpl; [reflexivity | now rewrite IH]. Qed.

Lemma length_string_append (s t : string) :
  String.length (s ++ t) = String.length s + String.length t.
Proof. induction s as [|a s IH]; simpl; [reflexivity | now rewrite IH]. Qed.

Lemma compress_length (h chunk : list Z) :
  List.length h = 8 -> List.length (Sha256.compress h chunk) = 8.
Proof.
  intros H. unfold Sha256.compress.
  rewrite length_map, length_combine, H. reflexivity.
Qed.

Lemma digest_words_length (msg : list Z) : List.length (Sha256.digest_words msg) = 8.
Proof.
  unfold Sha256.digest_words.
  generalize (Sha256.chunks16 (List.length (Sha256.words_of_bytes (Sha256.pad msg)))
                              (Sha256.words_of_bytes (Sha256.pad msg))).
  assert (H : List.length Sha256.initial_state = 8) by reflexivity.
  revert H. generalize Sha256.initial_state.
  intros h H chunks. revert h H.
  induction chunks as [|ch chunks IH]; intros h H; simpl; [exact H|].
  apply IH. now apply compress_length.
Qed.

Lemma hex_of_word_length (w : Z) : String.length (Sha256.hex_of_word w) = 8.
Proof.
  unfold Sha256.hex_of_word.
  now rewrite length_string_of_list_ascii, length_map, length_rev, length_seq.
Qed.

(** A digest is 64 hexadecimal characters. *)
Lemma hex_length (s : string) : String.length (Sha256.hex s) = 64.
Proof.
  unfold Sha256.hex.
  pose proof (digest_words_length (Sha256.bytes_of_string s)) as H.
  destruct (Sha256.digest_words (Sha256.bytes_of_string s))
    as [|a [|b [|c [|d [|e [|f [|g [|h [|i l]]]]]]]]]; try discriminate.
  cbn [map String.concat].
  rewrite !length_string_append, !hex_of_word_length. reflexivity.
Qed.

Lemma hex_not_empty (s : string) : String.eqb (Sha256.hex s) EmptyString = false.
Proof.
  apply String.eqb_neq. intros E.
  pose proof (hex_length s) as H. rewrite E in H. discriminate.
Qed.

Lemma startsWith_empty_prefix (s : string) : startsWith s EmptyString = true.
Proof. destruct s; reflexivity. Qed.

Lemma startsWith_of_empty (d : nat) :
  startsWith EmptyString (targetPrefix (S d)) = false.
Proof. reflexivity. Qed.

Lemma startsWith_split (s p : string) :
  startsWith s p = true <-> exists rest, s = p ++ rest.
Proof.
  unfold startsWith. revert s.
  induction p as [|c p IH]; intros [|c' s]; simpl.
  - split; [intros _; exists EmptyString; reflexivity | reflexivity].
  - split; [intros _; exists (String c' s); reflexivity | reflexivity].
  - split; [discriminate | intros [rest H]; discriminate].
  - destruct (Ascii.ascii_dec c c') as [->|Hne].
    + rewrite IH. split; intros [rest H]; exists rest.
      * now rewrite H.
      * now inversion H.
    + split; [discriminate | intros [rest H]; inversion H; congruence].
Qed.

Lemma computeHash_set_hash (b : Block) (h : string) :
  computeHash (set_hash b h) = computeHash b.
Proof. reflexivity. Qed.

Lemma computeHash_same_fields (b1 b2 : Block) :
  index b1 = index b2 -> timestamp b1 = timestamp b2 -> data b1 = data b2 ->
  previousHash b1 = previousHash b2 -> nonce b1 = nonce b2 ->
  computeHash b1 = computeHash b2.
Proof.
  intros Hi Ht Hd Hp Hn. unfold computeHash, hash_input.
  now rewrite Hi, Ht, Hd, Hp, Hn.
Qed.

(** ** Proof of work *)

Lemma proofOfWork_unfold (fuel d : nat) (b : Block) :
  proofOfWork (S fuel) d b =
  if startsWith (computeHash b) (targetPrefix d)
  then Returns (set_hash b (computeHash b))
  else proofOfWork fuel d (set_nonce (set_hash b (computeHash b)) (bump (nonce b))).
Proof. reflexivity. Qed.

Lemma proofOfWork_mines (fuel d : nat) (b b' : Block) :
  proofOfWork fuel d b = Returns b' -> mines d b b'.
Proof.
  revert b. induction fuel as [|fuel IH]; intros b H.
  - discriminate.
  - rewrite proofOfWork_unfold in H.
    destruct (startsWith (computeHash b) (targetPrefix d)) eqn:E.
    + inversion H; subst. now apply mines_found.
    + apply mines_retry; [exact E | now apply IH].
Qed.

Lemma mines_proofOfWork (d : nat) (b b' : Block) :
  mines d b b' -> exists fuel, proofOfWork fuel d b = Returns b'.
Proof.
  induction 1 as [b E | b b' E _ [fuel IH]].
  - exists 1. now rewrite proofOfWork_unfold, E.
  - exists (S fuel). now rewrite proofOfWork_unfold, E.
Qed.

Lemma proofOfWork_more_fuel (fuel extra d : nat) (b b' : Block) :
  proofOfWork fuel d b = Returns b' -> proofOfWork (fuel + extra) d b = Returns b'.
Proof.
  revert b. induction fuel as [|fuel IH]; intros b H; [discriminate|].
  change (S fuel + extra) with (S (fuel + extra)).
  rewrite proofOfWork_unfold in *.
  destruct (startsWith (computeHash b) (targetPrefix d)); [exact H | now apply IH].
Qed.

Lemma set_nonce_same (b : Block) : set_nonce b (nonce b) = b.
Proof. destruct b; reflexivity. Qed.

Lemma computeHash_retry (b : Block) (h : string) (j : nat) :
  computeHash (set_nonce (set_nonce (set_hash b h) (bump (nonce b)))
                         (Nat.iter j bump (bump (nonce b))))
  = computeHash (set_nonce b (Nat.iter (S j) bump (nonce b))).
Proof. rewrite Nat.iter_succ_r. reflexivity. Qed.

Lemma proofOfWork_result (fuel d : nat) (b b' : Block) :
  proofOfWork fuel d b = Returns b' ->
  startsWith (hash b') (targetPrefix d) = true
  /\ (exists rest, hash b' = repeat_string "0" d ++ rest)
  /\ hash b' = computeHash b'
  /\ index b' = index b /\ timestamp b' = timestamp b /\ data b' = data b
  /\ previousHash b' = previousHash b
  /\ exists k,
       k < fuel
       /\ nonce b' = Nat.iter k bump (nonce b)
       /\ forall j, j < k ->
            startsWith (computeHash (set_nonce b (Nat.iter j bump (nonce b))))
                       (targetPrefix d) = false.
Proof.
  revert b. induction fuel as [|fuel IH]; intros b H; [discriminate|].
  rewrite proofOfWork_unfold in H.
  destruct (startsWith (computeHash b) (targetPrefix d)) eqn:E.
  - inversion H; subst b'; clear H. simpl hash.
    repeat split; try reflexivity; try exact E.
    + now apply startsWith_split.
    + exists 0. repeat split; [lia | intros j Hj; lia].
  - apply IH in H as (Hpre & Hrest & Hh & Hi & Ht & Hd & Hp & k & Hk & Hn & Hfail).
    simpl in Hi, Ht, Hd, Hp, Hn.
    repeat split; try assumption.
    exists (S k). split; [lia|]. split.
    + rewrite Hn. now rewrite Nat.iter_succ_r.
    + intros [|j] Hj.
      * simpl Nat.iter. now rewrite set_nonce_same.
      * rewrite <- computeHash_retry with (h := computeHash b). apply Hfail. lia.
Qed.

(** C1. Whenever [proofOfWork] returns, the block's hash starts with
    [difficulty] characters 0 and is the hash recomputed from the block's
    own fields; only the nonce and the hash were changed; and the nonce is
    the starting nonce incremented by one [k] times, where each of the [k]
    earlier nonces was tried and gave a hash without the prefix. *)
Theorem proofOfWork_correct (fuel d : nat) (b b' : Block) :
  proofOfWork fuel d b = Returns b' ->
  startsWith (hash b') (targetPrefix d) = true
  /\ (exists rest, hash b' = repeat_string "0" d ++ rest)
  /\ hash b' = computeHash b'
  /\ index b' = index b /\ timestamp b' = timestamp b /\ data b' = data b
  /\ previousHash b' = previousHash b
  /\ exists k,
       k < fuel
       /\ nonce b' = Nat.iter k bump (nonce b)
       /\ forall j, j < k ->
            startsWith (computeHash (set_nonce b (Nat.iter j bump (nonce b))))
                       (targetPrefix d) = false.
Proof. exact (proofOfWork_result fuel d b b'). Qed.

Lemma proofOfWork_correct_witness :
  proofOfWork 50 1 fresh_block
  = Returns (set_nonce (set_hash fresh_block
               "0181cffa9279dde54b5d8f490aeee622918b8cedfd33e37fc5fc49ab1fda1b8f") (Int 2))
  /\ exists k, k < 50 /\ Int 2 = Nat.iter k bump (Int 0).
Proof.
  assert (H : proofOfWork 50 1 fresh_block
              = Returns (set_nonce (set_hash fresh_block
                  "0181cffa9279dde54b5d8f490aeee622918b8cedfd33e37fc5fc49ab1fda1b8f") (Int 2)))
    by (vm_compute; reflexivity).
  split; [exact H|].
  destruct (proofOfWork_correct 50 1 fresh_block _ H)
    as (_ & _ & _ & _ & _ & _ & _ & k & Hk & Hn & _).
  exists k. split; [exact Hk | exact Hn].
Defined.

(** The search stops at the first nonce that works: if the [k]-th increment
    is the first to give a hash with the prefix, [proofOfWork] returns with
    it as soon as the budget exceeds [k]. *)
Lemma proofOfWork_terminates (d k : nat) (b : Block) :
  (forall j, j < k ->
     startsWith (computeHash (set_nonce b (Nat.iter j bump (nonce b))))
                (targetPrefix d) = false) ->
  startsWith (computeHash (set_nonce b (Nat.iter k bump (nonce b))))
             (targetPrefix d) = true ->
  exists b', proofOfWork (S k) d b = Returns b'
             /\ nonce b' = Nat.iter k bump (nonce b).
Proof.
  revert b. induction k as [|k IH]; intros b Hfail Hok.
  - exists (set_hash b (computeHash b)). rewrite proofOfWork_unfold.
    simpl Nat.iter in Hok. rewrite set_nonce_same in Hok.
    rewrite Hok. split; reflexivity.
  - rewrite proofOfWork_unfold.
    assert (E : startsWith (computeHash b) (targetPrefix d) = false).
    { specialize (Hfail 0 ltac:(lia)). simpl Nat.iter in Hfail.
      now rewrite set_nonce_same in Hfail. }
    rewrite E.
    destruct (IH (set_nonce (set_hash b (computeHash b)) (bump (nonce b)))) as (b' & Hb' & Hn).
    + intros j Hj. simpl nonce. rewrite computeHash_retry. apply Hfail. lia.
    + simpl nonce. rewrite computeHash_retry. exact Hok.
    + exists b'. split; [exact Hb'|]. rewrite Hn. simpl nonce.
      now rewrite Nat.iter_succ_r.
Qed.

(** ** Appending *)

Lemma getLastBlock_app (d : nat) (c : list Block) (b : Block) :
  getLastBlock (mkBlockchain d (c ++ [b])) = Some b.
Proof.
  unfold getLastBlock. simpl chain. rewrite length_app. simpl List.length.
  replace (List.length c + 1 - 1) with (List.length c) by lia.
  rewrite nth_error_app2 by lia. now rewrite Nat.sub_diag.
Qed.

Lemma addBlock_result (fuel : nat) (now : string) (d : JsVal)
    (bc bc' : Blockchain) (b : Block) :
  addBlock fuel now d bc = Returns (b, bc') ->
  exists latest,
    getLastBlock bc = Some latest
    /\ chain bc' = (chain bc ++ [b])%list
    /\ List.length (chain bc') = S (List.length (chain bc))
    /\ getLastBlock bc' = Some b
    /\ index b = num_add (index latest) (Int 1)
    /\ previousHash b = hash latest
    /\ data b = d
    /\ difficulty bc' = difficulty bc
    /\ forall i x, nth_error (chain bc) i = Some x -> nth_error (chain bc') i = Some x.
Proof.
  unfold addBlock. intros H.
  destruct (getLastBlock bc) as [latest|] eqn:L; [|discriminate].
  destruct (proofOfWork fuel (difficulty bc) _) as [mined| |] eqn:P; try discriminate.
  simpl in H. inversion H; subst b bc'; clear H.
  apply proofOfWork_result in P as (Hpow & _ & Hh & Hi & _ & Hd & Hp & _).
  exists latest. simpl chain. simpl difficulty.
  repeat split; try assumption.
  - rewrite length_app. simpl. lia.
  - apply getLastBlock_app.
  - intros i x Hx. rewrite nth_error_app1; [exact Hx|].
    apply nth_error_Some. congruence.
Qed.

(** C5. When [addBlock(d)] returns, the chain is the former chain followed
    by the returned block: one element longer, the returned block last, no
    earlier element touched; the block's index is the former last block's
    index plus 1, its previousHash is that block's hash and its data is
    [d]. *)
Theorem addBlock_appends (fuel : nat) (now : string) (d : JsVal)
    (bc bc' : Blockchain) (b : Block) :
  addBlock fuel now d bc = Returns (b, bc') ->
  exists latest,
    getLastBlock bc = Some latest
    /\ chain bc' = (chain bc ++ [b])%list
    /\ List.length (chain bc') = S (List.length (chain bc))
    /\ getLastBlock bc' = Some b
    /\ index b = num_add (index latest) (Int 1)
    /\ previousHash b = hash latest
    /\ data b = d
    /\ difficulty bc' = difficulty bc
    /\ forall i x, nth_error (chain bc) i = Some x -> nth_error (chain bc') i = Some x.
Proof. exact (addBlock_result fuel now d bc bc' b). Qed.

Lemma addBlock_appends_witness :
  addBlock 200 example_later (JArr [JNull]) genesis_only_chain
  = Returns (second_block, two_block_chain)
  /\ chain two_block_chain = (chain genesis_only_chain ++ [second_block])%list
  /\ index second_block = Int 1.
Proof.
  assert (E : addBlock 200 example_later (JArr [JNull]) genesis_only_chain
              = Returns (second_block, two_block_chain))
    by (vm_compute; reflexivity).
  destruct (addBlock_appends _ _ _ _ _ _ E) as (latest & _ & Hc & _).
  split; [exact E | split; [exact Hc | reflexivity]].
Defined.

(** When the chain is not empty and the search ends within the budget,
    [addBlock] returns. *)
Lemma addBlock_returns (fuel : nat) (now : string) (d : JsVal) (bc : Blockchain)
    (latest mined : Block) :
  getLastBlock bc = Some latest ->
  proofOfWork fuel (difficulty bc)
    (new_Block (num_add (index latest) (Int 1)) now d (hash latest)) = Returns mined ->
  addBlock fuel now d bc
  = Returns (mined, mkBlockchain (difficulty bc) (chain bc ++ [mined])).
Proof. intros L P. unfold addBlock. now rewrite L, P. Qed.

(** ** The cascade *)

Lemma record_detail_details (st : LoopState) (det : Detail) :
  details (fst (record_detail st det)) = (details (fst st) ++ [det])%list.
Proof. destruct st as [r c]. unfold record_detail. now destruct (negb (blockValid det)). Qed.

Lemma record_detail_flag (st : LoopState) (det : Detail) :
  snd (record_detail st det) = snd st || invalid det.
Proof.
  destruct st as [r c]. unfold record_detail, invalid.
  destruct (negb (blockValid det)); simpl; [now rewrite orb_true_r | now rewrite orb_false_r].
Qed.

Lemma record_detail_isValid (st : LoopState) (det : Detail) :
  isValid (fst (record_detail st det)) = isValid (fst st) && blockValid det.
Proof.
  destruct st as [r c]. unfold record_detail.
  destruct (blockValid det); simpl; [now rewrite andb_true_r | now rewrite andb_false_r].
Qed.

Lemma record_detail_indices (st : LoopState) (det : Detail) :
  invalidBlockIndices (fst (record_detail st det))
  = (invalidBlockIndices (fst st) ++ (if invalid det then [d_index det] else []))%list.
Proof.
  destruct st as [r c]. unfold record_detail, invalid.
  destruct (negb (blockValid det)); simpl; [reflexivity | now rewrite app_nil_r].
Qed.

Lemma forallb_firstn_false {A : Type} (f : A -> bool) (l : list A) (j : nat) :
  forallb f (firstn j l) = false <->
  exists k x, k < j /\ nth_error l k = Some x /\ f x = false.
Proof.
  revert j. induction l as [|a l IH]; intros j.
  - rewrite firstn_nil. simpl. split; [discriminate|].
    intros (k & x & _ & H & _). destruct k; discriminate.
  - destruct j as [|j]; simpl.
    + split; [discriminate | intros (k & x & Hk & _); lia].
    + rewrite andb_false_iff, IH. split.
      * intros [Ha | (k & x & Hk & Hx & Hf)].
        -- exists 0, a. repeat split; [lia | exact Ha].
        -- exists (S k), x. repeat split; [lia | exact Hx | exact Hf].
      * intros ([|k] & x & Hk & Hx & Hf).
        -- left. simpl in Hx. now inversion Hx; subst.
        -- right. exists k, x. repeat split; [lia | exact Hx | exact Hf].
Qed.

Lemma loop_inv_initial : loop_inv initial_loop_state.
Proof.
  split; try reflexivity. intros j dj H. destruct j; discriminate.
Qed.

Lemma loop_inv_record (st : LoopState) (det : Detail) :
  loop_inv st ->
  cascaded det = snd st ->
  blockValid det = negb (snd st) && local_checks det ->
  loop_inv (record_detail st det).
Proof.
  intros [Hf Hv Hi Hc] Hcas Hbv.
  split.
  - rewrite record_detail_flag, record_detail_details, forallb_app, Hf. simpl.
    unfold invalid. now destruct (forallb blockValid (details (fst st))), (blockValid det).
  - rewrite record_detail_isValid, record_detail_details, forallb_app, Hv. simpl.
    now rewrite andb_true_r.
  - rewrite record_detail_indices, record_detail_details, filter_app, map_app, Hi.
    simpl. now destruct (invalid det).
  - intros j dj. rewrite record_detail_details. intros Hj.
    destruct (Nat.lt_ge_cases j (List.length (details (fst st)))) as [Hlt | Hge].
    + rewrite nth_error_app1 in Hj by exact Hlt.
      rewrite firstn_app. replace (j - List.length (details (fst st))) with 0 by lia.
      simpl. rewrite app_nil_r. now apply Hc.
    + rewrite nth_error_app2 in Hj by exact Hge.
      destruct (j - List.length (details (fst st))) as [|m] eqn:Em.
      * simpl in Hj. inversion Hj; subst dj.
        replace j with (List.length (details (fst st)) + 0) by lia.
        rewrite firstn_app_2. simpl. rewrite app_nil_r.
        rewrite Hcas at 1. rewrite Hf at 1. split; [reflexivity|].
        now rewrite Hbv, Hcas.
      * destruct m; discriminate.
Qed.

Lemma loop_inv_Cascading (st : LoopState) : loop_inv st -> Cascading (fst st).
Proof.
  intros [Hf Hv Hi Hc].
  assert (Hflag : forall j dj, nth_error (details (fst st)) j = Some dj ->
            (cascaded dj = true <->
             exists k dk, k < j /\ nth_error (details (fst st)) k = Some dk
                          /\ blockValid dk = false)).
  { intros j dj Hj. destruct (Hc j dj Hj) as [-> _].
    rewrite negb_true_iff. apply forallb_firstn_false. }
  repeat split; try assumption.
  - now apply Hflag.
  - now apply Hflag.
  - apply (Hflag _ _ H2). now exists k, dk.
  - destruct (Hc j dj H2) as [_ ->].
    replace (cascaded dj) with true; [reflexivity|].
    symmetry. apply (Hflag _ _ H2). now exists k, dk.
Qed.

Lemma block_detail_valid (d : nat) (c : list Block) (i : nat) (cur : Block) (casc : bool) :
  blockValid (block_detail d c i cur casc)
  = negb casc && local_checks (block_detail d c i cur casc).
Proof.
  unfold local_checks, block_detail. simpl.
  now rewrite andb_true_r, !andb_assoc.
Qed.

(** The state of [Blockchain.validateChain()] after its first [n] iterations. *)
Lemma validate_prefix (d : nat) (c : list Block) (n : nat) :
  n <= List.length c ->
  let st := fold_left (validate_step d c) (seq 0 n) initial_loop_state in
  loop_inv st
  /\ List.length (details (fst st)) = n
  /\ forall i det, nth_error (details (fst st)) i = Some det ->
       exists cur casc, nth_error c i = Some cur /\ det = block_detail d c i cur casc.
Proof.
  induction n as [|n IH]; intros Hn.
  - simpl. split; [apply loop_inv_initial|]. split; [reflexivity|].
    intros i det H. destruct i; discriminate.
  - rewrite seq_S, fold_left_app. simpl.
    destruct IH as (Hinv & Hlen & Hdet); [lia|].
    set (st := fold_left (validate_step d c) (seq 0 n) initial_loop_state) in *.
    unfold validate_step.
    destruct (nth_error c n) as [cur|] eqn:Hcur.
    2:{ apply nth_error_None in Hcur. lia. }
    split; [|split].
    + apply loop_inv_record; [exact Hinv | reflexivity | apply block_detail_valid].
    + rewrite record_detail_details, length_app. simpl. lia.
    + intros i det. rewrite record_detail_details. intros H.
      destruct (Nat.lt_ge_cases i n) as [Hlt | Hge].
      * rewrite nth_error_app1 in H by lia. now apply Hdet.
      * rewrite nth_error_app2 in H by lia. rewrite Hlen in H.
        destruct (i - n) as [|m] eqn:Em; [|destruct m; discriminate].
        simpl in H. inversion H; subst det.
        replace i with n by lia. now exists cur, (snd st).
Qed.

Lemma validateChain_details (bc : Blockchain) :
  loop_inv (fold_left (validate_step (difficulty bc) (chain bc))
                      (seq 0 (List.length (chain bc))) initial_loop_state)
  /\ List.length (details (validateChain bc)) = List.length (chain bc)
  /\ forall i det, nth_error (details (validateChain bc)) i = Some det ->
       exists cur casc, nth_error (chain bc) i = Some cur
                        /\ det = block_detail (difficulty bc) (chain bc) i cur casc.
Proof. unfold validateChain. now apply validate_prefix. Qed.

(** *** The upload validator *)

Lemma bind_Returns {A B : Type} (m : Outcome A) (k : A -> Outcome B) (b : B) :
  bind m k = Returns b -> exists a, m = Returns a /\ k a = Returns b.
Proof. destruct m; simpl; intros H; try discriminate. now exists a. Qed.

Lemma genesis_match_eq (server : Blockchain) (i : nat) (hashStr : string) :
  (if negb (Nat.eqb i 0) || Nat.eqb (List.length (chain server)) 0 then true
   else match nth_error (chain server) 0 with
        | Some gen => String.eqb hashStr (hash gen)
        | None => false
        end) = genesis_match server i hashStr.
Proof. unfold genesis_match. destruct i; [|reflexivity]. now destruct (chain server). Qed.

Section UploadFacts.
Variable StringToNumber : string -> JsNum.
Variable server : Blockchain.
Variable d : nat.
Variable c : list JsVal.

(** Everything [upload_detail] computes, read off a returned detail. *)
Lemma upload_detail_inv (i : nat) (casc : bool) (det : Detail) :
  Upload.upload_detail StringToNumber server d c i casc = Returns det ->
  exists bIndex prevHashStr hashStr timestampStr nonceNum,
    Upload.js_Number StringToNumber (read_index (current_record c i)) = Returns bIndex
    /\ Upload.js_String (read_previousHash (current_record c i)) = Returns prevHashStr
    /\ Upload.js_String (read_hash (current_record c i)) = Returns hashStr
    /\ Upload.js_String (read_timestamp (current_record c i)) = Returns timestampStr
    /\ Upload.js_Number StringToNumber (read_nonce (current_record c i)) = Returns nonceNum
    /\ d_index det = bIndex
    /\ isHashValid det =
         String.eqb
           (computeHash (set_nonce (new_Block bIndex timestampStr
                                      (read_data (current_record c i)) prevHashStr) nonceNum))
           hashStr
    /\ isPowValid det = startsWith hashStr (targetPrefix d)
    /\ matchesServerGenesis det = Some (genesis_match server i hashStr)
    /\ cascaded det = casc
    /\ blockValid det = negb casc && local_checks det
    /\ match i with
       | O => isPrevValid det = String.eqb prevHashStr "0"
              /\ isIndexValid det = num_eqb bIndex (Int 0)
       | S k =>
           exists prevIndex prevTemp,
             Upload.js_Number StringToNumber
               (Upload.js_get_opt (nth k c JUndefined) "index") = Returns prevIndex
             /\ Upload.previous_block StringToNumber (current_record c k) = Returns prevTemp
             /\ isPrevValid det = String.eqb prevHashStr (computeHash prevTemp)
             /\ isIndexValid det = num_eqb bIndex (num_add prevIndex (Int 1))
       end.
Proof.
  unfold Upload.upload_detail. intros H.
  apply bind_Returns in H as (bIndex & H1 & H).
  apply bind_Returns in H as (prevHashStr & H2 & H).
  apply bind_Returns in H as (hashStr & H3 & H).
  apply bind_Returns in H as (timestampStr & H4 & H).
  apply bind_Returns in H as (nonceNum & H5 & H).
  apply bind_Returns in H as (prevIndex & H6 & H).
  apply bind_Returns in H as (isPrev & H7 & H).
  rewrite genesis_match_eq in H.
  inversion H; subst det; clear H.
  exists bIndex, prevHashStr, hashStr, timestampStr, nonceNum.
  unfold local_checks. simpl.
  repeat (split; [first [assumption | reflexivity]|]).
  split; [now rewrite !andb_assoc|].
  destruct i as [|k].
  - simpl in H7. inversion H7. split; reflexivity.
  - simpl in H6, H7. rewrite Nat.sub_0_r in H6, H7.
    apply bind_Returns in H7 as (prevTemp & H8 & H7). inversion H7.
    exists prevIndex, prevTemp. repeat split; assumption.
Qed.

Lemma for_each_app (body : nat -> LoopState -> Outcome LoopState)
    (l1 l2 : list nat) (st : LoopState) :
  Upload.for_each body (l1 ++ l2) st
  = (st' <- Upload.for_each body l1 st ;; Upload.for_each body l2 st').
Proof.
  revert st. induction l1 as [|i l1 IH]; intros st; simpl; [reflexivity|].
  destruct (body i st); simpl; [apply IH | reflexivity | reflexivity].
Qed.

(** The state of the upload validator after its first [n] iterations. *)
Lemma upload_prefix (n : nat) (st : LoopState) :
  Upload.for_each (Upload.validate_step StringToNumber server d c) (seq 0 n)
                  initial_loop_state = Returns st ->
  loop_inv st
  /\ List.length (details (fst st)) = n
  /\ forall i det, nth_error (details (fst st)) i = Some det ->
       exists casc, Upload.upload_detail StringToNumber server d c i casc = Returns det.
Proof.
  revert st. induction n as [|n IH]; intros st H.
  - simpl in H. inversion H; subst st. split; [apply loop_inv_initial|].
    split; [reflexivity|]. intros i det Hi. destruct i; discriminate.
  - rewrite seq_S, for_each_app in H. simpl in H.
    apply bind_Returns in H as (st1 & H1 & H).
    apply bind_Returns in H as (st2 & H2 & H). inversion H; subst st2; clear H.
    unfold Upload.validate_step in H2.
    apply bind_Returns in H2 as (det & Hdet & H2). inversion H2; subst st; clear H2.
    destruct (IH _ H1) as (Hinv & Hlen & Hall).
    pose proof (upload_detail_inv _ _ _ Hdet)
      as (? & ? & ? & ? & ? & _ & _ & _ & _ & _ & _ & _ & _ & _ & Hc & Hb & _).
    split; [|split].
    + now apply loop_inv_record.
    + rewrite record_detail_details, length_app. simpl. lia.
    + intros i det'. rewrite record_detail_details. intros Hi.
      destruct (Nat.lt_ge_cases i n) as [Hlt | Hge].
      * rewrite nth_error_app1 in Hi by lia. now apply Hall.
      * rewrite nth_error_app2 in Hi by lia. rewrite Hlen in Hi.
        destruct (i - n) as [|m] eqn:Em; [|destruct m; discriminate].
        simpl in Hi. inversion Hi; subst det'.
        replace i with n by lia. now exists (snd st1).
Qed.

Lemma upload_validateChain_details (r : Report) :
  Upload.validateChain StringToNumber server c d = Returns r ->
  Cascading r
  /\ List.length (details r) = List.length c
  /\ forall i det, nth_error (details r) i = Some det ->
       exists casc, Upload.upload_detail StringToNumber server d c i casc = Returns det.
Proof.
  unfold Upload.validateChain. intros H.
  apply bind_Returns in H as (st & Hst & H). inversion H; subst r; clear H.
  destruct (upload_prefix _ _ Hst) as (Hinv & Hlen & Hall).
  split; [now apply loop_inv_Cascading|]. now split.
Qed.

End UploadFacts.

(** C2. In a validation pass of either validator, a detail is flagged
    [cascaded] exactly when an earlier detail of the pass has
    [blockValid = false]; after an invalid detail every detail is flagged
    and invalid whatever its own checks say; and [invalidBlockIndices] lists
    the indices of the invalid details in the order of the pass, the index
    of a detail being the block's stored index (for an upload, its
    conversion to a number). *)
Theorem cascade_reported :
  (forall bc : Blockchain,
     Cascading (validateChain bc)
     /\ List.length (details (validateChain bc)) = List.length (chain bc)
     /\ forall i b det,
          nth_error (chain bc) i = Some b ->
          nth_error (details (validateChain bc)) i = Some det ->
          d_index det = index b
          /\ blockValid det = negb (cascaded det) && local_checks det)
  /\ (forall StringToNumber server c d r,
        Upload.validateChain StringToNumber server c d = Returns r ->
        Cascading r
        /\ List.length (details r) = List.length c
        /\ forall i det,
             nth_error (details r) i = Some det ->
             Upload.js_Number StringToNumber (read_index (current_record c i))
             = Returns (d_index det)
             /\ blockValid det = negb (cascaded det) && local_checks det).
Proof.
  split.
  - intros bc. destruct (validateChain_details bc) as (Hinv & Hlen & Hall).
    split; [exact (loop_inv_Cascading _ Hinv)|]. split; [exact Hlen|].
    intros i b det Hb Hdet.
    destruct (Hall _ _ Hdet) as (cur & casc & Hcur & ->).
    rewrite Hb in Hcur. inversion Hcur; subst cur.
    split; [reflexivity | apply block_detail_valid].
  - intros StringToNumber server c d r H.
    destruct (upload_validateChain_details _ _ _ _ _ H) as (Hcas & Hlen & Hall).
    split; [exact Hcas|]. split; [exact Hlen|].
    intros i det Hdet. destruct (Hall _ _ Hdet) as (casc & Hd).
    destruct (upload_detail_inv _ _ _ _ _ _ _ Hd)
      as (bIndex & ? & ? & ? & ? & Hi & _ & _ & _ & _ & Hidx & _ & _ & _ & Hc & Hb & _).
    subst bIndex. split; [exact Hi|]. now rewrite Hc.
Qed.

Lemma cascade_reported_witness :
  invalidBlockIndices (validateChain forged_chain) = [Int 1; Int 2]
  /\ map cascaded (details (validateChain forged_chain)) = [false; false; true]
  /\ map local_checks (details (validateChain forged_chain)) = [true; false; true]
  /\ Cascading (validateChain forged_chain)
  /\ exists r,
       Upload.validateChain decimal_literal three_block_chain forged_upload 1 = Returns r
       /\ invalidBlockIndices r = [Int 1; Int 2]
       /\ Cascading r.
Proof.
  split; [vm_compute; reflexivity|].
  split; [vm_compute; reflexivity|].
  split; [vm_compute; reflexivity|].
  split; [exact (proj1 (proj1 cascade_reported forged_chain))|].
  assert (E : Upload.validateChain decimal_literal three_block_chain forged_upload 1
              = Returns (mkReport false [Int 1; Int 2]
                           (map (fun det =>
                                   mkDetail (d_index det) (isHashValid det) (isPowValid det)
                                     (isPrevValid det) (isIndexValid det) (Some true)
                                     (blockValid det) (cascaded det))
                                (details (validateChain forged_chain)))))
    by (vm_compute; reflexivity).
  eexists. split; [exact E|]. split; [reflexivity|].
  exact (proj1 (proj2 cascade_reported _ _ _ _ _ E)).
Defined.

(** ** The link to the previous block *)

Lemma nth_error_replace_nth {A : Type} (l : list A) (i j : nat) (x : A) :
  nth_error (replace_nth l i x) j
  = if Nat.eqb j i then option_map (fun _ => x) (nth_error l j) else nth_error l j.
Proof.
  revert i j. induction l as [|a l IH]; intros i j.
  - simpl. destruct (Nat.eqb j i); destruct j; reflexivity.
  - destruct i as [|i], j as [|j]; simpl; try reflexivity. apply IH.
Qed.

Lemma previous_block_fields (StringToNumber : string -> JsNum) (prev : JsVal)
    (prevTemp : Block) :
  Upload.previous_block StringToNumber prev = Returns prevTemp ->
  rebuilt_from_canonical StringToNumber prev prevTemp.
Proof.
  unfold Upload.previous_block. intros H.
  apply bind_Returns in H as (pIndex & H1 & H).
  apply bind_Returns in H as (pTs & H2 & H).
  apply bind_Returns in H as (pPrev & H3 & H).
  apply bind_Returns in H as (pNonce & H4 & H).
  inversion H; subst prevTemp; clear H.
  unfold rebuilt_from_canonical. simpl. now repeat split.
Qed.

(** ** Uploads *)

(** C10. The empty sequence of records is reported valid, with no invalid
    index and no detail, whatever the difficulty. *)
Theorem empty_upload_valid (StringToNumber : string -> JsNum) (server : Blockchain)
    (d : nat) :
  Upload.validateChain StringToNumber server [] d = Returns (mkReport true [] []).
Proof. reflexivity. Qed.

(** C8, as the code has it. [matchesServerGenesis] is true at every position
    after the first and when the server holds no chain; at the first position
    it says whether the coerced hash of the record is the hash of the
    server's genesis block.  It enters [blockValid] at the first position
    only; when it fails there the first block is invalid, and with it every
    later block is reported cascaded and invalid. *)
Theorem matchesServerGenesis_reported (StringToNumber : string -> JsNum)
    (server : Blockchain) (c : list JsVal) (d : nat) (r : Report) :
  Upload.validateChain StringToNumber server c d = Returns r ->
  forall i det,
    nth_error (details r) i = Some det ->
    exists hashStr,
      Upload.js_String (read_hash (current_record c i)) = Returns hashStr
      /\ matchesServerGenesis det = Some (genesis_match server i hashStr)
      /\ (0 < i -> matchesServerGenesis det = Some true)
      /\ (chain server = [] -> matchesServerGenesis det = Some true)
      /\ (forall gen rest, i = 0 -> chain server = gen :: rest ->
            matchesServerGenesis det = Some (String.eqb hashStr (hash gen)))
      /\ (0 < i ->
            blockValid det
            = negb (cascaded det) && isHashValid det && isPowValid det
              && isPrevValid det && isIndexValid det)
      /\ (matchesServerGenesis det = Some false ->
            i = 0 /\ blockValid det = false
            /\ forall j dj, 0 < j -> nth_error (details r) j = Some dj ->
                 cascaded dj = true /\ blockValid dj = false).
Proof.
  intros H i det Hdet.
  destruct (upload_validateChain_details _ _ _ _ _ H) as (Hcas & _ & Hall).
  destruct (Hall _ _ Hdet) as (casc & Hd).
  destruct (upload_detail_inv _ _ _ _ _ _ _ Hd)
    as (bIndex & ? & hashStr & ? & ? & _ & _ & Hh & _ & _ & _ & _ & _ & Hm & Hc & Hb & _).
  exists hashStr. split; [exact Hh|]. split; [exact Hm|].
  assert (Hpos : 0 < i -> genesis_match server i hashStr = true).
  { intros Hi. destruct i; [lia | reflexivity]. }
  split; [intros Hi; now rewrite Hm, Hpos|].
  split.
  { intros He. rewrite Hm. unfold genesis_match. rewrite He. now destruct i. }
  split.
  { intros gen rest -> He. rewrite Hm. unfold genesis_match. now rewrite He. }
  split.
  { intros Hi. rewrite Hb, Hc. unfold local_checks. rewrite Hm, Hpos by exact Hi.
    now rewrite andb_true_r, !andb_assoc. }
  intros Hfalse. rewrite Hm in Hfalse.
  assert (Hg : genesis_match server i hashStr = false) by congruence.
  assert (Hi : i = 0).
  { destruct i; [reflexivity|]. discriminate. }
  assert (Hbv : blockValid det = false).
  { rewrite Hb. unfold local_checks. rewrite Hm, Hg.
    now rewrite andb_false_r, andb_false_r. }
  split; [exact Hi|]. split; [exact Hbv|].
  intros j dj Hj Hdj. subst i.
  destruct Hcas as (_ & Hafter & _). exact (Hafter 0 j det dj Hj Hdet Hbv Hdj).
Qed.

Lemma matchesServerGenesis_reported_witness :
  Upload.validateChain decimal_literal two_block_chain foreign_upload 1
  = Returns foreign_report
  /\ map matchesServerGenesis (details foreign_report) = [Some false; Some true]
  /\ forall j dj, 0 < j -> nth_error (details foreign_report) j = Some dj ->
       cascaded dj = true /\ blockValid dj = false.
Proof.
  assert (E : Upload.validateChain decimal_literal two_block_chain foreign_upload 1
              = Returns foreign_report) by (vm_compute; reflexivity).
  split; [exact E|]. split; [reflexivity|].
  destruct (matchesServerGenesis_reported _ _ _ _ _ E 0
              (nth 0 (details foreign_report) (mkDetail NaN true true true true None true true))
              eq_refl)
    as (hashStr & _ & _ & _ & _ & _ & _ & Hfail).
  exact (proj2 (proj2 (Hfail eq_refl))).
Defined.

(** The claim C8 fails where it says that a failed genesis match does not by
    itself make the later blocks invalid: the first block of the foreign
    chain passes its four other checks and only differs from the server's
    genesis block, the second block passes every check of its own, and yet
    the second block is reported cascaded and invalid. *)
Lemma foreign_genesis_poisons_chain :
  Upload.validateChain decimal_literal two_block_chain foreign_upload 1
  = Returns foreign_report
  /\ map (fun det => isHashValid det && isPowValid det && isPrevValid det && isIndexValid det)
         (details foreign_report) = [true; true]
  /\ map matchesServerGenesis (details foreign_report) = [Some false; Some true]
  /\ map cascaded (details foreign_report) = [false; true]
  /\ map blockValid (details foreign_report) = [false; false]
  /\ invalidBlockIndices foreign_report = [Int 0; Int 1].
Proof.
  split; [vm_compute; reflexivity|]. repeat split.
Qed.

(** ** Conversions that cannot throw *)

Lemma JsVal_nested_ind (P : JsVal -> Prop) :
  P JUndefined -> P JNull -> (forall b, P (JBool b)) -> (forall n, P (JNum n)) ->
  (forall s, P (JStr s)) ->
  (forall elems, Forall P elems -> P (JArr elems)) ->
  (forall props, Forall (fun kv => P (snd kv)) props -> P (JObj props)) ->
  forall v, P v.
Proof.
  intros Hu Hn Hb Hnum Hs Ha Ho.
  fix IH 1. intros [ | | b | n | s | elems | props].
  - exact Hu.
  - exact Hn.
  - apply Hb.
  - apply Hnum.
  - apply Hs.
  - apply Ha. induction elems as [|x elems IHl]; constructor; [apply IH | exact IHl].
  - apply Ho. induction props as [|kv props IHp]; constructor; [apply IH | exact IHp].
Qed.

Lemma join_with_returns (item : JsVal -> Outcome string) (l : list JsVal) :
  Forall (fun x => exists s, item x = Returns s) l ->
  exists s, Upload.join_with item l = Returns s.
Proof.
  induction 1 as [|x l [s Hx] _ [r IH]].
  - now exists EmptyString.
  - destruct l as [|y l].
    + now exists s.
    + change (Upload.join_with item (x :: y :: l))
        with (s0 <- item x ;; r0 <- Upload.join_with item (y :: l) ;;
              Returns (s0 ++ "," ++ r0)).
      rewrite IH, Hx. simpl. eauto.
Qed.

Lemma js_String_returns (v : JsVal) :
  convertible v = true -> exists s, Upload.js_String v = Returns s.
Proof.
  induction v as [ | | b | n | s | elems IH | props _] using JsVal_nested_ind;
    intros Hc; simpl; eauto.
  - destruct b; eauto.
  - apply join_with_returns. simpl in Hc. rewrite forallb_forall in Hc.
    rewrite Forall_forall in *. intros x Hx.
    specialize (IH x Hx (Hc x Hx)).
    destruct x; eauto.
  - simpl in Hc. destruct (Upload.own_property props "toString"); [discriminate | eauto].
Qed.

Lemma js_Number_returns (StringToNumber : string -> JsNum) (v : JsVal) :
  convertible v = true -> exists n, Upload.js_Number StringToNumber v = Returns n.
Proof.
  intros Hc. destruct v as [ | | b | n | s | elems | props]; simpl; eauto.
  - destruct b; eauto.
  - destruct (js_String_returns (JArr elems) Hc) as [s Hs].
    simpl in Hs. rewrite Hs. simpl. eauto.
  - destruct (js_String_returns (JObj props) Hc) as [s Hs].
    simpl in Hs. rewrite Hs. simpl. eauto.
Qed.


Lemma startsWith_empty_string (d : nat) :
  startsWith EmptyString (targetPrefix d) = Nat.eqb d 0.
Proof. destruct d; reflexivity. Qed.


(** A value that shadows [toString] makes the validator throw. *)
Example shadowed_toString_throws :
  Upload.validateChain decimal_literal two_block_chain shadowed_upload 3 = Throws TypeError.
Proof. vm_compute. reflexivity. Qed.

(** ** Alias keys *)

Lemma num_eqb_NaN_r (n : JsNum) : num_eqb n NaN = false.
Proof. now destruct n. Qed.

(** C9. The alias names are honoured when the record being checked is
    read, but the record before it is read through the canonical keys only:
    a record after one that has no [index] key fails [isIndexValid].  So the
    blocks of a valid chain, written with alias keys only, are reported
    invalid from position 1 on, although the same blocks written with the
    canonical keys are reported valid. *)
Theorem alias_keys_only_for_current_record :
  (forall StringToNumber server c d r k det,
     Upload.validateChain StringToNumber server c d = Returns r ->
     nth_error (details r) (S k) = Some det ->
     Upload.js_get_opt (nth k c JUndefined) "index" = JUndefined ->
     isIndexValid det = false /\ blockValid det = false)
  /\ (forall b,
        read_index (alias_record b) = JNum (index b)
        /\ read_hash (alias_record b) = JStr (hash b)
        /\ read_previousHash (alias_record b) = JStr (previousHash b)
        /\ read_timestamp (alias_record b) = JStr (timestamp b)
        /\ read_nonce (alias_record b) = JNum (nonce b)
        /\ (forall StringToNumber,
              Upload.previous_block StringToNumber (alias_record b)
              = Returns (new_Block NaN EmptyString JUndefined EmptyString)))
  /\ (forall StringToNumber prev prev',
        (forall key, In key ["index"; "timestamp"; "data"; "previousHash"; "nonce"] ->
                     Upload.js_get prev key = Upload.js_get prev' key) ->
        Upload.previous_block StringToNumber prev
        = Upload.previous_block StringToNumber prev')
  /\ (exists r,
        Upload.validateChain decimal_literal three_block_chain canonical_upload 1 = Returns r
        /\ isValid r = true /\ invalidBlockIndices r = [])
  /\ (exists r,
        Upload.validateChain decimal_literal three_block_chain alias_upload 1 = Returns r
        /\ isValid r = false
        /\ invalidBlockIndices r = [Int 1; Int 2]
        /\ map blockValid (details r) = [true; false; false]
        /\ map isHashValid (details r) = [true; true; true]
        /\ map isPowValid (details r) = [true; true; true]
        /\ map isPrevValid (details r) = [true; false; false]
        /\ map isIndexValid (details r) = [true; false; false]).
Proof.
  split; [|split; [|split; [|split]]].
  - intros StringToNumber server c d r k det H Hdet Hmissing.
    destruct (upload_validateChain_details _ _ _ _ _ H) as (_ & _ & Hall).
    destruct (Hall _ _ Hdet) as (casc & Hd).
    destruct (upload_detail_inv _ _ _ _ _ _ _ Hd)
      as (bIndex & ? & ? & ? & ? & _ & _ & _ & _ & _ & _ & _ & _ & _ & _ & Hb & Hi).
    destruct Hi as (prevIndex & prevTemp & Hpi & _ & _ & Hiv).
    rewrite Hmissing in Hpi. simpl in Hpi. inversion Hpi; subst prevIndex.
    simpl in Hiv. rewrite num_eqb_NaN_r in Hiv.
    split; [exact Hiv|].
    rewrite Hb. unfold local_checks. rewrite Hiv.
    now rewrite andb_false_r, andb_false_l, andb_false_r.
  - intros b. repeat split.
  - intros StringToNumber prev prev' Hsame. unfold Upload.previous_block.
    rewrite (Hsame "index"), (Hsame "timestamp"), (Hsame "data"),
      (Hsame "previousHash"), (Hsame "nonce") by (simpl; tauto).
    reflexivity.
  - eexists. split; [vm_compute; reflexivity|]. split; reflexivity.
  - eexists. split; [vm_compute; reflexivity|]. repeat split.
Qed.

(** ** Parsing an uploaded file *)

Section Parsing.
Variable StringToNumber : string -> JsNum.
Variables JSON_parse yaml_load : string -> option JsVal.
Variable split_sections : string -> list string.
Variable trim : string -> string.
Variable match_line : string -> string -> option string.

Let parse : string -> Outcome (list JsVal) :=
  Upload.parseUpChain StringToNumber JSON_parse yaml_load split_sections trim match_line.
Let from_text : string -> list JsVal :=
  Upload.text_blocks StringToNumber JSON_parse split_sections trim match_line.

Lemma parseUpChain_cases (raw : string) :
  parse raw =
  match Upload.try_document (JSON_parse raw), Upload.try_document (yaml_load raw),
        from_text raw with
  | Some blocks, _, _ => Returns blocks
  | None, Some blocks, _ => Returns blocks
  | None, None, [] => Throws MalformedFile
  | None, None, blocks => Returns blocks
  end.
Proof.
  unfold parse, from_text, Upload.parseUpChain.
  destruct (Upload.try_document (JSON_parse raw)); [reflexivity|].
  destruct (Upload.try_document (yaml_load raw)); [reflexivity|].
  now destruct (Upload.text_blocks _ _ _ _ _ raw).
Qed.

End Parsing.

(** C6, as the code has it. [parseUpChain] throws its error exactly when
    the content is neither a JSON nor a YAML document that is an array or
    has an array under [chain], and the text format yields no block.  A
    document that is such an array is returned as it is, whatever its
    elements and even when it is empty; otherwise the blocks of the text
    format are returned. *)
Theorem parseUpChain_outcome (StringToNumber : string -> JsNum)
    (JSON_parse yaml_load : string -> option JsVal)
    (split_sections : string -> list string) (trim : string -> string)
    (match_line : string -> string -> option string) (raw : string) :
  let parse :=
    Upload.parseUpChain StringToNumber JSON_parse yaml_load split_sections trim match_line in
  let from_text :=
    Upload.text_blocks StringToNumber JSON_parse split_sections trim match_line in
  (parse raw = Throws MalformedFile <->
     Upload.try_document (JSON_parse raw) = None
     /\ Upload.try_document (yaml_load raw) = None
     /\ from_text raw = [])
  /\ (forall blocks, JSON_parse raw = Some (JArr blocks) -> parse raw = Returns blocks)
  /\ (forall props blocks,
        JSON_parse raw = Some (JObj props) ->
        Upload.own_property props "chain" = Some (JArr blocks) ->
        parse raw = Returns blocks)
  /\ (forall blocks,
        Upload.try_document (JSON_parse raw) = None ->
        Upload.try_document (yaml_load raw) = Some blocks ->
        parse raw = Returns blocks)
  /\ (Upload.try_document (JSON_parse raw) = None ->
      Upload.try_document (yaml_load raw) = None ->
      from_text raw <> [] ->
      parse raw = Returns (from_text raw))
  /\ parse raw <> Throws TypeError /\ parse raw <> OutOfFuel.
Proof.
  intros parse from_text.
  pose proof (parseUpChain_cases StringToNumber JSON_parse yaml_load split_sections
                trim match_line raw) as E.
  fold parse in E. fold from_text in E.
  split.
  { split.
    - intros H. rewrite E in H.
      destruct (Upload.try_document (JSON_parse raw)); [discriminate|].
      destruct (Upload.try_document (yaml_load raw)); [discriminate|].
      destruct (from_text raw); [now repeat split | discriminate].
    - intros (H1 & H2 & H3). now rewrite E, H1, H2, H3. }
  split.
  { intros blocks H. rewrite E, H. reflexivity. }
  split.
  { intros props blocks H Hc. rewrite E, H. simpl. now rewrite Hc. }
  split.
  { intros blocks H1 H2. now rewrite E, H1, H2. }
  split.
  { intros H1 H2 H3. rewrite E, H1, H2.
    destruct (from_text raw); [congruence | reflexivity]. }
  split; rewrite E;
    (destruct (Upload.try_document (JSON_parse raw)); [discriminate|]);
    (destruct (Upload.try_document (yaml_load raw)); [discriminate|]);
    destruct (from_text raw); discriminate.
Qed.

(** The claim C6 fails on the file content [[]]: no encoding extracts a
    block from it, and yet [parseUpChain] returns (the empty chain) instead
    of throwing. *)
Lemma empty_array_document_accepted :
  brackets_parse "[]" = Some (JArr [])
  /\ extracted (Upload.try_document (brackets_parse "[]")) = 0
  /\ List.length (Upload.text_blocks decimal_literal brackets_parse brackets_split
                    brackets_trim brackets_match "[]") = 0
  /\ Upload.parseUpChain decimal_literal brackets_parse brackets_parse brackets_split
       brackets_trim brackets_match "[]" = Returns []
  /\ Upload.validateChain decimal_literal two_block_chain [] 3 = Returns (mkReport true [] []).
Proof. repeat split. Qed.

(** The empty content is refused: [JSON.parse] throws on it, [yaml.load]
    gives [undefined], and it has no labelled line. *)
Example empty_content_refused :
  Upload.parseUpChain decimal_literal (fun _ => None) (fun _ => Some JUndefined)
    brackets_split brackets_trim brackets_match EmptyString = Throws MalformedFile.
Proof. reflexivity. Qed.

(** ** Tampering *)

Lemma string_app_inv_head (s a b : string) : s ++ a = s ++ b -> a = b.
Proof. induction s as [|c s IH]; simpl; intros H; [exact H | inversion H; auto]. Qed.

Lemma string_app_inv_tail (a b s : string) : a ++ s = b ++ s -> a = b.
Proof.
  revert b. induction a as [|c a IH]; intros [|c' b] H; simpl in H.
  - reflexivity.
  - apply (f_equal String.length) in H. simpl in H.
    rewrite length_string_append in H. lia.
  - apply (f_equal String.length) in H. simpl in H.
    rewrite length_string_append in H. lia.
  - inversion H. f_equal. now apply IH.
Qed.

Lemma to_int_not_nil (z : Z) :
  Z.to_int z <> Decimal.Pos Decimal.Nil /\ Z.to_int z <> Decimal.Neg Decimal.Nil.
Proof.
  destruct z as [|p|p]; simpl; split; try discriminate;
    intros H; inversion H as [Hp]; exact (Unsigned.to_uint_nonnil p Hp).
Qed.

Lemma int_of_num_to_string (z : Z) :
  NilZero.int_of_string (num_to_string (Int z)) = Some (Z.to_int z).
Proof. destruct (to_int_not_nil z). now apply NilZero.isi. Qed.

Lemma num_to_string_inj (a b : JsNum) : num_to_string a = num_to_string b -> a = b.
Proof.
  destruct a as [|x], b as [|y]; intros H.
  - reflexivity.
  - apply (f_equal NilZero.int_of_string) in H.
    rewrite int_of_num_to_string in H. discriminate.
  - apply (f_equal NilZero.int_of_string) in H.
    rewrite int_of_num_to_string in H. discriminate.
  - apply (f_equal NilZero.int_of_string) in H.
    rewrite !int_of_num_to_string in H. inversion H as [Hz].
    now rewrite (to_int_inj _ _ Hz).
Qed.

(** Drops a common leading field and its separator from an equation
    between two hashed strings. *)
Ltac next_field E := apply string_app_inv_head in E; injection E as E.

(** A change of one hashed field changes the string that is hashed; a
    change of the stored hash does not. *)
Lemma tampered_hash_input (b b' : Block) :
  tampered b b' ->
  (hash b' <> hash b /\ hash_input b' = hash_input b)
  \/ (hash b' = hash b /\ hash_input b' <> hash_input b).
Proof.
  intros [v Hv | v Hv | v Hv | v Hv | v Hv | v Hv]; [right | right | right | right | right | left];
    (split; [try reflexivity; try exact Hv|]); try reflexivity;
    unfold hash_input; simpl; intros E; apply Hv.
  - apply string_app_inv_tail in E. now apply num_to_string_inj.
  - next_field E. now apply string_app_inv_tail in E.
  - do 2 next_field E. now apply string_app_inv_tail in E.
  - do 3 next_field E. now apply string_app_inv_tail in E.
  - do 4 next_field E. now apply num_to_string_inj.
Qed.

Lemma valid_chain_hashes (bc : Blockchain) (i : nat) (b : Block) :
  isValid (validateChain bc) = true ->
  nth_error (chain bc) i = Some b ->
  computeHash b = hash b.
Proof.
  intros Hvalid Hb.
  destruct (validateChain_details bc) as (Hinv & Hlen & Hall).
  destruct (loop_inv_Cascading _ Hinv) as (_ & _ & _ & Hv).
  fold (validateChain bc) in Hv. rewrite Hvalid in Hv. symmetry in Hv.
  rewrite forallb_forall in Hv.
  destruct (nth_error (details (validateChain bc)) i) as [det|] eqn:Hdet.
  2:{ apply nth_error_None in Hdet. rewrite Hlen in Hdet.
      assert (i < List.length (chain bc)) by (apply nth_error_Some; congruence). lia. }
  pose proof (Hv det (nth_error_In _ _ Hdet)) as Hbv.
  destruct (Hall _ _ Hdet) as (cur & casc & Hcur & ->).
  rewrite Hb in Hcur. inversion Hcur; subst cur.
  unfold block_detail in Hbv. simpl in Hbv.
  rewrite !andb_true_iff in Hbv. destruct Hbv as ((((_ & Hh) & _) & _) & _).
  now apply String.eqb_eq.
Qed.

Lemma tampered_block_flagged (bc : Blockchain) (i : nat) (b b' : Block) :
  isValid (validateChain bc) = true ->
  nth_error (chain bc) i = Some b ->
  tampered b b' ->
  (hash b' = hash b -> no_collision (hash_input b') (hash_input b)) ->
  exists det,
    nth_error (details (validateChain (with_block bc i b'))) i = Some det
    /\ isHashValid det = false
    /\ forall j dj,
         i < j ->
         nth_error (details (validateChain (with_block bc i b'))) j = Some dj ->
         cascaded dj = true.
Proof.
  intros Hvalid Hb Htam Hsha.
  pose proof (valid_chain_hashes _ _ _ Hvalid Hb) as Hh.
  set (bc' := with_block bc i b').
  destruct (validateChain_details bc') as (Hinv & Hlen & Hall).
  assert (Hb' : nth_error (chain bc') i = Some b').
  { simpl. now rewrite nth_error_replace_nth, Nat.eqb_refl, Hb. }
  destruct (nth_error (details (validateChain bc')) i) as [det|] eqn:Hdet.
  2:{ apply nth_error_None in Hdet. rewrite Hlen in Hdet.
      assert (i < List.length (chain bc')) by (apply nth_error_Some; congruence). lia. }
  exists det. split; [reflexivity|].
  destruct (Hall _ _ Hdet) as (cur & casc & Hcur & Hd).
  rewrite Hb' in Hcur. inversion Hcur; subst cur. clear Hcur.
  assert (Hbad : isHashValid det = false).
  { subst det. unfold block_detail. simpl. apply String.eqb_neq.
    destruct (tampered_hash_input _ _ Htam) as [[Hne Hin] | [Heq Hin]].
    - unfold computeHash. rewrite Hin. fold (computeHash b). now rewrite Hh.
    - rewrite Heq, <- Hh. unfold computeHash. intros E. apply Hin. now apply (Hsha Heq). }
  split; [exact Hbad|].
  intros j dj Hj Hdj.
  destruct (loop_inv_Cascading _ Hinv) as (_ & Hafter & _).
  fold (validateChain bc') in Hafter.
  refine (proj1 (Hafter i j det dj Hj Hdet _ Hdj)).
  destruct Hinv as [_ _ _ Hc]. fold (validateChain bc') in Hc.
  destruct (Hc _ _ Hdet) as [_ Hbv]. rewrite Hbv. unfold local_checks. rewrite Hbad.
  now rewrite andb_false_r.
Qed.

(** A change of the stored hash alone is always detected. *)
Corollary forged_hash_flagged (bc : Blockchain) (i : nat) (b : Block) (h : string) :
  isValid (validateChain bc) = true ->
  nth_error (chain bc) i = Some b ->
  h <> hash b ->
  exists det,
    nth_error (details (validateChain (with_block bc i (set_hash b h)))) i = Some det
    /\ isHashValid det = false
    /\ forall j dj,
         i < j ->
         nth_error (details (validateChain (with_block bc i (set_hash b h)))) j = Some dj ->
         cascaded dj = true.
Proof.
  intros Hvalid Hb Hne.
  apply (tampered_block_flagged bc i b (set_hash b h) Hvalid Hb (tamper_hash b h Hne)).
  simpl. intros E. now elim Hne.
Qed.

(** The claim C3 fails for a change of [data] that [JSON.stringify] does
    not see: [two_block_chain] is produced by the constructor and one
    [addBlock([null])] and is valid; with the data of its block 1 changed
    from [[null]] to [[NaN]] every [isHashValid] is still true and the chain
    is still reported valid. *)
Lemma nan_for_null_undetected :
  (bc <- new_Blockchain 200 1 example_now ;;
   r <- addBlock 200 example_later (JArr [JNull]) bc ;;
   Returns (snd r)) = Returns two_block_chain
  /\ isValid (validateChain two_block_chain) = true
  /\ nth_error (chain two_block_chain) 1 = Some second_block
  /\ data second_block = JArr [JNull]
  /\ nan_block = set_data second_block (JArr [JNum NaN])
  /\ JArr [JNum NaN] <> data second_block
  /\ map isHashValid (details (validateChain (with_block two_block_chain 1 nan_block)))
     = [true; true]
  /\ isValid (validateChain (with_block two_block_chain 1 nan_block)) = true.
Proof.
  split; [vm_compute; reflexivity|].
  split; [vm_compute; reflexivity|].
  split; [reflexivity|]. split; [reflexivity|]. split; [reflexivity|].
  split; [discriminate|].
  split; vm_compute; reflexivity.
Qed.

(** ** Chains the class produces *)

Lemma well_linked_genesis (fuel d : nat) (now : string) (bc : Blockchain) :
  new_Blockchain fuel d now = Returns bc ->
  difficulty bc = d /\ well_linked d (chain bc).
Proof.
  unfold new_Blockchain, creatGenBlock. intros H.
  apply bind_Returns in H as (gen & Hgen & H). inversion H; subst bc; clear H.
  apply proofOfWork_result in Hgen as (Hpow & _ & Hh & Hi & _ & _ & Hp & _).
  split; [reflexivity|].
  intros [|i] b Hb; simpl in Hb.
  - inversion Hb; subst b. now repeat split.
  - destruct i; discriminate.
Qed.

Lemma well_linked_addBlock (fuel : nat) (now : string) (payload : JsVal)
    (bc bc' : Blockchain) (b : Block) :
  well_linked (difficulty bc) (chain bc) ->
  addBlock fuel now payload bc = Returns (b, bc') ->
  difficulty bc' = difficulty bc /\ well_linked (difficulty bc') (chain bc').
Proof.
  intros Hwl Hadd.
  assert (Hmined : exists latest,
             getLastBlock bc = Some latest
             /\ proofOfWork fuel (difficulty bc)
                  (new_Block (num_add (index latest) (Int 1)) now payload (hash latest))
                = Returns b).
  { unfold addBlock in Hadd. destruct (getLastBlock bc) as [latest|]; [|discriminate].
    apply bind_Returns in Hadd as (mined & Hm & Hadd). inversion Hadd; subst.
    now exists latest. }
  destruct Hmined as (latest' & Hl' & Hm).
  apply proofOfWork_result in Hm as (Hpow & _ & Hh & Hi' & _ & _ & Hp' & _).
  destruct (addBlock_result _ _ _ _ _ _ Hadd)
    as (latest & Hlast & Hchain & _ & _ & Hi & Hp & _ & Hd & _).
  split; [exact Hd|]. rewrite Hd, Hchain.
  unfold getLastBlock in Hlast.
  assert (Hlen : 0 < List.length (chain bc)).
  { destruct (chain bc); [discriminate | simpl; lia]. }
  destruct (Hwl _ _ Hlast) as (_ & _ & Hlatest & _).
  intros i x Hx.
  destruct (Nat.lt_ge_cases i (List.length (chain bc))) as [Hlt | Hge].
  - rewrite nth_error_app1 in Hx by exact Hlt.
    destruct (Hwl _ _ Hx) as (H1 & H2 & H3 & H4).
    repeat split; try assumption.
    destruct i as [|k]; [exact H4|].
    destruct H4 as (prev & Hprev & Hph). exists prev. split; [|exact Hph].
    rewrite nth_error_app1; [exact Hprev | lia].
  - rewrite nth_error_app2 in Hx by exact Hge.
    destruct (i - List.length (chain bc)) as [|m] eqn:Em; [|destruct m; discriminate].
    simpl in Hx. inversion Hx; subst x.
    assert (Heq : i = List.length (chain bc)) by lia.
    repeat split; try assumption.
    + rewrite Hi, Hlatest, Heq. simpl. f_equal. lia.
    + destruct i as [|k]; [lia|].
      exists latest. split; [|exact Hp].
      rewrite nth_error_app1 by lia.
      replace k with (List.length (chain bc) - 1) by lia. exact Hlast.
Qed.

Lemma produced_well_linked (d : nat) (bc : Blockchain) :
  produced d bc -> difficulty bc = d /\ well_linked d (chain bc).
Proof.
  induction 1 as [fuel now bc H | fuel now payload bc b bc' _ [Hd IH] Hadd].
  - exact (well_linked_genesis _ _ _ _ H).
  - rewrite <- Hd in IH.
    destruct (well_linked_addBlock _ _ _ _ _ _ IH Hadd) as [Hd' Hwl].
    rewrite Hd' in Hwl. rewrite Hd', Hd in *. now split.
Qed.

Lemma well_linked_detail (d : nat) (c : list Block) (i : nat) (b : Block) :
  well_linked d c ->
  nth_error c i = Some b ->
  local_checks (block_detail d c i b false) = true
  /\ blockValid (block_detail d c i b false) = true.
Proof.
  intros Hwl Hb. destruct (Hwl _ _ Hb) as (Hh & Hpow & Hi & Hlink).
  assert (Hlocal : local_checks (block_detail d c i b false) = true).
  { unfold local_checks, block_detail. simpl.
    rewrite <- Hh, String.eqb_refl, Hpow. simpl.
    destruct i as [|k].
    - rewrite Hlink, Hi. reflexivity.
    - destruct Hlink as (prev & Hprev & Hph).
      simpl Nat.sub. rewrite Nat.sub_0_r, Hprev.
      destruct (Hwl _ _ Hprev) as (Hhp & _ & Hip & _).
      rewrite Hph, Hhp, String.eqb_refl, Hi, Hip.
      unfold num_eqb, num_add.
      replace (Z.of_nat (S k) =? Z.of_nat k + 1)%Z with true
        by (symmetry; apply Z.eqb_eq; lia).
      reflexivity. }
  split; [exact Hlocal|]. now rewrite block_detail_valid, Hlocal.
Qed.

Lemma well_linked_prefix_valid (d : nat) (c : list Block) (n : nat) :
  well_linked d c ->
  n <= List.length c ->
  forallb blockValid
    (details (fst (fold_left (validate_step d c) (seq 0 n) initial_loop_state))) = true.
Proof.
  intros Hwl. induction n as [|n IH]; intros Hn; [reflexivity|].
  rewrite seq_S, fold_left_app. simpl.
  specialize (IH ltac:(lia)).
  destruct (validate_prefix d c n ltac:(lia)) as (Hinv & _ & _).
  set (st := fold_left (validate_step d c) (seq 0 n) initial_loop_state) in *.
  unfold validate_step.
  destruct (nth_error c n) as [cur|] eqn:Hcur.
  2:{ apply nth_error_None in Hcur. lia. }
  assert (Hc : snd st = false) by (now rewrite (inv_flag _ Hinv), IH).
  rewrite Hc, record_detail_details, forallb_app, IH.
  cbn [forallb andb].
  now rewrite (proj2 (well_linked_detail _ _ _ _ Hwl Hcur)).
Qed.

(** Every chain built by the constructor and any number of [addBlock]
    calls is reported valid, with no invalid index. *)
Theorem produced_chain_valid (d : nat) (bc : Blockchain) :
  produced d bc ->
  isValid (validateChain bc) = true /\ invalidBlockIndices (validateChain bc) = [].
Proof.
  intros Hp. destruct (produced_well_linked _ _ Hp) as [Hd Hwl].
  destruct (validateChain_details bc) as (Hinv & _ & _).
  assert (Hall : forallb blockValid (details (validateChain bc)) = true).
  { unfold validateChain. rewrite Hd. now apply well_linked_prefix_valid. }
  destruct Hinv as [_ Hv Hi _].
  fold (validateChain bc) in Hv, Hi.
  split; [now rewrite Hv|].
  rewrite Hi.
  assert (Hnone : forall l, forallb blockValid l = true -> filter invalid l = []).
  { induction l as [|x l IHl]; simpl; [reflexivity|].
    intros H. apply andb_true_iff in H as [Hx Hl]. unfold invalid at 1.
    rewrite Hx. simpl. now apply IHl. }
  now rewrite Hnone.
Qed.

(** ** Further properties of mining *)

Lemma proofOfWork_finds (d k : nat) (b : Block) :
  startsWith (computeHash (set_nonce b (Nat.iter k bump (nonce b))))
             (targetPrefix d) = true ->
  exists b', proofOfWork (S k) d b = Returns b'.
Proof.
  revert b. induction k as [|k IH]; intros b Hok; rewrite proofOfWork_unfold.
  - simpl Nat.iter in Hok. rewrite set_nonce_same in Hok. rewrite Hok. eauto.
  - destruct (startsWith (computeHash b) (targetPrefix d)); [eauto|].
    apply IH. simpl nonce. rewrite computeHash_retry. exact Hok.
Qed.

(** X1. [proofOfWork] returns (for a large enough number of iterations)
    exactly when some number of increments of the block's nonce gives a hash
    with the required prefix. *)
Theorem proofOfWork_returns_iff (d : nat) (b : Block) :
  (exists fuel b', proofOfWork fuel d b = Returns b')
  <-> (exists k, startsWith (computeHash (set_nonce b (Nat.iter k bump (nonce b))))
                            (targetPrefix d) = true).
Proof.
  split.
  - intros (fuel & b' & H).
    destruct (proofOfWork_result _ _ _ _ H)
      as (Hpre & _ & Hh & Hi & Ht & Hd & Hp & k & _ & Hn & _).
    exists k.
    replace (computeHash (set_nonce b (Nat.iter k bump (nonce b)))) with (hash b');
      [exact Hpre|].
    rewrite Hh. apply computeHash_same_fields; simpl; congruence.
  - intros (k & Hk). destruct (proofOfWork_finds _ _ _ Hk) as [b' Hb']. eauto.
Qed.

(** X2. Mining a block that [proofOfWork] has returned changes nothing: the
    first iteration returns the same block. *)
Theorem proofOfWork_idempotent (fuel fuel' d : nat) (b b' : Block) :
  proofOfWork fuel d b = Returns b' ->
  proofOfWork (S fuel') d b' = Returns b'.
Proof.
  intros H. destruct (proofOfWork_result _ _ _ _ H) as (Hpre & _ & Hh & _).
  rewrite proofOfWork_unfold, <- Hh, Hpre. f_equal. now destruct b'.
Qed.

Lemma proofOfWork_idempotent_witness :
  proofOfWork 50 1 fresh_block = Returns (nth 0 (chain two_block_chain) fresh_block)
  /\ proofOfWork 1 1 (nth 0 (chain two_block_chain) fresh_block)
     = Returns (nth 0 (chain two_block_chain) fresh_block).
Proof.
  assert (H : proofOfWork 50 1 fresh_block
              = Returns (nth 0 (chain two_block_chain) fresh_block))
    by (vm_compute; reflexivity).
  split; [exact H | exact (proofOfWork_idempotent 50 0 1 _ _ H)].
Defined.

(** X3. With difficulty 0 the first iteration returns: the hash is set to
    the recomputed hash and the nonce is left as it was. *)
Theorem proofOfWork_zero_difficulty (fuel : nat) (b : Block) :
  proofOfWork (S fuel) 0 b = Returns (set_hash b (computeHash b)).
Proof.
  rewrite proofOfWork_unfold. change (targetPrefix 0) with EmptyString.
  now rewrite startsWith_empty_prefix.
Qed.

(** ** Further properties of the chain *)

(** X4. The constructor, when its mining returns, gives a chain of exactly
    one block: index 0, the given timestamp, the genesis payload,
    previousHash 0, a hash that is the block's own and has the prefix. *)
Theorem new_Blockchain_genesis (fuel d : nat) (now : string) (bc : Blockchain) :
  new_Blockchain fuel d now = Returns bc ->
  difficulty bc = d
  /\ exists gen,
       chain bc = [gen]
       /\ getLastBlock bc = Some gen
       /\ index gen = Int 0
       /\ timestamp gen = now
       /\ data gen = genesis_data
       /\ previousHash gen = "0"
       /\ hash gen = computeHash gen
       /\ startsWith (hash gen) (targetPrefix d) = true.
Proof.
  unfold new_Blockchain, creatGenBlock. intros H.
  apply bind_Returns in H as (gen & Hgen & H). inversion H; subst bc; clear H.
  apply proofOfWork_result in Hgen as (Hpow & _ & Hh & Hi & Ht & Hd & Hp & _).
  split; [reflexivity|]. exists gen. now repeat split.
Qed.

Lemma new_Blockchain_genesis_witness :
  new_Blockchain 200 1 example_now = Returns genesis_only_chain
  /\ difficulty genesis_only_chain = 1.
Proof.
  assert (H : new_Blockchain 200 1 example_now = Returns genesis_only_chain)
    by (vm_compute; reflexivity).
  split; [exact H | exact (proj1 (new_Blockchain_genesis _ _ _ _ H))].
Defined.

Lemma produced_example : produced 1 two_block_chain.
Proof.
  apply (produced_add 1 200 example_later (JArr [JNull]) genesis_only_chain second_block).
  - apply (produced_new 1 200 example_now). vm_compute. reflexivity.
  - vm_compute. reflexivity.
Defined.

(** X5. In every chain built by the constructor and [addBlock] calls, the
    block at position [i] has index [i], carries its own hash with the
    prefix of the chain's difficulty, and its previousHash is the hash of
    the block before it (0 for the first block). *)
Theorem produced_chain_linked (d : nat) (bc : Blockchain) :
  produced d bc ->
  difficulty bc = d
  /\ chain bc <> []
  /\ forall i b,
       nth_error (chain bc) i = Some b ->
       index b = Int (Z.of_nat i)
       /\ hash b = computeHash b
       /\ startsWith (hash b) (targetPrefix d) = true
       /\ match i with
          | O => previousHash b = "0"
          | S k => exists prev, nth_error (chain bc) k = Some prev
                                /\ previousHash b = hash prev
          end.
Proof.
  intros Hp. destruct (produced_well_linked _ _ Hp) as [Hd Hwl].
  split; [exact Hd|]. split.
  - destruct Hp as [fuel now bc H | fuel now payload bc b bc' _ Hadd].
    + unfold new_Blockchain in H. apply bind_Returns in H as (gen & _ & H).
      inversion H. discriminate.
    + destruct (addBlock_result _ _ _ _ _ _ Hadd) as (_ & _ & Hc & _).
      rewrite Hc. now destruct (chain bc).
  - intros i b Hb. destruct (Hwl _ _ Hb) as (H1 & H2 & H3 & H4). now repeat split.
Qed.

Lemma produced_chain_linked_witness :
  difficulty two_block_chain = 1 /\ chain two_block_chain <> [].
Proof.
  destruct (produced_chain_linked 1 two_block_chain produced_example) as (H1 & H2 & _).
  split; [exact H1 | exact H2].
Defined.

(** X7. Every chain built by the constructor and any number of [addBlock]
    calls is reported valid by [validateChain], with no invalid index. *)
Theorem produced_chain_reported_valid (d : nat) (bc : Blockchain) :
  produced d bc ->
  isValid (validateChain bc) = true
  /\ invalidBlockIndices (validateChain bc) = []
  /\ forall det, In det (details (validateChain bc)) ->
       blockValid det = true /\ cascaded det = false.
Proof.
  intros Hp. destruct (produced_well_linked _ _ Hp) as [Hd Hwl].
  destruct (validateChain_details bc) as (Hinv & _ & _).
  assert (Hall : forallb blockValid (details (validateChain bc)) = true).
  { unfold validateChain. rewrite Hd. now apply well_linked_prefix_valid. }
  destruct Hinv as [_ Hv Hi Hc].
  fold (validateChain bc) in Hv, Hi, Hc.
  split; [now rewrite Hv|]. split.
  - rewrite Hi. clear - Hall. induction (details (validateChain bc)) as [|x l IHl];
      simpl in *; [reflexivity|].
    apply andb_true_iff in Hall as [Hx Hl]. unfold invalid at 1. rewrite Hx. simpl. auto.
  - intros det Hin. rewrite forallb_forall in Hall. split; [now apply Hall|].
    destruct (In_nth_error _ _ Hin) as [j Hj].
    destruct (Hc _ _ Hj) as [_ Hb]. rewrite (Hall _ Hin) in Hb.
    destruct (cascaded det); [discriminate | reflexivity].
Qed.

Lemma produced_chain_reported_valid_witness :
  isValid (validateChain two_block_chain) = true.
Proof.
  exact (proj1 (produced_chain_reported_valid 1 two_block_chain produced_example)).
Defined.

(** ** The shape of a report *)

Lemma all_invalid_map (l : list Detail) :
  (forall x, In x l -> blockValid x = false) ->
  map blockValid l = repeat false (List.length l) /\ filter invalid l = l.
Proof.
  induction l as [|x l IH]; intros H; [now split|].
  destruct IH as [IH1 IH2]; [intros y Hy; apply H; now right|].
  simpl. unfold invalid at 1. rewrite (H x) by now left. simpl.
  now rewrite IH1, IH2.
Qed.

Lemma invalid_suffix_shape (l : list Detail) :
  (forall k j dk dj,
     k < j -> nth_error l k = Some dk -> blockValid dk = false ->
     nth_error l j = Some dj -> blockValid dj = false) ->
  first_invalid l <= List.length l
  /\ map blockValid l
     = (repeat true (first_invalid l)
        ++ repeat false (List.length l - first_invalid l))%list
  /\ filter invalid l = skipn (first_invalid l) l
  /\ (forallb blockValid l = true <-> first_invalid l = List.length l).
Proof.
  induction l as [|x l IH]; intros H.
  - simpl. repeat split; auto.
  - simpl. destruct (blockValid x) eqn:Ex.
    + destruct IH as (I1 & I2 & I3 & I4).
      { intros k j dk dj Hkj Hk Hb Hj. apply (H (S k) (S j) dk dj); auto. lia. }
      unfold invalid at 1. rewrite Ex. simpl.
      repeat split; try lia.
      * now rewrite I2.
      * exact I3.
      * intros Hall. f_equal. now apply I4.
      * intros Hfi. apply I4. lia.
    + assert (Hall : forall y, In y l -> blockValid y = false).
      { intros y Hy. destruct (In_nth_error _ _ Hy) as [j Hj].
        apply (H 0 (S j) x y); auto. lia. }
      destruct (all_invalid_map l Hall) as [M F].
      unfold invalid at 1. rewrite Ex. simpl. rewrite M, F.
      repeat split; try lia; try discriminate.
Qed.

Lemma Cascading_Suffix_invalid (r : Report) : Cascading r -> Suffix_invalid r.
Proof.
  intros (_ & Hafter & Hidx & Hvalid).
  destruct (invalid_suffix_shape (details r)) as (I1 & I2 & I3 & I4).
  { intros k j dk dj Hkj Hk Hb Hj. exact (proj2 (Hafter k j dk dj Hkj Hk Hb Hj)). }
  unfold Suffix_invalid. cbv zeta.
  split; [exact I1|]. split; [exact I2|].
  assert (Hi : invalidBlockIndices r = map d_index (skipn (first_invalid (details r)) (details r)))
    by now rewrite Hidx, I3.
  split; [exact Hi|].
  assert (Hiff : isValid r = true <-> first_invalid (details r) = List.length (details r))
    by now rewrite Hvalid.
  split; [|exact Hiff].
  rewrite Hiff, Hi. split.
  - intros ->. now rewrite skipn_all.
  - intros Hnil. apply map_eq_nil in Hnil.
    apply (f_equal (@List.length Detail)) in Hnil. rewrite length_skipn in Hnil.
    simpl in Hnil. lia.
Qed.

(** X8. In the report of either validator the details are valid up to some
    position and invalid from it on; [invalidBlockIndices] is the list of
    the indices of the details from that position on; and [isValid] is true
    exactly when [invalidBlockIndices] is empty. *)
Theorem report_invalid_suffix :
  (forall bc : Blockchain, Suffix_invalid (validateChain bc))
  /\ (forall StringToNumber server c d r,
        Upload.validateChain StringToNumber server c d = Returns r ->
        Suffix_invalid r).
Proof.
  split.
  - intros bc. apply Cascading_Suffix_invalid.
    destruct (validateChain_details bc) as (Hinv & _).
    exact (loop_inv_Cascading _ Hinv).
  - intros StringToNumber server c d r H. apply Cascading_Suffix_invalid.
    exact (proj1 (upload_validateChain_details _ _ _ _ _ H)).
Qed.

Lemma report_invalid_suffix_witness :
  first_invalid (details (validateChain forged_chain)) = 1
  /\ Suffix_invalid (validateChain forged_chain)
  /\ Suffix_invalid foreign_report.
Proof.
  split; [vm_compute; reflexivity|].
  split; [exact (proj1 report_invalid_suffix forged_chain)|].
  assert (E : Upload.validateChain decimal_literal two_block_chain foreign_upload 1
              = Returns foreign_report) by (vm_compute; reflexivity).
  exact (proj2 report_invalid_suffix _ _ _ _ _ E).
Defined.

(** ** Validation and appending *)

Lemma fold_left_ext_in {A B : Type} (f g : A -> B -> A) (l : list B) (a : A) :
  (forall x y, In y l -> f x y = g x y) -> fold_left f l a = fold_left g l a.
Proof.
  revert a. induction l as [|y l IH]; intros a H; [reflexivity|].
  simpl. rewrite (H a y) by now left. apply IH. intros x z Hz. apply H. now right.
Qed.

Lemma validate_step_app (d : nat) (c extra : list Block) (st : LoopState) (i : nat) :
  i < List.length c ->
  validate_step d (c ++ extra) st i = validate_step d c st i.
Proof.
  intros Hi. unfold validate_step. rewrite nth_error_app1 by exact Hi.
  destruct (nth_error c i) as [cur|]; [|reflexivity].
  apply (f_equal (record_detail st)). unfold block_detail.
  destruct i as [|k]; [reflexivity|].
  simpl Nat.sub. rewrite Nat.sub_0_r.
  now rewrite (nth_error_app1 c extra (n := k)) by lia.
Qed.

Lemma validate_fold_extends (d : nat) (c : list Block) (ps : list nat) (st : LoopState) :
  exists more,
    details (fst (fold_left (validate_step d c) ps st)) = (details (fst st) ++ more)%list.
Proof.
  revert st. induction ps as [|i ps IH]; intros st; simpl.
  - exists []. now rewrite app_nil_r.
  - destruct (IH (validate_step d c st i)) as [more Hm]. rewrite Hm.
    unfold validate_step. destruct (nth_error c i) as [cur|]; [|now exists more].
    rewrite record_detail_details, <- app_assoc. eauto.
Qed.

Lemma validate_prefix_state (d : nat) (c extra : list Block) :
  fold_left (validate_step d (c ++ extra)) (seq 0 (List.length c)) initial_loop_state
  = fold_left (validate_step d c) (seq 0 (List.length c)) initial_loop_state.
Proof.
  apply fold_left_ext_in. intros st i Hi. apply validate_step_app.
  apply in_seq in Hi. lia.
Qed.

(** X9. Blocks added at the end of a chain do not change what validation
    reports for the blocks before them: the details of the longer chain
    start with the details of the shorter one. *)
Theorem validation_prefix_stable (d : nat) (c extra : list Block) :
  firstn (List.length c) (details (validateChain (mkBlockchain d (c ++ extra))))
  = details (validateChain (mkBlockchain d c))
  /\ (isValid (validateChain (mkBlockchain d (c ++ extra))) = true ->
      isValid (validateChain (mkBlockchain d c)) = true).
Proof.
  assert (Hfirst : firstn (List.length c)
                     (details (validateChain (mkBlockchain d (c ++ extra))))
                   = details (validateChain (mkBlockchain d c))).
  { unfold validateChain. simpl chain. simpl difficulty.
    rewrite length_app, seq_app, fold_left_app, validate_prefix_state. simpl.
    destruct (validate_prefix d c (List.length c) (le_n _)) as (_ & Hlen & _).
    set (st := fold_left (validate_step d c) (seq 0 (List.length c)) initial_loop_state) in *.
    destruct (validate_fold_extends d (c ++ extra)
                (seq (List.length c) (List.length extra)) st) as [more Hm].
    rewrite Hm. rewrite <- Hlen at 1. rewrite firstn_app, firstn_all, Nat.sub_diag.
    simpl. now rewrite app_nil_r. }
  split; [exact Hfirst|].
  intros Hv.
  destruct (validateChain_details (mkBlockchain d (c ++ extra))) as (Hi1 & _).
  destruct (validateChain_details (mkBlockchain d c)) as (Hi2 & _).
  destruct (loop_inv_Cascading _ Hi1) as (_ & _ & _ & Hv1).
  destruct (loop_inv_Cascading _ Hi2) as (_ & _ & _ & Hv2).
  fold (validateChain (mkBlockchain d (c ++ extra))) in Hv1.
  fold (validateChain (mkBlockchain d c)) in Hv2.
  rewrite Hv2, <- Hfirst. rewrite Hv1 in Hv.
  rewrite forallb_forall in *. intros x Hx. apply Hv.
  rewrite <- (firstn_skipn (List.length c)). apply in_or_app. now left.
Qed.

(** X10. After [addBlock] returns, validation reports the former blocks as
    before and adds one detail for the new block: its hash and
    proof-of-work checks pass, its index check passes when the former last
    block's index is a number, its previous-hash check passes exactly when
    the former last block's stored hash is that block's recomputed hash, and
    it is flagged cascaded exactly when the former chain was not valid. *)
Theorem addBlock_then_validate (fuel : nat) (now : string) (payload : JsVal)
    (bc bc' : Blockchain) (b : Block) :
  addBlock fuel now payload bc = Returns (b, bc') ->
  exists latest det,
    getLastBlock bc = Some latest
    /\ details (validateChain bc') = (details (validateChain bc) ++ [det])%list
    /\ d_index det = index b
    /\ isHashValid det = true
    /\ isPowValid det = true
    /\ isIndexValid det = is_number (index latest)
    /\ isPrevValid det = String.eqb (hash latest) (computeHash latest)
    /\ cascaded det = negb (isValid (validateChain bc)).
Proof.
  intros Hadd.
  assert (Hmined : exists latest,
             getLastBlock bc = Some latest
             /\ proofOfWork fuel (difficulty bc)
                  (new_Block (num_add (index latest) (Int 1)) now payload (hash latest))
                = Returns b).
  { unfold addBlock in Hadd. destruct (getLastBlock bc) as [latest|]; [|discriminate].
    apply bind_Returns in Hadd as (mined & Hm & Hadd). inversion Hadd; subst.
    now exists latest. }
  destruct Hmined as (latest & Hlast & Hm).
  apply proofOfWork_result in Hm as (Hpow & _ & Hh & Hi & _ & _ & Hp & _).
  simpl in Hi, Hp.
  destruct (addBlock_result _ _ _ _ _ _ Hadd) as (latest' & Hlast' & Hchain & _ & _ & _ & _ & _ & Hd & _).
  rewrite Hlast in Hlast'. inversion Hlast'; subst latest'. clear Hlast'.
  set (c := chain bc) in *. set (d := difficulty bc) in *.
  assert (Hlen : 0 < List.length c).
  { unfold getLastBlock in Hlast. fold c in Hlast. destruct c; [discriminate | simpl; lia]. }
  destruct (validate_prefix d c (List.length c) (le_n _)) as (Hinv & Hlen' & _).
  remember (fold_left (validate_step d c) (seq 0 (List.length c)) initial_loop_state)
    as st eqn:Est.
  assert (Hold : details (validateChain bc) = details (fst st)) by now rewrite Est.
  assert (Hflag : snd st = negb (isValid (validateChain bc))).
  { rewrite (inv_flag _ Hinv). f_equal. symmetry.
    destruct (validateChain_details bc) as (Hinv' & _).
    rewrite <- Hold. exact (inv_isValid _ Hinv'). }
  assert (Hnew : details (validateChain bc')
                 = (details (validateChain bc) ++
                    [block_detail d (c ++ [b]) (List.length c) b (snd st)])%list).
  { rewrite Hold. unfold validateChain. rewrite Hd, Hchain. fold c d.
    rewrite length_app. cbn [List.length].
    replace (List.length c + 1) with (S (List.length c)) by lia.
    rewrite seq_S, fold_left_app, validate_prefix_state, <- Est.
    cbn [fold_left Nat.add]. unfold validate_step.
    rewrite nth_error_app2 by lia. rewrite Nat.sub_diag. cbn [nth_error].
    now rewrite record_detail_details. }
  assert (Hprev : nth_error (c ++ [b]) (List.length c - 1) = Some latest).
  { rewrite nth_error_app1 by lia. exact Hlast. }
  exists latest, (block_detail d (c ++ [b]) (List.length c) b (snd st)).
  split; [exact Hlast|]. split; [exact Hnew|].
  clear Hnew Est Hold Hinv Hlen'.
  destruct (List.length c) as [|n]; [lia|].
  simpl Nat.sub in Hprev. rewrite Nat.sub_0_r in Hprev.
  unfold block_detail. simpl Nat.sub. rewrite Nat.sub_0_r, Hprev. simpl.
  repeat split.
  - rewrite Hh. apply String.eqb_refl.
  - exact Hpow.
  - rewrite Hi. destruct (index latest) as [|z]; simpl; [reflexivity | apply Z.eqb_refl].
  - now rewrite Hp.
  - exact Hflag.
Qed.

Lemma addBlock_then_validate_witness :
  exists det,
    details (validateChain two_block_chain)
    = (details (validateChain genesis_only_chain) ++ [det])%list
    /\ isPrevValid det = true /\ cascaded det = false.
Proof.
  assert (E : addBlock 200 example_later (JArr [JNull]) genesis_only_chain
              = Returns (second_block, two_block_chain))
    by (vm_compute; reflexivity).
  destruct (addBlock_then_validate _ _ _ _ _ _ E)
    as (latest & det & Hl & Hd & _ & _ & _ & _ & Hp & Hc).
  exists det. split; [exact Hd|].
  assert (Hlatest : latest = nth 0 (chain genesis_only_chain) fresh_block).
  { vm_compute in Hl. now inversion Hl. }
  split.
  - rewrite Hp, Hlatest. vm_compute. reflexivity.
  - rewrite Hc. vm_compute. reflexivity.
Defined.

(** ** When the upload validator throws *)

Lemma guarded_bind {A B : Type} (ok1 ok2 : bool) (m : Outcome A) (k : A -> Outcome B) :
  guarded ok1 m -> (forall a, guarded ok2 (k a)) -> guarded (ok1 && ok2) (bind m k).
Proof.
  intros [a Ha] Hk. destruct (Hk a) as [b Hb]. rewrite Ha.
  destruct ok1; simpl; [now exists b | now exists b].
Qed.

Lemma guarded_Returns {A : Type} (a : A) : guarded true (Returns a).
Proof. now exists a. Qed.

Lemma join_with_guarded (item : JsVal -> Outcome string) (ok : JsVal -> bool)
    (l : list JsVal) :
  Forall (fun x => guarded (ok x) (item x)) l ->
  guarded (forallb ok l) (Upload.join_with item l).
Proof.
  induction 1 as [|x l Hx _ IH].
  - apply guarded_Returns.
  - destruct l as [|y l].
    + simpl. now rewrite andb_true_r.
    + change (Upload.join_with item (x :: y :: l))
        with (s0 <- item x ;; r0 <- Upload.join_with item (y :: l) ;;
              Returns (s0 ++ "," ++ r0)).
      change (forallb ok (x :: y :: l)) with (ok x && forallb ok (y :: l)).
      apply guarded_bind; [exact Hx|]. intros s0.
      rewrite <- (andb_true_r (forallb ok (y :: l))).
      apply guarded_bind; [exact IH|]. intros r0. apply guarded_Returns.
Qed.

(** [String(v)] returns when [v] is convertible and throws a [TypeError]
    otherwise. *)
Lemma js_String_guarded (v : JsVal) : guarded (convertible v) (Upload.js_String v).
Proof.
  induction v as [ | | b | n | s | elems IH | props _] using JsVal_nested_ind;
    simpl; try apply guarded_Returns.
  - destruct b; apply guarded_Returns.
  - apply join_with_guarded. rewrite Forall_forall in *. intros x Hx.
    specialize (IH x Hx). destruct x; try apply guarded_Returns; exact IH.
  - destruct (Upload.own_property props "toString").
    + now exists EmptyString.
    + apply guarded_Returns.
Qed.

Lemma js_Number_guarded (StringToNumber : string -> JsNum) (v : JsVal) :
  guarded (convertible v) (Upload.js_Number StringToNumber v).
Proof.
  destruct v as [ | | b | n | s | elems | props]; try apply guarded_Returns.
  - destruct b; apply guarded_Returns.
  - unfold Upload.js_Number. rewrite <- (andb_true_r (convertible (JArr elems))).
    apply guarded_bind; [apply js_String_guarded | intros; apply guarded_Returns].
  - unfold Upload.js_Number. rewrite <- (andb_true_r (convertible (JObj props))).
    apply guarded_bind; [apply js_String_guarded | intros; apply guarded_Returns].
Qed.

Section UploadOutcome.
Variable StringToNumber : string -> JsNum.
Variable server : Blockchain.
Variable d : nat.
Variable c : list JsVal.

Lemma previous_block_guarded (prev : JsVal) :
  guarded
    (forallb convertible
       [ Upload.js_get prev "index";
         Upload.coalesce (Upload.js_get prev "timestamp") (JStr EmptyString);
         Upload.coalesce (Upload.js_get prev "previousHash") (JStr EmptyString);
         Upload.coalesce (Upload.js_get prev "nonce") (JNum (Int 0)) ])
    (Upload.previous_block StringToNumber prev).
Proof.
  unfold Upload.previous_block. cbn [forallb].
  apply guarded_bind; [apply js_Number_guarded|]. intros pIndex.
  apply guarded_bind; [apply js_String_guarded|]. intros pTs.
  apply guarded_bind; [apply js_String_guarded|]. intros pPrev.
  apply guarded_bind; [apply js_Number_guarded|]. intros pNonce.
  apply guarded_Returns.
Qed.

Lemma upload_detail_guarded (i : nat) (casc : bool) :
  guarded (converts_at c i) (Upload.upload_detail StringToNumber server d c i casc).
Proof.
  unfold converts_at, conversions, Upload.upload_detail.
  fold (current_record c i).
  rewrite forallb_app. cbn [forallb].
  rewrite <- !andb_assoc. rewrite andb_true_l.
  apply guarded_bind; [apply js_Number_guarded|]. intros bIndex.
  apply guarded_bind; [apply js_String_guarded|]. intros prevHashStr.
  apply guarded_bind; [apply js_String_guarded|]. intros hashStr.
  apply guarded_bind; [apply js_String_guarded|]. intros timestampStr.
  apply guarded_bind; [apply js_Number_guarded|]. intros nonceNum.
  destruct i as [|k].
  - simpl. apply guarded_Returns.
  - cbn [Nat.eqb]. simpl Nat.sub. rewrite Nat.sub_0_r.
    fold (current_record c k).
    apply guarded_bind; [apply js_Number_guarded|]. intros prevIndex.
    match goal with |- guarded ?g _ => rewrite <- (andb_true_r g) end.
    apply guarded_bind; [|intros; apply guarded_Returns].
    match goal with |- guarded ?g _ => rewrite <- (andb_true_r g) end.
    apply guarded_bind; [|intros; apply guarded_Returns].
    exact (previous_block_guarded (current_record c k)).
Qed.

Lemma for_each_guarded (positions : list nat) (st : LoopState) :
  guarded (forallb (converts_at c) positions)
    (Upload.for_each (Upload.validate_step StringToNumber server d c) positions st).
Proof.
  revert st. induction positions as [|i positions IH]; intros st.
  - apply guarded_Returns.
  - cbn [Upload.for_each forallb].
    apply guarded_bind; [|intros; apply IH].
    unfold Upload.validate_step. rewrite <- (andb_true_r (converts_at c i)).
    apply guarded_bind; [apply upload_detail_guarded | intros; apply guarded_Returns].
Qed.

End UploadOutcome.

Lemma upload_validateChain_guarded (StringToNumber : string -> JsNum)
    (server : Blockchain) (c : list JsVal) (d : nat) :
  guarded (converts_all c) (Upload.validateChain StringToNumber server c d).
Proof.
  unfold Upload.validateChain, converts_all.
  rewrite <- (andb_true_r (forallb _ _)).
  apply guarded_bind; [apply for_each_guarded | intros; apply guarded_Returns].
Qed.

(** ** Records that are not objects *)

Lemma js_get_non_object (v : JsVal) (key : string) :
  is_object v = false -> Upload.js_get (Upload.or_empty_object v) key = JUndefined.
Proof.
  intros H. unfold Upload.or_empty_object.
  destruct (Upload.truthy v); [|reflexivity]. now destruct v.
Qed.

Lemma eqb_empty_hex (s : string) : String.eqb EmptyString (Sha256.hex s) = false.
Proof. rewrite String.eqb_sym. apply hex_not_empty. Qed.

(** X12. An element of an upload that is not an object (null, a number, a
    string, an array) is checked as a record without any field: its detail
    has index [NaN] and fails the hash, previous-hash and index checks, so
    the block is reported invalid; its proof-of-work check passes only at
    difficulty 0. *)
Theorem non_object_record_invalid (StringToNumber : string -> JsNum)
    (server : Blockchain) (c : list JsVal) (d : nat) (r : Report)
    (i : nat) (v : JsVal) (det : Detail) :
  Upload.validateChain StringToNumber server c d = Returns r ->
  nth_error c i = Some v ->
  is_object v = false ->
  nth_error (details r) i = Some det ->
  d_index det = NaN
  /\ isHashValid det = false
  /\ isPrevValid det = false
  /\ isIndexValid det = false
  /\ isPowValid det = Nat.eqb d 0
  /\ blockValid det = false.
Proof.
  intros H Hv Hobj Hdet.
  destruct (upload_validateChain_details _ _ _ _ _ H) as (_ & _ & Hall).
  destruct (Hall _ _ Hdet) as (casc & Hd).
  destruct (upload_detail_inv _ _ _ _ _ _ _ Hd)
    as (bIndex & prevHashStr & hashStr & timestampStr & nonceNum
        & H1 & H2 & H3 & _ & _ & Hidx & Hhv & Hpv & _ & _ & Hbv & Hrest).
  assert (Hraw : forall key, Upload.js_get (current_record c i) key = JUndefined).
  { intros key. unfold current_record. rewrite (nth_error_nth _ _ _ Hv).
    now apply js_get_non_object. }
  unfold read_index in H1. unfold read_previousHash in H2. unfold read_hash in H3.
  repeat rewrite Hraw in H1. repeat rewrite Hraw in H2. repeat rewrite Hraw in H3.
  simpl in H1, H2, H3.
  injection H1 as E1. injection H2 as E2. injection H3 as E3.
  subst bIndex prevHashStr hashStr.
  assert (Hh : isHashValid det = false) by (rewrite Hhv; apply hex_not_empty).
  assert (Hp : isPrevValid det = false).
  { destruct i as [|k].
    - destruct Hrest as [Hp _]. now rewrite Hp.
    - destruct Hrest as (prevIndex & prevTemp & _ & _ & Hp & _).
      rewrite Hp. apply eqb_empty_hex. }
  assert (Hi : isIndexValid det = false).
  { destruct i as [|k].
    - destruct Hrest as [_ Hi]. now rewrite Hi.
    - destruct Hrest as (prevIndex & prevTemp & _ & _ & _ & Hi). now rewrite Hi. }
  repeat split; try assumption.
  - rewrite Hpv. apply startsWith_empty_string.
  - rewrite Hbv. unfold local_checks. rewrite Hh. now rewrite andb_false_r.
Qed.

Lemma non_object_record_invalid_witness :
  exists r,
    Upload.validateChain decimal_literal two_block_chain [JNull; JNum (Int 7)] 3 = Returns r
    /\ map d_index (details r) = [NaN; NaN]
    /\ map blockValid (details r) = [false; false].
Proof.
  assert (E : Upload.validateChain decimal_literal two_block_chain [JNull; JNum (Int 7)] 3
              = Returns (report_or_empty
                           (Upload.validateChain decimal_literal two_block_chain
                              [JNull; JNum (Int 7)] 3)))
    by (vm_compute; reflexivity).
  eexists. split; [exact E|].
  destruct (details (report_or_empty _)) as [|d0 [|d1 [|d2 rest]]] eqn:Ed;
    try (vm_compute in Ed; discriminate).
  assert (H0 : nth_error (details (report_or_empty
                 (Upload.validateChain decimal_literal two_block_chain
                    [JNull; JNum (Int 7)] 3))) 0 = Some d0) by now rewrite Ed.
  assert (H1 : nth_error (details (report_or_empty
                 (Upload.validateChain decimal_literal two_block_chain
                    [JNull; JNum (Int 7)] 3))) 1 = Some d1) by now rewrite Ed.
  destruct (non_object_record_invalid _ _ _ _ _ 0 JNull d0 E eq_refl eq_refl H0)
    as (A0 & _ & _ & _ & _ & B0).
  destruct (non_object_record_invalid _ _ _ _ _ 1 (JNum (Int 7)) d1 E eq_refl eq_refl H1)
    as (A1 & _ & _ & _ & _ & B1).
  simpl. now rewrite A0, A1, B0, B1.
Defined.

(** ** Files in the text format *)

Lemma text_block_shaped (StringToNumber : string -> JsNum)
    (JSON_parse : string -> option JsVal) (trim : string -> string)
    (match_line : string -> string -> option string) (section : string) (b : JsVal) :
  Upload.text_block StringToNumber JSON_parse trim match_line section = Some b ->
  text_shaped b.
Proof.
  unfold Upload.text_block.
  destruct (String.eqb (trim section) EmptyString); [discriminate|].
  destruct (option_map trim (match_line "Index" (trim section))) as [indexStr|];
    [|discriminate].
  destruct (option_map trim (match_line "Nonce" (trim section))) as [nonceStr|];
    [|discriminate].
  intros H. inversion H. unfold text_shaped. eauto 10.
Qed.

Lemma text_blocks_shaped (StringToNumber : string -> JsNum)
    (JSON_parse : string -> option JsVal) (split_sections : string -> list string)
    (trim : string -> string) (match_line : string -> string -> option string)
    (raw : string) :
  Forall text_shaped
    (Upload.text_blocks StringToNumber JSON_parse split_sections trim match_line raw).
Proof.
  unfold Upload.text_blocks. induction (split_sections raw) as [|section l IH]; simpl.
  - constructor.
  - destruct (Upload.text_block _ _ _ _ section) as [b|] eqn:E; [|exact IH].
    simpl. constructor; [exact (text_block_shaped _ _ _ _ _ _ E) | exact IH].
Qed.

Lemma text_shaped_nth (c : list JsVal) (i : nat) :
  Forall text_shaped c -> i < List.length c -> text_shaped (nth i c JUndefined).
Proof.
  intros H Hi. rewrite Forall_forall in H. apply H. now apply nth_In.
Qed.

Lemma text_shaped_converts (c : list JsVal) :
  Forall text_shaped c -> converts_all c = true.
Proof.
  intros H. unfold converts_all. apply forallb_forall. intros i Hi.
  apply in_seq in Hi.
  destruct (text_shaped_nth c i H ltac:(lia)) as (x & ts & ph & h & dv & n & E).
  unfold converts_at, conversions, current_record.
  destruct i as [|k].
  - rewrite E. destruct ts, ph, h; reflexivity.
  - destruct (text_shaped_nth c k H ltac:(lia)) as (x' & ts' & ph' & h' & dv' & n' & E').
    rewrite E, E'. destruct ts, ph, h, ts', ph'; reflexivity.
Qed.

(** ** Uploading the records of a chain *)

Section Reupload.
Variable StringToNumber : string -> JsNum.
Variable server : Blockchain.
Variable d : nat.
Variable blocks : list Block.

Lemma nth_block_record (i : nat) (b : Block) :
  nth_error blocks i = Some b ->
  nth i (map block_record blocks) JUndefined = block_record b.
Proof.
  intros H. apply nth_error_nth. now apply map_nth_error.
Qed.

Lemma previous_block_record (prev : Block) :
  Upload.previous_block StringToNumber (block_record prev)
  = Returns (set_nonce (new_Block (index prev) (timestamp prev) (data prev)
                                  (previousHash prev)) (nonce prev)).
Proof. reflexivity. Qed.

Lemma computeHash_rebuilt (b : Block) (v : JsVal) :
  computeHash (set_nonce (new_Block (index b) (timestamp b) v (previousHash b)) (nonce b))
  = computeHash (set_data b v).
Proof. apply computeHash_same_fields; reflexivity. Qed.

Lemma set_data_same (b : Block) : set_data b (data b) = b.
Proof. now destruct b. Qed.

Lemma current_block_record (i : nat) (b : Block) :
  nth_error blocks i = Some b ->
  current_record (map block_record blocks) i = block_record b.
Proof. intros H. unfold current_record. now rewrite (nth_block_record _ _ H). Qed.

Lemma block_records_convert (i : nat) :
  i < List.length blocks -> converts_at (map block_record blocks) i = true.
Proof.
  intros Hi. unfold converts_at, conversions.
  destruct (nth_error blocks i) as [b|] eqn:Hb.
  2:{ apply nth_error_None in Hb. lia. }
  rewrite (current_block_record _ _ Hb).
  destruct i as [|k]; [reflexivity|].
  destruct (nth_error blocks k) as [prev|] eqn:Hprev.
  2:{ apply nth_error_None in Hprev. lia. }
  rewrite (current_block_record _ _ Hprev), (nth_block_record _ _ Hprev).
  reflexivity.
Qed.

Lemma upload_detail_block_record (i : nat) (b : Block) (casc : bool) :
  nth_error blocks i = Some b ->
  Upload.upload_detail StringToNumber server d (map block_record blocks) i casc
  = Returns (uploaded_detail server d blocks i b casc).
Proof.
  intros Hb.
  assert (Hi : i < List.length blocks) by (apply nth_error_Some; congruence).
  destruct (upload_detail_guarded StringToNumber server d (map block_record blocks) i casc)
    as [det Hdet].
  rewrite (block_records_convert _ Hi) in Hdet. rewrite Hdet. f_equal.
  destruct (upload_detail_inv _ _ _ _ _ _ _ Hdet)
    as (bIndex & prevHashStr & hashStr & timestampStr & nonceNum
        & H1 & H2 & H3 & H4 & H5 & Hidx & Hhv & Hpv & Hm & Hc & Hbv & Hrest).
  rewrite (current_block_record _ _ Hb) in *.
  change (Returns (index b) = Returns bIndex) in H1.
  change (Returns (previousHash b) = Returns prevHashStr) in H2.
  change (Returns (hash b) = Returns hashStr) in H3.
  change (Returns (timestamp b) = Returns timestampStr) in H4.
  change (Returns (nonce b) = Returns nonceNum) in H5.
  injection H1 as <-. injection H2 as <-. injection H3 as <-.
  injection H4 as <-. injection H5 as <-.
  change (read_data (block_record b)) with (Upload.coalesce (data b) JUndefined) in Hhv.
  rewrite computeHash_rebuilt in Hhv. fold (as_uploaded b) in Hhv.
  assert (Hlocal : isPrevValid det = isPrevValid (block_detail d blocks i b casc)
                   /\ isIndexValid det = isIndexValid (block_detail d blocks i b casc)).
  { destruct i as [|k]; [exact Hrest|].
    destruct Hrest as (prevIndex & prevTemp & Hpi & Hpt & Hp & Hiv).
    destruct (nth_error blocks k) as [prev|] eqn:Hprev.
    2:{ apply nth_error_None in Hprev. lia. }
    rewrite (nth_block_record _ _ Hprev) in Hpi.
    rewrite (current_block_record _ _ Hprev), previous_block_record in Hpt.
    change (Returns (index prev) = Returns prevIndex) in Hpi.
    injection Hpi as <-. injection Hpt as <-.
    rewrite (computeHash_rebuilt prev (data prev)), set_data_same in Hp.
    unfold block_detail. simpl Nat.sub. rewrite Nat.sub_0_r, Hprev. simpl.
    now split. }
  destruct Hlocal as [Hp Hiv].
  unfold local_checks in Hbv. rewrite Hm, Hhv, Hpv, Hp, Hiv in Hbv.
  destruct det as [di hv pv prv iv msg bv cs]. simpl in *.
  unfold uploaded_detail. subst di hv pv prv iv msg bv cs. simpl.
  now rewrite !andb_assoc.
Qed.

Lemma for_each_block_records (positions : list nat) (st : LoopState) :
  (forall i, In i positions -> i < List.length blocks) ->
  exists st',
    Upload.for_each (Upload.validate_step StringToNumber server d (map block_record blocks))
      positions st = Returns st'.
Proof.
  revert st. induction positions as [|i positions IH]; intros st H; simpl; [eauto|].
  destruct (nth_error blocks i) as [b|] eqn:Hb.
  2:{ apply nth_error_None in Hb. specialize (H i (or_introl eq_refl)). lia. }
  unfold Upload.validate_step at 1.
  rewrite (upload_detail_block_record _ _ _ Hb). simpl bind.
  apply IH. intros j Hj. apply H. now right.
Qed.

Lemma record_detail_tag (st : LoopState) (det : Detail) :
  record_detail (tag_state st) (tag_detail det) = tag_state (record_detail st det).
Proof.
  destruct st as [r casc]. unfold record_detail, tag_state, tag_report. simpl.
  destruct (blockValid det); simpl; now rewrite ?map_app.
Qed.

Hypothesis no_null_data : forall b, In b blocks -> data b <> JNull.
Hypothesis same_genesis :
  forall b0, nth_error blocks 0 = Some b0 -> genesis_match server 0 (hash b0) = true.

Lemma as_uploaded_same (b : Block) : In b blocks -> as_uploaded b = b.
Proof.
  intros Hin. unfold as_uploaded, Upload.coalesce.
  destruct (data b) eqn:E; simpl; try (rewrite <- E; apply set_data_same).
  exfalso. exact (no_null_data b Hin E).
Qed.

Lemma uploaded_detail_tag (i : nat) (b : Block) (casc : bool) :
  nth_error blocks i = Some b ->
  uploaded_detail server d blocks i b casc = tag_detail (block_detail d blocks i b casc).
Proof.
  intros Hb. unfold uploaded_detail.
  rewrite (as_uploaded_same b (nth_error_In _ _ Hb)).
  assert (Hg : genesis_match server i (hash b) = true).
  { destruct i; [now apply same_genesis | reflexivity]. }
  rewrite Hg. unfold tag_detail, block_detail. simpl.
  now rewrite andb_true_r.
Qed.

Lemma upload_lockstep (n : nat) :
  n <= List.length blocks ->
  Upload.for_each (Upload.validate_step StringToNumber server d (map block_record blocks))
    (seq 0 n) initial_loop_state
  = Returns (tag_state (fold_left (validate_step d blocks) (seq 0 n) initial_loop_state)).
Proof.
  induction n as [|n IH]; intros Hn; [reflexivity|].
  rewrite seq_S, for_each_app, IH by lia. rewrite fold_left_app.
  cbn [bind Upload.for_each fold_left Nat.add].
  set (st := fold_left (validate_step d blocks) (seq 0 n) initial_loop_state).
  destruct (nth_error blocks n) as [b|] eqn:Hb.
  2:{ apply nth_error_None in Hb. lia. }
  unfold Upload.validate_step, validate_step. rewrite Hb.
  rewrite (upload_detail_block_record _ _ _ Hb). cbn [bind tag_state snd].
  rewrite (uploaded_detail_tag _ _ _ Hb).
  change (tag_report (fst st), snd st) with (tag_state st).
  now rewrite record_detail_tag.
Qed.

End Reupload.

(** X14. The records of the blocks of a chain, with the canonical keys, are
    judged by the upload validator exactly as [validateChain] judges the
    chain (each detail with [matchesServerGenesis] true), provided no block
    has [null] as data and the first block has the hash of the server's
    genesis block. *)
Theorem reupload_agrees (StringToNumber : string -> JsNum) (server bc : Blockchain) :
  (forall b, In b (chain bc) -> data b <> JNull) ->
  (forall b0, nth_error (chain bc) 0 = Some b0 -> genesis_match server 0 (hash b0) = true) ->
  Upload.validateChain StringToNumber server (map block_record (chain bc)) (difficulty bc)
  = Returns (tag_report (validateChain bc)).
Proof.
  intros Hdata Hgen. unfold Upload.validateChain. rewrite length_map.
  rewrite (upload_lockstep StringToNumber server (difficulty bc) (chain bc) Hdata Hgen)
    by apply le_n.
  reflexivity.
Qed.

Lemma reupload_agrees_witness :
  Upload.validateChain decimal_literal two_block_chain two_block_upload 1
  = Returns (tag_report (validateChain two_block_chain)).
Proof.
  apply (reupload_agrees decimal_literal two_block_chain two_block_chain).
  - intros b [<- | [<- | []]]; discriminate.
  - intros b0 H. vm_compute in H. injection H as <-. vm_compute. reflexivity.
Defined.

(** X15. A block whose data is [null] is hashed by the upload validator as
    if its data were [undefined]: when the block carries its own hash and
    SHA-256 tells the two hashed strings apart, its record fails
    [isHashValid] and is reported invalid, although [validateChain] accepts
    the hash of the block itself. *)
Theorem null_data_rejected_on_upload (StringToNumber : string -> JsNum)
    (server bc : Blockchain) (r : Report) (i : nat) (b : Block) (det : Detail) :
  Upload.validateChain StringToNumber server (map block_record (chain bc)) (difficulty bc)
  = Returns r ->
  nth_error (chain bc) i = Some b ->
  nth_error (details r) i = Some det ->
  data b = JNull ->
  hash b = computeHash b ->
  no_collision (hash_input (set_data b JUndefined)) (hash_input b) ->
  isHashValid det = false
  /\ blockValid det = false
  /\ forall det', nth_error (details (validateChain bc)) i = Some det' ->
       isHashValid det' = true.
Proof.
  intros Hr Hb Hdet Hnull Hh Hsha.
  destruct (upload_validateChain_details _ _ _ _ _ Hr) as (_ & _ & Hall).
  destruct (Hall _ _ Hdet) as (casc & Hd).
  rewrite (upload_detail_block_record StringToNumber server (difficulty bc) (chain bc)
             i b casc Hb) in Hd.
  injection Hd as <-.
  assert (Hbad : String.eqb (computeHash (as_uploaded b)) (hash b) = false).
  { apply String.eqb_neq. unfold as_uploaded. rewrite Hnull. simpl Upload.coalesce.
    rewrite Hh. unfold computeHash. intros E. apply Hsha in E.
    destruct (tampered_hash_input b (set_data b JUndefined)) as [[Hne _] | [_ Hin]].
    - apply tamper_data. rewrite Hnull. discriminate.
    - now apply Hne.
    - now apply Hin. }
  unfold uploaded_detail. simpl. rewrite Hbad.
  split; [reflexivity|]. split; [now rewrite andb_false_r|].
  intros det' Hdet'.
  destruct (validateChain_details bc) as (_ & _ & Hall').
  destruct (Hall' _ _ Hdet') as (cur & casc' & Hcur & ->).
  rewrite Hb in Hcur. injection Hcur as <-.
  unfold block_detail. simpl. rewrite <- Hh. apply String.eqb_refl.
Qed.

Lemma null_data_rejected_on_upload_witness :
  isValid (validateChain null_data_chain) = true
  /\ Upload.validateChain decimal_literal null_data_chain
       (map block_record (chain null_data_chain)) (difficulty null_data_chain)
     = Returns null_data_report
  /\ map isHashValid (details null_data_report) = [true; false].
Proof.
  split; [vm_compute; reflexivity|].
  assert (E : Upload.validateChain decimal_literal null_data_chain
                (map block_record (chain null_data_chain)) (difficulty null_data_chain)
              = Returns null_data_report)
    by (vm_compute; reflexivity).
  split; [exact E|].
  assert (Hsha : no_collision (hash_input (set_data null_data_block JUndefined))
                              (hash_input null_data_block)).
  { intros C. vm_compute in C. discriminate. }
  assert (Hh : hash null_data_block = computeHash null_data_block)
    by (vm_compute; reflexivity).
  destruct (null_data_rejected_on_upload decimal_literal null_data_chain null_data_chain
              null_data_report 1 null_data_block
              (nth 1 (details null_data_report) (tag_detail (block_detail 0 [] 0 fresh_block true)))
              E eq_refl eq_refl eq_refl Hh Hsha) as (Hbad & _).
  change (true :: isHashValid (nth 1 (details null_data_report)
                                 (tag_detail (block_detail 0 [] 0 fresh_block true))) :: nil
          = [true; false]).
  now rewrite Hbad.
Defined.

(** ** The routes *)

Lemma new_Blockchain_genesis_facts (fuel d : nat) (now : string) (bc : Blockchain) :
  new_Blockchain fuel d now = Returns bc ->
  exists gen, chain bc = [gen] /\ data gen = genesis_data.
Proof.
  unfold new_Blockchain, creatGenBlock. intros H.
  apply bind_Returns in H as (gen & Hgen & H). inversion H; subst bc; clear H.
  apply proofOfWork_result in Hgen as (_ & _ & _ & _ & _ & Hd & _).
  exists gen. now split.
Qed.

Lemma coalesce_not_nullish (a b : JsVal) :
  Upload.nullish b = false -> Upload.nullish (Upload.coalesce a b) = false.
Proof. intros H. unfold Upload.coalesce. now destruct (Upload.nullish a) eqn:E. Qed.

Lemma api_mine_inv (fuel : nat) (body : JsVal) (now_data rand now_block : string)
    (bc bc' : Blockchain) (answer : Block * Report) :
  api_mine fuel body now_data rand now_block bc = Returns (answer, bc') ->
  addBlock fuel now_block
    (Upload.coalesce (Upload.js_get_opt body "data") (default_mine_data now_data rand)) bc
  = Returns (fst answer, bc')
  /\ snd answer = validateChain bc'.
Proof.
  unfold api_mine. intros H. apply bind_Returns in H as ([b bc2] & Hadd & H).
  simpl in H. injection H as <- <-. now split.
Qed.

Lemma served_produced (d : nat) (bc : Blockchain) :
  served d bc ->
  produced d bc /\ forall b, In b (chain bc) -> Upload.nullish (data b) = false.
Proof.
  induction 1 as [fuel now bc H
                 | fuel body now_data rand now_block bc answer bc' _ [IHp IHd] Hmine].
  - split; [exact (produced_new d fuel now bc H)|].
    destruct (new_Blockchain_genesis_facts fuel d now bc H) as (gen & Hc & Hd).
    rewrite Hc. intros b [<- | []]. now rewrite Hd.
  - destruct (api_mine_inv _ _ _ _ _ _ _ _ Hmine) as [Hadd _].
    split; [exact (produced_add d _ _ _ _ _ _ IHp Hadd)|].
    destruct (addBlock_result _ _ _ _ _ _ Hadd) as (_ & _ & Hc & _ & _ & _ & _ & Hdata & _).
    rewrite Hc. intros b Hin. apply in_app_or in Hin as [Hin | [<- | []]].
    + now apply IHd.
    + rewrite Hdata. now apply coalesce_not_nullish.
Qed.

(** X16. When [POST /api/mine] answers on a chain the server holds, the
    chain has one more block, the block's data is [req.body.data] when that
    is neither [null] nor [undefined] and the default payload otherwise (so
    it is never [null] or [undefined]), and the validation in the answer
    reports the new chain valid. *)
Theorem api_mine_answer (d fuel : nat) (body : JsVal) (now_data rand now_block : string)
    (bc bc' : Blockchain) (b : Block) (validation : Report) :
  served d bc ->
  api_mine fuel body now_data rand now_block bc = Returns ((b, validation), bc') ->
  served d bc'
  /\ chain bc' = (chain bc ++ [b])%list
  /\ data b = (if Upload.nullish (Upload.js_get_opt body "data")
               then default_mine_data now_data rand
               else Upload.js_get_opt body "data")
  /\ Upload.nullish (data b) = false
  /\ validation = validateChain bc'
  /\ isValid validation = true
  /\ invalidBlockIndices validation = [].
Proof.
  intros Hs Hmine.
  assert (Hs' : served d bc') by exact (served_mine d _ _ _ _ _ _ _ _ Hs Hmine).
  destruct (api_mine_inv _ _ _ _ _ _ _ _ Hmine) as [Hadd Hv]. simpl in Hadd, Hv.
  destruct (addBlock_result _ _ _ _ _ _ Hadd) as (_ & _ & Hc & _ & _ & _ & _ & Hdata & _).
  destruct (served_produced _ _ Hs') as [Hp Hnn].
  destruct (produced_chain_valid _ _ Hp) as [Hvalid Hnone].
  split; [exact Hs'|]. split; [exact Hc|]. split; [exact Hdata|].
  split; [apply Hnn; rewrite Hc; apply in_or_app; right; now left|].
  split; [exact Hv|]. rewrite Hv. now split.
Qed.

Lemma served_example : served 1 genesis_only_chain.
Proof. apply (served_new 1 200 example_now). vm_compute. reflexivity. Defined.

Lemma api_mine_answer_witness :
  api_mine 200 (JObj [("data", JArr [JNull])]) example_now "k3j9x0qa" example_later
    genesis_only_chain
  = Returns ((second_block, validateChain two_block_chain), two_block_chain)
  /\ served 1 two_block_chain
  /\ isValid (validateChain two_block_chain) = true.
Proof.
  assert (E : api_mine 200 (JObj [("data", JArr [JNull])]) example_now "k3j9x0qa"
                example_later genesis_only_chain
              = Returns ((second_block, validateChain two_block_chain), two_block_chain))
    by (vm_compute; reflexivity).
  destruct (api_mine_answer 1 _ _ _ _ _ _ _ _ _ served_example E)
    as (Hs & _ & _ & _ & _ & Hv & _).
  split; [exact E|]. split; [exact Hs | exact Hv].
Defined.




(** ** The text format: export and import *)

Lemma string_app_assoc (a b c : string) : (a ++ b) ++ c = a ++ b ++ c.
Proof. induction a as [|x a IH]; simpl; [reflexivity | now rewrite IH]. Qed.

Lemma string_app_nil_r (a : string) : a ++ EmptyString = a.
Proof. induction a as [|x a IH]; simpl; [reflexivity | now rewrite IH]. Qed.

Lemma rev_onto_app (acc s : string) : Text.rev_onto acc s = Text.reverse s ++ acc.
Proof.
  unfold Text.reverse. revert acc.
  induction s as [|c s IH]; intros acc; simpl; [reflexivity|].
  rewrite (IH (String c acc)), (IH (String c EmptyString)), string_app_assoc.
  reflexivity.
Qed.

Lemma reverse_app (a b : string) : Text.reverse (a ++ b) = Text.reverse b ++ Text.reverse a.
Proof.
  induction a as [|c a IH]; simpl.
  - now rewrite string_app_nil_r.
  - unfold Text.reverse in *. simpl.
    rewrite (rev_onto_app (String c EmptyString) (a ++ b)),
            (rev_onto_app (String c EmptyString) a).
    unfold Text.reverse. rewrite IH, string_app_assoc. reflexivity.
Qed.

Lemma reverse_involutive (s : string) : Text.reverse (Text.reverse s) = s.
Proof.
  induction s as [|c s IH]; [reflexivity|].
  change (Text.reverse (String c s)) with (Text.rev_onto (String c EmptyString) s).
  rewrite rev_onto_app, reverse_app, IH. reflexivity.
Qed.

Lemma solid_bounds (c : ascii) :
  solid c = true -> 33 <= nat_of_ascii c <= 126.
Proof.
  unfold solid. intros H. apply andb_true_iff in H as [H1 H2].
  apply Nat.leb_le in H1, H2. lia.
Qed.

Lemma solid_not_ws1 (c : ascii) : solid c = true -> Text.ws1 c = false.
Proof.
  intros H. apply solid_bounds in H. unfold Text.ws1.
  apply orb_false_iff. split.
  - apply andb_false_iff. right. apply Nat.leb_gt. lia.
  - apply Nat.eqb_neq. lia.
Qed.

Lemma solid_not_ws2 (c c1 : ascii) : solid c1 = true -> Text.ws2 c c1 = false.
Proof.
  intros H. apply solid_bounds in H. unfold Text.ws2, Text.is_byte.
  apply andb_false_iff. right. apply Nat.eqb_neq. lia.
Qed.

Lemma solid_not_ws2_head (c c1 : ascii) : solid c = true -> Text.ws2 c c1 = false.
Proof.
  intros H. apply solid_bounds in H. unfold Text.ws2, Text.is_byte.
  apply andb_false_iff. left. apply Nat.eqb_neq. lia.
Qed.

Lemma solid_not_ws3 (c c1 c2 : ascii) : solid c2 = true -> Text.ws3 c c1 c2 = false.
Proof.
  intros H. apply solid_bounds in H. unfold Text.ws3, Text.is_byte.
  assert (E : forall n, 128 <= n -> Nat.eqb (nat_of_ascii c2) n = false)
    by (intros n Hn; apply Nat.eqb_neq; lia).
  rewrite !E by lia.
  assert (E' : Nat.leb 128 (nat_of_ascii c2) = false) by (apply Nat.leb_gt; lia).
  rewrite E'. rewrite !andb_false_r. reflexivity.
Qed.

Lemma solid_not_ws3_head (c c1 c2 : ascii) : solid c = true -> Text.ws3 c c1 c2 = false.
Proof.
  intros H. apply solid_bounds in H. unfold Text.ws3, Text.is_byte.
  assert (E : forall n, 128 <= n -> Nat.eqb (nat_of_ascii c) n = false)
    by (intros n Hn; apply Nat.eqb_neq; lia).
  rewrite !E by lia. reflexivity.
Qed.

Lemma ws_len_solid (c : ascii) (rest : string) :
  solid c = true -> Text.ws_len (String c rest) = 0.
Proof.
  intros H. unfold Text.ws_len. rewrite (solid_not_ws1 _ H).
  destruct rest as [|c1 rest]; [reflexivity|]. rewrite (solid_not_ws2_head _ c1 H).
  destruct rest as [|c2 rest]; [reflexivity|]. now rewrite (solid_not_ws3_head _ c1 c2 H).
Qed.

Lemma ws_len_back_solid (c : ascii) (rest : string) :
  solid c = true -> Text.ws_len_back (String c rest) = 0.
Proof.
  intros H. unfold Text.ws_len_back. rewrite (solid_not_ws1 _ H).
  destruct rest as [|c1 rest]; [reflexivity|]. rewrite (solid_not_ws2 c1 _ H).
  destruct rest as [|c0 rest]; [reflexivity|]. now rewrite (solid_not_ws3 c0 c1 _ H).
Qed.

Lemma term_len_solid (c : ascii) (rest : string) :
  solid c = true -> Text.term_len (String c rest) = 0.
Proof.
  intros H. apply solid_bounds in H. unfold Text.term_len, Text.is_byte.
  assert (E : forall n, n < 33 \/ 126 < n -> Nat.eqb (nat_of_ascii c) n = false)
    by (intros n Hn; apply Nat.eqb_neq; lia).
  rewrite !E by lia. reflexivity.
Qed.

Lemma last_solid_reverse (s : string) :
  last_solid s = true ->
  exists d rest, Text.reverse s = String d rest /\ solid d = true.
Proof.
  unfold Text.reverse. generalize EmptyString as acc.
  induction s as [|c s IH]; intros acc H; [discriminate|].
  destruct s as [|c' s'].
  - exists c, acc. split; [reflexivity | exact H].
  - apply (IH (String c acc)). exact H.
Qed.

Lemma trim_end_last_solid (s : string) : last_solid s = true -> Text.trim_end s = s.
Proof.
  intros H. destruct (last_solid_reverse s H) as (d & rest & E & Hd).
  unfold Text.trim_end. rewrite E.
  cbn [Text.skip_from]. rewrite (ws_len_back_solid d rest Hd).
  rewrite <- E. apply reverse_involutive.
Qed.

Lemma last_solid_app (a b : string) : last_solid b = true -> last_solid (a ++ b) = true.
Proof.
  intros H. induction a as [|c a IH]; [exact H|].
  simpl. destruct (a ++ b) eqn:E; [|exact IH].
  destruct a; simpl in E; [subst b|]; discriminate.
Qed.

Lemma all_solid_last (s : string) :
  all_solid s = true -> s <> EmptyString -> last_solid s = true.
Proof.
  induction s as [|c s IH]; intros H Hne; [congruence|].
  simpl in H. apply andb_true_iff in H as [Hc Hs].
  destruct s as [|c' s']; [exact Hc|].
  apply IH; [exact Hs | discriminate].
Qed.

Lemma all_solid_one_line (s : string) : all_solid s = true -> one_line s = true.
Proof.
  induction s as [|c s IH]; intros H; [reflexivity|].
  simpl in H. apply andb_true_iff in H as [Hc Hs].
  cbn [one_line]. rewrite (term_len_solid c s Hc). now rewrite IH.
Qed.

Lemma all_solid_plain (s : string) :
  all_solid s = true -> s <> EmptyString -> plain s = true.
Proof.
  intros H Hne. unfold plain.
  rewrite (all_solid_one_line s H).
  rewrite (trim_end_last_solid s (all_solid_last s H Hne)), String.eqb_refl.
  destruct s as [|c s]; [congruence|].
  simpl in H. apply andb_true_iff in H as [Hc _].
  now rewrite (ws_len_solid c s Hc).
Qed.

Lemma digits_solid (d : Decimal.uint) : all_solid (NilEmpty.string_of_uint d) = true.
Proof. induction d; simpl; auto. Qed.

Lemma num_text_solid (n : JsNum) :
  all_solid (num_to_string n) = true /\ num_to_string n <> EmptyString.
Proof.
  destruct n as [|z]; [split; [reflexivity | discriminate]|].
  unfold num_to_string.
  destruct (Z.to_int z) as [d|d]; simpl.
  - destruct d; simpl; (split; [try reflexivity; apply digits_solid | discriminate]).
  - split; [|discriminate].
    destruct d; simpl; try reflexivity; apply digits_solid.
Qed.

Lemma num_text_plain (n : JsNum) : plain (num_to_string n) = true.
Proof. destruct (num_text_solid n) as [H Hne]. now apply all_solid_plain. Qed.

Lemma ends_line_cases (rest : string) :
  ends_line rest = true ->
  rest = EmptyString \/ exists c tail, rest = String c tail /\ break_byte c = true.
Proof. destruct rest as [|c tail]; intros H; [now left | right; eauto]. Qed.

Lemma break_byte_value (c : ascii) :
  break_byte c = true -> nat_of_ascii c = 10 \/ nat_of_ascii c = 13.
Proof.
  unfold break_byte, Text.is_byte. intros H. apply orb_true_iff in H as [H | H];
    apply Nat.eqb_eq in H; auto.
Qed.

Lemma break_byte_differs (c : ascii) (m : nat) :
  break_byte c = true -> m <> 10 -> m <> 13 -> Text.is_byte c m = false.
Proof.
  intros H H10 H13. apply break_byte_value in H.
  unfold Text.is_byte. apply Nat.eqb_neq. lia.
Qed.

Lemma ends_line_eol (eol rest : string) : line_end eol -> ends_line (eol ++ rest) = true.
Proof. intros [-> | ->]; reflexivity. Qed.

(** What follows a value does not complete a line terminator or a white
    space character the value ends with. *)
Lemma term_len_app (c : ascii) (v rest : string) :
  ends_line rest = true ->
  Text.term_len (String c v ++ rest) = Text.term_len (String c v).
Proof.
  intros H. destruct (ends_line_cases rest H) as [-> | (e & tail & -> & He)].
  - now rewrite string_app_nil_r.
  - cbn [append Text.term_len].
    destruct (Text.is_byte c 10 || Text.is_byte c 13); [reflexivity|].
    destruct (Text.is_byte c 226); [|reflexivity].
    destruct v as [|c1 v]; cbn [append].
    + rewrite (break_byte_differs e 128 He) by lia. destruct tail; reflexivity.
    + destruct v as [|c2 v]; cbn [append]; [|reflexivity].
      rewrite (break_byte_differs e 168 He), (break_byte_differs e 169 He) by lia.
      now rewrite andb_false_r.
Qed.

Lemma break_byte_low (c : ascii) (n : nat) :
  break_byte c = true -> 128 <= n ->
  Nat.eqb (nat_of_ascii c) n = false /\ Nat.leb n (nat_of_ascii c) = false.
Proof.
  intros H Hn. apply break_byte_value in H. split.
  - apply Nat.eqb_neq. lia.
  - apply Nat.leb_gt. lia.
Qed.

Lemma ws3_tail_break (c c1 e : ascii) : break_byte e = true -> Text.ws3 c c1 e = false.
Proof.
  intros He. unfold Text.ws3.
  assert (E : forall n, 128 <= n -> Nat.eqb (nat_of_ascii e) n = false)
    by (intros n Hn; now apply break_byte_low).
  rewrite !E by lia.
  rewrite (proj2 (break_byte_low e 128 He (le_n 128))).
  rewrite !andb_false_r. reflexivity.
Qed.

Lemma ws3_mid_break (c e c2 : ascii) : break_byte e = true -> Text.ws3 c e c2 = false.
Proof.
  intros He. unfold Text.ws3.
  rewrite (break_byte_differs e 154 He), (break_byte_differs e 128 He),
          (break_byte_differs e 129 He), (break_byte_differs e 187 He) by lia.
  rewrite !andb_false_r. reflexivity.
Qed.

Lemma ws2_tail_break (c e : ascii) : break_byte e = true -> Text.ws2 c e = false.
Proof.
  intros He. unfold Text.ws2. rewrite (break_byte_differs e 160 He) by lia.
  apply andb_false_r.
Qed.

Lemma ws_len_app (c : ascii) (v rest : string) :
  ends_line rest = true ->
  Text.ws_len (String c v) = 0 ->
  Text.ws_len (String c v ++ rest) = 0.
Proof.
  intros H Hv. destruct (ends_line_cases rest H) as [-> | (e & tail & -> & He)].
  - now rewrite string_app_nil_r.
  - cbn [append Text.ws_len] in *.
    destruct (Text.ws1 c); [discriminate|].
    destruct v as [|c1 v]; cbn [append] in *.
    + rewrite (ws2_tail_break c e He). destruct tail as [|a tail]; [reflexivity|].
      now rewrite (ws3_mid_break c e a He).
    + destruct (Text.ws2 c c1); [discriminate|].
      destruct v as [|c2 v]; cbn [append] in *; [|exact Hv].
      now rewrite (ws3_tail_break c c1 e He).
Qed.

Lemma take_line_app (v rest : string) :
  one_line v = true -> ends_line rest = true -> Text.take_line (v ++ rest) = v.
Proof.
  intros Hv H. induction v as [|c v IH].
  - destruct (ends_line_cases rest H) as [-> | (e & tail & -> & He)]; [reflexivity|].
    cbn [append Text.take_line Text.term_len].
    unfold break_byte in He. now rewrite He.
  - cbn [one_line] in Hv. apply andb_true_iff in Hv as [Hc Hv].
    apply Nat.eqb_eq in Hc.
    change (String c v ++ rest) with (String c (v ++ rest)).
    cbn [Text.take_line].
    change (String c (v ++ rest)) with (String c v ++ rest).
    rewrite (term_len_app c v rest H), Hc.
    now rewrite (IH Hv).
Qed.

Lemma skip_ws_value (v rest : string) :
  Text.ws_len v = 0 -> v <> EmptyString -> ends_line rest = true ->
  Text.skip_ws (" " ++ v ++ rest) = v ++ rest.
Proof.
  intros Hv Hne H. destruct v as [|c v]; [congruence|].
  unfold Text.skip_ws.
  change (" " ++ String c v ++ rest) with (String " " (String c v ++ rest)).
  cbn [Text.skip_from].
  change (Text.ws_len (String " " (String c v ++ rest))) with 1.
  pose proof (ws_len_app c v rest H Hv) as E.
  change (String c v ++ rest) with (String c (v ++ rest)) in *.
  cbn [Text.skip_from]. now rewrite E.
Qed.

Lemma plain_parts (v : string) :
  plain v = true ->
  one_line v = true /\ v <> EmptyString /\ Text.ws_len v = 0 /\ Text.trim v = v.
Proof.
  unfold plain. intros H.
  apply andb_true_iff in H as [H Ht]. apply andb_true_iff in H as [H Hw].
  apply andb_true_iff in H as [Hl Hne].
  apply Nat.eqb_eq in Hw. apply String.eqb_eq in Ht.
  assert (Hv : v <> EmptyString).
  { intros ->. discriminate. }
  split; [exact Hl|]. split; [exact Hv|]. split; [exact Hw|].
  unfold Text.trim, Text.skip_ws.
  destruct v as [|c v]; [congruence|].
  cbn [Text.skip_from]. now rewrite Hw.
Qed.

Lemma prefix_ci_app (p rest : string) : Text.prefix_ci p (p ++ rest) = Some rest.
Proof.
  induction p as [|a p IH]; [reflexivity|].
  simpl. now rewrite Ascii.eqb_refl.
Qed.

Lemma find_line_label (label after : string) :
  Text.find_line label 0 true ((label ++ ":") ++ after)
  = Some (Text.take_line (Text.skip_ws after)).
Proof.
  assert (E : exists c tail, (label ++ ":") ++ after = String c tail).
  { destruct label; simpl; eauto. }
  destruct E as (c & tail & E).
  pose proof (prefix_ci_app (label ++ ":") after) as Hp.
  rewrite E in *. cbn [Text.find_line]. now rewrite Hp.
Qed.

(** The line of a label: the group of the pattern is the value. *)
Lemma find_line_hit (label v rest : string) :
  plain v = true -> ends_line rest = true ->
  Text.find_line label 0 true ((label ++ ":") ++ " " ++ v ++ rest) = Some v.
Proof.
  intros Hv H. destruct (plain_parts v Hv) as (Hl & Hne & Hw & _).
  rewrite find_line_label.
  rewrite (skip_ws_value v rest Hw Hne H), (take_line_app v rest Hl H).
  reflexivity.
Qed.

(** After a line end a new line starts; no label starts with LF. *)
Lemma find_line_eol (label eol rest : string) :
  line_end eol -> head_differs label Text.newline = true ->
  Text.find_line label 0 false (eol ++ rest) = Text.find_line label 0 true rest.
Proof.
  intros Heol Hd. destruct label as [|a label]; [discriminate|].
  cbn [head_differs Text.newline] in Hd. apply negb_true_iff in Hd.
  destruct Heol as [-> | ->]; [reflexivity|].
  change (crlf ++ rest) with (String Text.CR (String Text.LF rest)).
  cbn [Text.find_line append Text.prefix_ci]. rewrite Hd. reflexivity.
Qed.

(** Within a line the pattern does not match. *)
Lemma find_line_pass (label x eol rest : string) :
  line_end eol -> head_differs label Text.newline = true ->
  one_line x = true ->
  Text.find_line label 0 false (x ++ eol ++ rest) = Text.find_line label 0 true rest.
Proof.
  intros Heol Hd Hx. induction x as [|c x IH].
  - exact (find_line_eol label eol rest Heol Hd).
  - cbn [one_line] in Hx. apply andb_true_iff in Hx as [Hc Hx].
    apply Nat.eqb_eq in Hc.
    pose proof (term_len_app c x (eol ++ rest) (ends_line_eol eol rest Heol)) as E.
    rewrite Hc in E.
    change (String c x ++ eol ++ rest) with (String c (x ++ eol ++ rest)) in *.
    cbn [Text.find_line]. rewrite E. exact (IH Hx).
Qed.

Lemma find_line_skip (label x eol rest : string) :
  line_end eol -> head_differs label Text.newline = true ->
  head_differs label x = true -> one_line x = true ->
  Text.find_line label 0 true (x ++ eol ++ rest) = Text.find_line label 0 true rest.
Proof.
  intros Heol Hlf Hd Hx. destruct label as [|a label]; [discriminate|].
  destruct x as [|c x]; [discriminate|].
  simpl in Hd. apply negb_true_iff in Hd.
  pose proof (find_line_pass (String a label) (String c x) eol rest Heol Hlf Hx) as Hpass.
  cbn [one_line] in Hx. apply andb_true_iff in Hx as [Hc Hx].
  apply Nat.eqb_eq in Hc.
  pose proof (term_len_app c x (eol ++ rest) (ends_line_eol eol rest Heol)) as E.
  rewrite Hc in E.
  change (String c x ++ eol ++ rest) with (String c (x ++ eol ++ rest)) in *.
  cbn [Text.find_line] in *. rewrite E in *.
  cbn [append Text.prefix_ci]. rewrite Hd. exact Hpass.
Qed.

Lemma term_len_no_break (c : ascii) (rest : string) :
  no_break (String c EmptyString) = true -> Text.term_len (String c rest) = 0.
Proof.
  cbn [no_break]. rewrite andb_true_r. intros H. apply negb_true_iff in H.
  apply orb_false_iff in H as [H H3]. unfold Text.term_len. now rewrite H, H3.
Qed.

(** Text without line breaks before a value keeps it on one line. *)
Lemma one_line_app (k v : string) :
  no_break k = true -> one_line v = true -> one_line (k ++ v) = true.
Proof.
  intros Hk Hv. induction k as [|c k IH]; [exact Hv|].
  cbn [no_break] in Hk. apply andb_true_iff in Hk as [Hc Hk].
  change (String c k ++ v) with (String c (k ++ v)).
  cbn [one_line]. rewrite (term_len_no_break c (k ++ v)).
  - now rewrite IH.
  - cbn [no_break]. now rewrite Hc.
Qed.

Lemma find_line_skip_field (label k v eol rest : string) :
  line_end eol -> head_differs label Text.newline = true ->
  head_differs label k = true -> no_break k = true -> one_line v = true ->
  Text.find_line label 0 true (k ++ v ++ eol ++ rest)
  = Text.find_line label 0 true rest.
Proof.
  intros Heol Hlf Hd Hk Hv. rewrite <- string_app_assoc.
  apply find_line_skip; [exact Heol | exact Hlf | |].
  - destruct label, k; try discriminate. exact Hd.
  - now apply one_line_app.
Qed.

(** *** The six lines of a section *)
Section RecordText.

Variable eol : string.
Hypothesis Heol : line_end eol.
Variables i t p h d n : string.
Hypothesis Li : one_line i = true.
Hypothesis Lt : one_line t = true.
Hypothesis Lp : one_line p = true.
Hypothesis Lh : one_line h = true.
Hypothesis Ld : one_line d = true.
Hypothesis Ln : one_line n = true.

Ltac skip_field label k v :=
  etransitivity;
  [ refine (find_line_skip_field label k v eol _ Heol eq_refl eq_refl eq_refl _);
    assumption | ].

Ltac skip_dashes label :=
  etransitivity; [ refine (find_line_skip label "---" eol _ Heol eq_refl eq_refl eq_refl) | ].

Ltac hit_field label v :=
  refine (find_line_hit label v _ _ _);
  [assumption | assumption || reflexivity || apply (ends_line_eol eol _ Heol)].

Lemma match_Index (lead rest : string) :
  lead = EmptyString \/ lead = "---" ++ eol ->
  plain i = true -> ends_line rest = true ->
  Text.match_line "Index" (lead ++ record_text eol i t p h d n rest) = Some i.
Proof.
  intros [-> | ->] Hv Hrest; unfold Text.match_line, record_text.
  -  hit_field "Index" i.
  - rewrite string_app_assoc. skip_dashes "Index".  hit_field "Index" i.
Qed.

Lemma match_Timestamp (lead rest : string) :
  lead = EmptyString \/ lead = "---" ++ eol ->
  plain t = true -> ends_line rest = true ->
  Text.match_line "Timestamp" (lead ++ record_text eol i t p h d n rest) = Some t.
Proof.
  intros [-> | ->] Hv Hrest; unfold Text.match_line, record_text.
  - skip_field "Timestamp" "Index: " i. hit_field "Timestamp" t.
  - rewrite string_app_assoc. skip_dashes "Timestamp". skip_field "Timestamp" "Index: " i. hit_field "Timestamp" t.
Qed.

Lemma match_Previous_Hash (lead rest : string) :
  lead = EmptyString \/ lead = "---" ++ eol ->
  plain p = true -> ends_line rest = true ->
  Text.match_line "Previous Hash" (lead ++ record_text eol i t p h d n rest) = Some p.
Proof.
  intros [-> | ->] Hv Hrest; unfold Text.match_line, record_text.
  - skip_field "Previous Hash" "Index: " i. skip_field "Previous Hash" "Timestamp: " t. hit_field "Previous Hash" p.
  - rewrite string_app_assoc. skip_dashes "Previous Hash". skip_field "Previous Hash" "Index: " i. skip_field "Previous Hash" "Timestamp: " t. hit_field "Previous Hash" p.
Qed.

Lemma match_Hash (lead rest : string) :
  lead = EmptyString \/ lead = "---" ++ eol ->
  plain h = true -> ends_line rest = true ->
  Text.match_line "Hash" (lead ++ record_text eol i t p h d n rest) = Some h.
Proof.
  intros [-> | ->] Hv Hrest; unfold Text.match_line, record_text.
  - skip_field "Hash" "Index: " i. skip_field "Hash" "Timestamp: " t. skip_field "Hash" "Previous Hash: " p. hit_field "Hash" h.
  - rewrite string_app_assoc. skip_dashes "Hash". skip_field "Hash" "Index: " i. skip_field "Hash" "Timestamp: " t. skip_field "Hash" "Previous Hash: " p. hit_field "Hash" h.
Qed.

Lemma match_Data (lead rest : string) :
  lead = EmptyString \/ lead = "---" ++ eol ->
  plain d = true -> ends_line rest = true ->
  Text.match_line "Data" (lead ++ record_text eol i t p h d n rest) = Some d.
Proof.
  intros [-> | ->] Hv Hrest; unfold Text.match_line, record_text.
  - skip_field "Data" "Index: " i. skip_field "Data" "Timestamp: " t. skip_field "Data" "Previous Hash: " p. skip_field "Data" "Hash: " h. hit_field "Data" d.
  - rewrite string_app_assoc. skip_dashes "Data". skip_field "Data" "Index: " i. skip_field "Data" "Timestamp: " t. skip_field "Data" "Previous Hash: " p. skip_field "Data" "Hash: " h. hit_field "Data" d.
Qed.

Lemma match_Nonce (lead rest : string) :
  lead = EmptyString \/ lead = "---" ++ eol ->
  plain n = true -> ends_line rest = true ->
  Text.match_line "Nonce" (lead ++ record_text eol i t p h d n rest) = Some n.
Proof.
  intros [-> | ->] Hv Hrest; unfold Text.match_line, record_text.
  - skip_field "Nonce" "Index: " i. skip_field "Nonce" "Timestamp: " t. skip_field "Nonce" "Previous Hash: " p. skip_field "Nonce" "Hash: " h. skip_field "Nonce" "Data: " d. hit_field "Nonce" n.
  - rewrite string_app_assoc. skip_dashes "Nonce". skip_field "Nonce" "Index: " i. skip_field "Nonce" "Timestamp: " t. skip_field "Nonce" "Previous Hash: " p. skip_field "Nonce" "Hash: " h. skip_field "Nonce" "Data: " d. hit_field "Nonce" n.
Qed.

End RecordText.

Lemma skip_ws_line_end (eol rest : string) :
  line_end eol -> Text.skip_ws (" " ++ eol ++ "Nonce: " ++ rest) = "Nonce: " ++ rest.
Proof. intros [-> | ->]; reflexivity. Qed.

(** An empty value: the white space the pattern allows after the colon
    runs over the line end, and the group is the next line. *)
Lemma match_Data_empty (eol i t p h n lead : string) :
  line_end eol ->
  one_line i = true -> one_line t = true -> one_line p = true -> one_line h = true ->
  one_line n = true ->
  lead = EmptyString \/ lead = "---" ++ eol ->
  Text.match_line "Data" (lead ++ record_text eol i t p h EmptyString n EmptyString)
  = Some ("Nonce: " ++ n).
Proof.
  intros Heol Li Lt Lp Lh Ln Hlead.
  assert (Hhit : Text.find_line "Data" 0 true
                   ("Data: " ++ EmptyString ++ eol ++ "Nonce: " ++ n ++ EmptyString)
                 = Some ("Nonce: " ++ n)).
  { etransitivity;
      [exact (find_line_label "Data" (" " ++ eol ++ "Nonce: " ++ n ++ EmptyString))|].
    rewrite (skip_ws_line_end eol _ Heol).
    change ("Nonce: " ++ n ++ EmptyString) with (("Nonce: " ++ n) ++ EmptyString).
    rewrite take_line_app; [reflexivity | | reflexivity].
    now apply one_line_app. }
  assert (Hfields : Text.find_line "Data" 0 true
                      (record_text eol i t p h EmptyString n EmptyString)
                    = Some ("Nonce: " ++ n)).
  { unfold record_text.
    etransitivity;
      [refine (find_line_skip_field "Data" "Index: " i eol _ Heol eq_refl eq_refl eq_refl Li)|].
    etransitivity;
      [refine (find_line_skip_field "Data" "Timestamp: " t eol _ Heol eq_refl eq_refl
                 eq_refl Lt)|].
    etransitivity;
      [refine (find_line_skip_field "Data" "Previous Hash: " p eol _ Heol eq_refl eq_refl
                 eq_refl Lp)|].
    etransitivity;
      [refine (find_line_skip_field "Data" "Hash: " h eol _ Heol eq_refl eq_refl eq_refl Lh)|].
    exact Hhit. }
  destruct Hlead as [-> | ->]; unfold Text.match_line.
  - exact Hfields.
  - rewrite string_app_assoc.
    etransitivity;
      [refine (find_line_skip "Data" "---" eol _ Heol eq_refl eq_refl eq_refl)|].
    exact Hfields.
Qed.

Lemma record_text_last_solid (eol i t p h d n lead : string) :
  last_solid n = true ->
  last_solid (lead ++ record_text eol i t p h d n EmptyString) = true.
Proof.
  intros Hlast. unfold record_text. rewrite (string_app_nil_r n).
  apply last_solid_app. do 16 apply last_solid_app. exact Hlast.
Qed.

Lemma trim_section (eol lead i t p h d n : string) :
  line_end eol ->
  lead = EmptyString \/ lead = "---" ++ eol ->
  last_solid n = true ->
  Text.trim (lead ++ record_text eol i t p h d n EmptyString)
  = lead ++ record_text eol i t p h d n EmptyString.
Proof.
  intros Heol Hlead Hn.
  assert (E : Text.skip_ws (lead ++ record_text eol i t p h d n EmptyString)
              = lead ++ record_text eol i t p h d n EmptyString)
    by (destruct Hlead as [-> | ->]; reflexivity).
  unfold Text.trim. rewrite E.
  apply trim_end_last_solid, record_text_last_solid, Hn.
Qed.

Lemma exportable_parts (b : Block) :
  exportable b = true ->
  plain (timestamp b) = true /\ plain (previousHash b) = true /\ plain (hash b) = true
  /\ (plain (Text.data_text (data b)) = true \/ Text.data_text (data b) = EmptyString).
Proof.
  unfold exportable. intros Hb.
  apply andb_true_iff in Hb as [Hb Hd]. apply andb_true_iff in Hb as [Hb Hh].
  apply andb_true_iff in Hb as [Ht Hp].
  apply orb_true_iff in Hd as [Hd | Hd]; [now auto|].
  apply String.eqb_eq in Hd. now auto.
Qed.

Lemma exportable_lines (b : Block) :
  exportable b = true ->
  one_line (num_to_string (index b)) = true /\ one_line (timestamp b) = true
  /\ one_line (previousHash b) = true /\ one_line (hash b) = true
  /\ one_line (Text.data_text (data b)) = true
  /\ one_line (num_to_string (nonce b)) = true.
Proof.
  intros Hb. destruct (exportable_parts b Hb) as (Ht & Hp & Hh & Hd).
  split; [apply plain_parts, num_text_plain|].
  split; [now apply plain_parts|]. split; [now apply plain_parts|].
  split; [now apply plain_parts|].
  split; [|apply plain_parts, num_text_plain].
  destruct Hd as [Hd | ->]; [now apply plain_parts | reflexivity].
Qed.

Lemma plain_data_line_value (b : Block) :
  plain (Text.data_text (data b)) = true -> data_line_value b = Text.data_text (data b).
Proof.
  intros H. unfold data_line_value.
  destruct (String.eqb_spec (Text.data_text (data b)) EmptyString) as [E|]; [|reflexivity].
  rewrite E in H. discriminate.
Qed.

Lemma trim_plain (v : string) : plain v = true -> Text.trim v = v.
Proof. intros H. apply plain_parts, H. Qed.

(** The record of a section of the export. *)
Lemma text_block_section (StringToNumber : string -> JsNum)
    (JSON_parse : string -> option JsVal) (eol lead : string) (b : Block) :
  line_end eol ->
  lead = EmptyString \/ lead = "---" ++ eol ->
  exportable b = true ->
  Upload.text_block StringToNumber JSON_parse Text.trim Text.match_line
    (lead ++ body_then eol b EmptyString)
  = Some (imported_with StringToNumber JSON_parse b (data_line_value b)).
Proof.
  intros Heol Hlead Hb.
  destruct (exportable_parts b Hb) as (Ht & Hp & Hh & Hd).
  destruct (exportable_lines b Hb) as (Li & Lt & Lp & Lh & Ld & Ln).
  pose proof (num_text_plain (index b)) as Hi.
  pose proof (num_text_plain (nonce b)) as Hn.
  assert (Hlast : last_solid (num_to_string (nonce b)) = true).
  { destruct (num_text_solid (nonce b)). now apply all_solid_last. }
  unfold Upload.text_block, body_then.
  rewrite (trim_section eol lead _ _ _ _ _ _ Heol Hlead Hlast).
  assert (Hne : String.eqb (lead ++ record_text eol (num_to_string (index b)) (timestamp b)
                              (previousHash b) (hash b) (Text.data_text (data b))
                              (num_to_string (nonce b)) EmptyString) EmptyString = false)
    by (destruct Hlead as [-> | ->]; reflexivity).
  rewrite Hne.
  rewrite match_Index, match_Timestamp, match_Previous_Hash, match_Hash, match_Nonce
    by (assumption || reflexivity).
  cbn [option_map].
  rewrite (trim_plain _ Hi), (trim_plain _ Ht), (trim_plain _ Hp), (trim_plain _ Hh),
          (trim_plain _ Hn).
  destruct Hd as [Hd | Hd].
  - rewrite match_Data by (assumption || reflexivity).
    cbn [option_map]. rewrite (trim_plain _ Hd), (plain_data_line_value b Hd).
    reflexivity.
  - unfold data_line_value. rewrite Hd.
    rewrite match_Data_empty by assumption.
    cbn [option_map String.eqb].
    assert (Htrim : Text.trim ("Nonce: " ++ num_to_string (nonce b))
                    = "Nonce: " ++ num_to_string (nonce b)).
    { unfold Text.trim.
      change (Text.skip_ws ("Nonce: " ++ num_to_string (nonce b)))
        with ("Nonce: " ++ num_to_string (nonce b)).
      now apply trim_end_last_solid, last_solid_app. }
    rewrite Htrim. reflexivity.
Qed.

(** *** The split *)

Lemma sep_len_no_break (c : ascii) (rest : string) :
  Text.term_len (String c EmptyString) = 0 -> Text.sep_len (String c rest) = 0.
Proof.
  unfold Text.term_len, Text.sep_len. intros H.
  destruct (Text.is_byte c 10); [discriminate|].
  destruct (Text.is_byte c 13); [discriminate|]. reflexivity.
Qed.

Lemma term_len_head (c : ascii) (rest : string) :
  Text.term_len (String c rest) = 0 -> Text.term_len (String c EmptyString) = 0.
Proof.
  unfold Text.term_len.
  destruct (Text.is_byte c 10 || Text.is_byte c 13); [discriminate|].
  destruct (Text.is_byte c 226); reflexivity.
Qed.

Lemma split_pass (x rest : string) :
  one_line x = true ->
  Text.split_from 0 (x ++ rest)
  = (x ++ fst (Text.split_from 0 rest), snd (Text.split_from 0 rest)).
Proof.
  intros Hx. induction x as [|c x IH].
  - simpl. now destruct (Text.split_from 0 rest).
  - cbn [one_line] in Hx. apply andb_true_iff in Hx as [Hc Hx].
    apply Nat.eqb_eq in Hc.
    change (String c x ++ rest) with (String c (x ++ rest)).
    cbn [Text.split_from].
    rewrite (sep_len_no_break c (x ++ rest) (term_len_head c x Hc)).
    rewrite (IH Hx). reflexivity.
Qed.

Lemma split_field (k v rest : string) :
  no_break k = true -> one_line v = true ->
  Text.split_from 0 (k ++ v ++ rest)
  = (k ++ v ++ fst (Text.split_from 0 rest), snd (Text.split_from 0 rest)).
Proof.
  intros Hk Hv. rewrite <- string_app_assoc.
  rewrite split_pass by now apply one_line_app.
  now rewrite string_app_assoc.
Qed.

Lemma after_dashes_head (c : ascii) (rest : string) :
  Text.is_byte c 45 = false -> Text.after_dashes (String c rest) = 0.
Proof.
  intros H. unfold Text.after_dashes. destruct rest as [|c1 [|c2 rest]]; try reflexivity.
  now rewrite H.
Qed.

(** A line end before a line that does not start with a dash is no
    separator. *)
Lemma split_break (eol : string) (c : ascii) (rest : string) :
  line_end eol ->
  Text.is_byte c 45 = false ->
  Text.split_from 0 (eol ++ String c rest)
  = (eol ++ fst (Text.split_from 0 (String c rest)),
     snd (Text.split_from 0 (String c rest))).
Proof.
  intros Heol H. set (r := Text.split_from 0 (String c rest)).
  assert (E : Text.sep_len (String Text.LF (String c rest)) = 0).
  { unfold Text.sep_len. change (Text.is_byte Text.LF 10) with true. cbv iota.
    now rewrite (after_dashes_head c rest H). }
  assert (Hlf : Text.split_from 0 (String Text.LF (String c rest))
                = (String Text.LF (fst r), snd r)).
  { change (Text.split_from 0 (String Text.LF (String c rest)))
      with (match Text.sep_len (String Text.LF (String c rest)) with
            | O => let (piece, pieces) := r in (String Text.LF piece, pieces)
            | S k => let (piece, pieces) := Text.split_from k (String c rest) in
                     (EmptyString, piece :: pieces)
            end).
    rewrite E. now destruct r. }
  destruct Heol as [-> | ->]; [exact Hlf|].
  assert (E' : Text.sep_len (String Text.CR (String Text.LF (String c rest))) = 0).
  { unfold Text.sep_len. change (Text.is_byte Text.CR 10) with false.
    change (Text.is_byte Text.CR 13) with true. change (Text.is_byte Text.LF 10) with true.
    cbv iota. now rewrite (after_dashes_head c rest H). }
  change (Text.split_from 0 (crlf ++ String c rest))
    with (match Text.sep_len (String Text.CR (String Text.LF (String c rest))) with
          | O => let (piece, pieces) := Text.split_from 0 (String Text.LF (String c rest)) in
                 (String Text.CR piece, pieces)
          | S k => let (piece, pieces) :=
                     Text.split_from k (String Text.LF (String c rest)) in
                   (EmptyString, piece :: pieces)
          end).
  rewrite E', Hlf. reflexivity.
Qed.

Lemma split_break_field (eol k v rest : string) :
  line_end eol ->
  match k with
  | String c _ => Text.is_byte c 45
  | EmptyString => true
  end = false ->
  no_break k = true -> one_line v = true ->
  Text.split_from 0 (eol ++ k ++ v ++ rest)
  = (eol ++ k ++ v ++ fst (Text.split_from 0 rest),
     snd (Text.split_from 0 rest)).
Proof.
  intros Heol Hc Hk Hv. destruct k as [|c k]; [discriminate|].
  change (String c k ++ v ++ rest) with (String c (k ++ v ++ rest)).
  rewrite (split_break eol c _ Heol Hc).
  change (String c (k ++ v ++ rest)) with (String c k ++ v ++ rest).
  rewrite (split_field (String c k) v rest Hk Hv). reflexivity.
Qed.

Lemma split_separator (eol rest : string) :
  line_end eol ->
  Text.split_from 0 (eol ++ "---" ++ eol ++ rest)
  = (EmptyString, fst (Text.split_from 0 rest) :: snd (Text.split_from 0 rest)).
Proof.
  intros [-> | ->].
  - change (Text.split_from 0 (Text.newline ++ "---" ++ Text.newline ++ rest))
      with (let (piece, pieces) := Text.split_from 0 rest in
            (EmptyString, piece :: pieces)).
    now destruct (Text.split_from 0 rest).
  - change (Text.split_from 0 (crlf ++ "---" ++ crlf ++ rest))
      with (let (piece, pieces) := Text.split_from 0 rest in
            (EmptyString, piece :: pieces)).
    now destruct (Text.split_from 0 rest).
Qed.

Lemma split_record (eol i t p h d n rest : string) :
  line_end eol ->
  one_line i = true -> one_line t = true -> one_line p = true ->
  one_line h = true -> one_line d = true -> one_line n = true ->
  Text.split_from 0 (record_text eol i t p h d n rest)
  = (record_text eol i t p h d n (fst (Text.split_from 0 rest)),
     snd (Text.split_from 0 rest)).
Proof.
  intros Heol Hi Ht Hp Hh Hd Hn. unfold record_text.
  rewrite (split_field "Index: " i) by (reflexivity || assumption).
  rewrite (split_break_field eol "Timestamp: " t) by (reflexivity || assumption).
  rewrite (split_break_field eol "Previous Hash: " p) by (reflexivity || assumption).
  rewrite (split_break_field eol "Hash: " h) by (reflexivity || assumption).
  rewrite (split_break_field eol "Data: " d) by (reflexivity || assumption).
  rewrite (split_break_field eol "Nonce: " n) by (reflexivity || assumption).
  reflexivity.
Qed.

Lemma split_body (eol : string) (b : Block) (rest : string) :
  line_end eol ->
  exportable b = true ->
  Text.split_from 0 (body_then eol b rest)
  = (body_then eol b (fst (Text.split_from 0 rest)), snd (Text.split_from 0 rest)).
Proof.
  intros Heol Hb. destruct (exportable_lines b Hb) as (Hi & Ht & Hp & Hh & Hd & Hn).
  unfold body_then. now apply split_record.
Qed.

Lemma split_more_blocks (eol : string) (blocks : list Block) :
  line_end eol ->
  forallb exportable blocks = true ->
  Text.split_from 0 (more_blocks eol blocks)
  = (EmptyString, map (fun b => body_then eol b EmptyString) blocks).
Proof.
  intros Heol. induction blocks as [|b rest IH]; intros H; [reflexivity|].
  cbn [forallb] in H. apply andb_true_iff in H as [Hb Hrest].
  cbn [more_blocks].
  rewrite (split_separator eol _ Heol), (split_body eol b _ Heol Hb), (IH Hrest).
  reflexivity.
Qed.

(** *** The export *)

Lemma concat_block_lines (eol : string) (b : Block) (lines : list string) :
  String.concat eol (Text.block_lines b ++ lines)
  = "---" ++ eol ++
    body_then eol b (match lines with
                     | [] => EmptyString
                     | _ :: _ => eol ++ String.concat eol lines
                     end).
Proof.
  unfold body_then, record_text.
  destruct lines as [|l lines].
  - rewrite (string_app_nil_r (num_to_string (nonce b))). reflexivity.
  - reflexivity.
Qed.

Lemma more_blocks_concat (eol : string) (blocks : list Block) :
  match flat_map Text.block_lines blocks with
  | [] => EmptyString
  | _ :: _ => eol ++ String.concat eol (flat_map Text.block_lines blocks)
  end = more_blocks eol blocks.
Proof.
  induction blocks as [|b rest IH]; [reflexivity|].
  cbn [more_blocks]. rewrite <- IH.
  transitivity (eol ++ String.concat eol
                         (Text.block_lines b ++ flat_map Text.block_lines rest)%list);
    [reflexivity|].
  now rewrite concat_block_lines.
Qed.

Lemma export_with_shape (eol : string) (bc : Blockchain) :
  export_with eol bc
  = match chain bc with
    | [] => EmptyString
    | b :: rest => "---" ++ eol ++ body_then eol b (more_blocks eol rest)
    end.
Proof.
  unfold export_with. destruct (chain bc) as [|b rest]; [reflexivity|].
  cbn [flat_map]. rewrite concat_block_lines, more_blocks_concat. reflexivity.
Qed.

Lemma split_export (eol : string) (b : Block) (rest : list Block) :
  line_end eol ->
  forallb exportable (b :: rest) = true ->
  Text.split_sections ("---" ++ eol ++ body_then eol b (more_blocks eol rest))
  = ("---" ++ eol ++ body_then eol b EmptyString)
    :: map (fun b => body_then eol b EmptyString) rest.
Proof.
  intros Heol H. cbn [forallb] in H. apply andb_true_iff in H as [Hb Hrest].
  destruct (exportable_lines b Hb) as (Hi & Ht & Hp & Hh & Hd & Hn).
  unfold Text.split_sections.
  rewrite (split_pass "---") by reflexivity.
  unfold body_then, record_text.
  rewrite (split_break_field eol "Index: " (num_to_string (index b)))
    by (reflexivity || assumption).
  rewrite (split_break_field eol "Timestamp: " (timestamp b))
    by (reflexivity || assumption).
  rewrite (split_break_field eol "Previous Hash: " (previousHash b))
    by (reflexivity || assumption).
  rewrite (split_break_field eol "Hash: " (hash b)) by (reflexivity || assumption).
  rewrite (split_break_field eol "Data: " (Text.data_text (data b)))
    by (reflexivity || assumption).
  rewrite (split_break_field eol "Nonce: " (num_to_string (nonce b)))
    by (reflexivity || assumption).
  rewrite (split_more_blocks eol rest Heol Hrest).
  reflexivity.
Qed.

Lemma text_blocks_sections (StringToNumber : string -> JsNum)
    (JSON_parse : string -> option JsVal) (eol : string) (blocks : list Block) :
  line_end eol ->
  forallb exportable blocks = true ->
  flat_map (fun section =>
              match Upload.text_block StringToNumber JSON_parse Text.trim Text.match_line
                      section with
              | Some r => [r]
              | None => []
              end) (map (fun b => body_then eol b EmptyString) blocks)
  = map (fun b => imported_with StringToNumber JSON_parse b (data_line_value b)) blocks.
Proof.
  intros Heol. induction blocks as [|b rest IH]; intros H; [reflexivity|].
  cbn [forallb] in H. apply andb_true_iff in H as [Hb Hrest].
  cbn [map flat_map].
  pose proof (text_block_section StringToNumber JSON_parse eol EmptyString b Heol
                (or_introl eq_refl) Hb) as E.
  change (EmptyString ++ body_then eol b EmptyString) with (body_then eol b EmptyString) in E.
  rewrite E, (IH Hrest). reflexivity.
Qed.

(** The records of the export, with either line end. *)
Lemma export_blocks (StringToNumber : string -> JsNum)
    (JSON_parse : string -> option JsVal) (eol : string) (bc : Blockchain) :
  line_end eol ->
  forallb exportable (chain bc) = true ->
  Upload.text_blocks StringToNumber JSON_parse Text.split_sections Text.trim Text.match_line
    (export_with eol bc)
  = map (fun b => imported_with StringToNumber JSON_parse b (data_line_value b)) (chain bc).
Proof.
  intros Heol H. unfold Upload.text_blocks. rewrite export_with_shape.
  destruct (chain bc) as [|b rest]; [reflexivity|].
  rewrite (split_export eol b rest Heol H).
  cbn [forallb] in H. apply andb_true_iff in H as [Hb Hrest].
  cbn [flat_map map].
  pose proof (text_block_section StringToNumber JSON_parse eol ("---" ++ eol) b Heol
                (or_intror eq_refl) Hb) as E.
  rewrite string_app_assoc in E.
  rewrite E.
  rewrite (text_blocks_sections StringToNumber JSON_parse eol rest Heol Hrest).
  reflexivity.
Qed.

Lemma download_txt_blocks (StringToNumber : string -> JsNum)
    (JSON_parse : string -> option JsVal) (bc : Blockchain) :
  forallb exportable (chain bc) = true ->
  Upload.text_blocks StringToNumber JSON_parse Text.split_sections Text.trim Text.match_line
    (Text.download_txt bc)
  = map (fun b => imported_with StringToNumber JSON_parse b (data_line_value b)) (chain bc).
Proof. exact (export_blocks StringToNumber JSON_parse Text.newline bc (or_introl eq_refl)). Qed.

(** *** Records with the same fields *)

Lemma same_fields_get (r r' : JsVal) (key : string) :
  same_fields r r' ->
  Upload.js_get (Upload.or_empty_object r) key = Upload.js_get (Upload.or_empty_object r') key
  /\ Upload.js_get_opt r key = Upload.js_get_opt r' key.
Proof.
  intros (props & props' & -> & -> & H).
  unfold Upload.js_get_opt, Upload.or_empty_object, Upload.js_get. cbn.
  now rewrite H.
Qed.

Lemma same_fields_nth (c c' : list JsVal) (i : nat) :
  Forall2 same_fields c c' ->
  nth i c JUndefined = nth i c' JUndefined
  \/ same_fields (nth i c JUndefined) (nth i c' JUndefined).
Proof.
  intros H. revert i. induction H as [|r r' c c' Hr _ IH]; intros i.
  - left. now destruct i.
  - destruct i as [|i]; [now right | apply IH].
Qed.

Lemma same_fields_reads (c c' : list JsVal) :
  Forall2 same_fields c c' ->
  forall i key,
    Upload.js_get (Upload.or_empty_object (nth i c JUndefined)) key
    = Upload.js_get (Upload.or_empty_object (nth i c' JUndefined)) key
    /\ Upload.js_get_opt (nth i c JUndefined) key
       = Upload.js_get_opt (nth i c' JUndefined) key.
Proof.
  intros H i key. destruct (same_fields_nth c c' i H) as [E | E].
  - now rewrite E.
  - now apply same_fields_get.
Qed.

(** The upload validator reads the records through their properties only. *)
Lemma upload_detail_same_fields (StringToNumber : string -> JsNum) (server : Blockchain)
    (d : nat) (c c' : list JsVal) (i : nat) (casc : bool) :
  Forall2 same_fields c c' ->
  Upload.upload_detail StringToNumber server d c i casc
  = Upload.upload_detail StringToNumber server d c' i casc.
Proof.
  intros H.
  assert (Hget : forall i key,
             Upload.js_get (Upload.or_empty_object (nth i c JUndefined)) key
             = Upload.js_get (Upload.or_empty_object (nth i c' JUndefined)) key)
    by (intros; apply same_fields_reads, H).
  assert (Hopt : forall i key,
             Upload.js_get_opt (nth i c JUndefined) key
             = Upload.js_get_opt (nth i c' JUndefined) key)
    by (intros; apply same_fields_reads, H).
  unfold Upload.upload_detail, Upload.previous_block. cbv zeta.
  rewrite !Hget, !Hopt. reflexivity.
Qed.

Lemma for_each_ext (f g : nat -> LoopState -> Outcome LoopState) (l : list nat)
    (st : LoopState) :
  (forall i st, f i st = g i st) ->
  Upload.for_each f l st = Upload.for_each g l st.
Proof.
  intros H. revert st. induction l as [|i l IH]; intros st; [reflexivity|].
  cbn [Upload.for_each]. rewrite H. destruct (g i st); cbn [bind]; auto.
Qed.

Lemma upload_validateChain_same_fields (StringToNumber : string -> JsNum)
    (server : Blockchain) (d : nat) (c c' : list JsVal) :
  Forall2 same_fields c c' ->
  Upload.validateChain StringToNumber server c d
  = Upload.validateChain StringToNumber server c' d.
Proof.
  intros H. unfold Upload.validateChain.
  rewrite (Forall2_length H).
  rewrite (for_each_ext (Upload.validate_step StringToNumber server d c)
                        (Upload.validate_step StringToNumber server d c')).
  - reflexivity.
  - intros i st. unfold Upload.validate_step.
    now rewrite (upload_detail_same_fields StringToNumber server d c c' i (snd st) H).
Qed.



Lemma plain_block_exportable (b : Block) :
  plain_block b = true ->
  exportable b = true /\ data_line_value b = Text.data_text (data b).
Proof.
  unfold plain_block, exportable. intros Hb.
  apply andb_true_iff in Hb as [Hb Hd]. rewrite Hb, Hd.
  split; [reflexivity | now apply plain_data_line_value].
Qed.

Lemma plain_blocks_export (StringToNumber : string -> JsNum)
    (JSON_parse : string -> option JsVal) (blocks : list Block) :
  forallb plain_block blocks = true ->
  forallb exportable blocks = true
  /\ map (fun b => imported_with StringToNumber JSON_parse b (data_line_value b)) blocks
     = map (imported StringToNumber JSON_parse) blocks.
Proof.
  induction blocks as [|b rest IH]; intros H; [now split|].
  cbn [forallb] in H. apply andb_true_iff in H as [Hb Hrest].
  destruct (plain_block_exportable b Hb) as [He Hv]. destruct (IH Hrest) as [IH1 IH2].
  cbn [forallb map]. rewrite He, IH1, IH2. unfold imported at 2. rewrite Hv.
  now split.
Qed.

Lemma txt_blocks_of_plain (StringToNumber : string -> JsNum)
    (JSON_parse : string -> option JsVal) (bc : Blockchain) :
  forallb plain_block (chain bc) = true ->
  Upload.text_blocks StringToNumber JSON_parse Text.split_sections Text.trim Text.match_line
    (Text.download_txt bc)
  = map (imported StringToNumber JSON_parse) (chain bc).
Proof.
  intros H.
  destruct (plain_blocks_export StringToNumber JSON_parse (chain bc) H) as [He Hm].
  now rewrite (download_txt_blocks StringToNumber JSON_parse bc He).
Qed.

Lemma produced_nonempty (d : nat) (bc : Blockchain) : produced d bc -> chain bc <> [].
Proof.
  intros Hp. destruct Hp as [fuel now bc H | fuel now payload bc b bc' _ Hadd].
  - unfold new_Blockchain in H. apply bind_Returns in H as (gen & _ & H).
    inversion H. discriminate.
  - destruct (addBlock_result _ _ _ _ _ _ Hadd) as (_ & _ & Hc & _).
    rewrite Hc. now destruct (chain bc).
Qed.

(** X19. The text export of a chain, read back by the text branch of
    [parseUpChain], gives one record per block, in order, with the block's
    timestamp, previousHash and hash as strings, its index and nonce as the
    numbers of their decimal texts, and as data what [JSON.parse] makes of
    the data text (the text itself when it is not JSON), provided the
    timestamp, previousHash, hash and data text of every block are plain:
    on one line, not empty, without white space at either end. *)
Theorem txt_export_reimport (StringToNumber : string -> JsNum)
    (JSON_parse : string -> option JsVal) (bc : Blockchain) :
  forallb plain_block (chain bc) = true ->
  Upload.text_blocks StringToNumber JSON_parse Text.split_sections Text.trim Text.match_line
    (Text.download_txt bc)
  = map (imported StringToNumber JSON_parse) (chain bc).
Proof. exact (txt_blocks_of_plain StringToNumber JSON_parse bc). Qed.

(** X20. A block whose data is the empty string does not come back from
    the text export: the white space the line pattern allows after
    [Data:] runs over the line break, so the record gets the text of the
    following [Nonce] line as its data. *)
Theorem empty_data_reimported_as_next_line (StringToNumber : string -> JsNum)
    (JSON_parse : string -> option JsVal) (bc : Blockchain) (k : nat) (b : Block) :
  forallb exportable (chain bc) = true ->
  nth_error (chain bc) k = Some b ->
  data b = JStr EmptyString ->
  nth_error (Upload.text_blocks StringToNumber JSON_parse Text.split_sections Text.trim
               Text.match_line (Text.download_txt bc)) k
  = Some (imported_with StringToNumber JSON_parse b ("Nonce: " ++ num_to_string (nonce b))).
Proof.
  intros He Hb Hd.
  rewrite (download_txt_blocks StringToNumber JSON_parse bc He).
  rewrite (map_nth_error _ _ _ Hb). unfold data_line_value. now rewrite Hd.
Qed.


Lemma imported_reread (StringToNumber : string -> JsNum)
    (JSON_parse : string -> option JsVal) (b : Block) :
  StringToNumber (num_to_string (index b)) = index b ->
  StringToNumber (num_to_string (nonce b)) = nonce b ->
  same_fields (imported StringToNumber JSON_parse b) (block_record (reread JSON_parse b)).
Proof.
  intros Hi Hn.
  unfold imported, imported_with, reread, block_record. cbn. rewrite Hi, Hn.
  eexists _, _. split; [reflexivity|]. split; [reflexivity|].
  intros key. cbn [Upload.own_property].
  destruct (String.eqb_spec "index" key) as [<-|]; [reflexivity|].
  destruct (String.eqb_spec "timestamp" key) as [<-|]; [reflexivity|].
  destruct (String.eqb_spec "previousHash" key) as [<-|]; [reflexivity|].
  destruct (String.eqb_spec "hash" key) as [<-|]; [reflexivity|].
  destruct (String.eqb_spec "data" key) as [<-|]; [reflexivity|].
  destruct (String.eqb_spec "nonce" key) as [<-|]; reflexivity.
Qed.

Lemma imported_records_reread (StringToNumber : string -> JsNum)
    (JSON_parse : string -> option JsVal) (blocks : list Block) :
  (forall b, In b blocks ->
     StringToNumber (num_to_string (index b)) = index b
     /\ StringToNumber (num_to_string (nonce b)) = nonce b) ->
  Forall2 same_fields (map (imported StringToNumber JSON_parse) blocks)
                      (map block_record (map (reread JSON_parse) blocks)).
Proof.
  induction blocks as [|b rest IH]; intros H; [constructor|].
  cbn [map]. constructor.
  - apply imported_reread; apply H; now left.
  - apply IH. intros b' Hb'. apply H. now right.
Qed.

(** X22. String data that is JSON text does not survive the text
    export: the record read back carries the parsed value, so when the block
    carries its own hash, the value is written differently from the string
    and SHA-256 tells the two hashed strings apart, the upload validator
    reports the block with [isHashValid] false and invalid. *)
Theorem json_text_data_flagged (StringToNumber : string -> JsNum)
    (JSON_parse : string -> option JsVal) (server bc : Blockchain) (r : Report)
    (k : nat) (b : Block) (s : string) (v : JsVal) (det : Detail) :
  forallb plain_block (chain bc) = true ->
  (forall b', In b' (chain bc) ->
     StringToNumber (num_to_string (index b')) = index b'
     /\ StringToNumber (num_to_string (nonce b')) = nonce b') ->
  nth_error (chain bc) k = Some b ->
  data b = JStr s ->
  JSON_parse s = Some v ->
  template_opt (JSON_stringify (Upload.coalesce v JUndefined))
  <> template_opt (JSON_stringify (JStr s)) ->
  hash b = computeHash b ->
  no_collision (hash_input (set_data b (Upload.coalesce v JUndefined))) (hash_input b) ->
  Upload.validateChain StringToNumber server
    (Upload.text_blocks StringToNumber JSON_parse Text.split_sections Text.trim
       Text.match_line (Text.download_txt bc)) (difficulty bc)
  = Returns r ->
  nth_error (details r) k = Some det ->
  isHashValid det = false /\ blockValid det = false.
Proof.
  intros Hplain Hnum Hb Hdata Hparse Hjson Hh Hsha Hr Hdet.
  rewrite (txt_blocks_of_plain _ _ _ Hplain) in Hr.
  rewrite (upload_validateChain_same_fields StringToNumber server (difficulty bc) _ _
             (imported_records_reread StringToNumber JSON_parse (chain bc) Hnum)) in Hr.
  destruct (upload_validateChain_details _ _ _ _ _ Hr) as (_ & _ & Hall).
  destruct (Hall _ _ Hdet) as (casc & Hd).
  assert (Hb' : nth_error (map (reread JSON_parse) (chain bc)) k = Some (reread JSON_parse b))
    by now apply map_nth_error.
  rewrite (upload_detail_block_record StringToNumber server (difficulty bc)
             (map (reread JSON_parse) (chain bc)) k (reread JSON_parse b) casc Hb') in Hd.
  injection Hd as <-.
  assert (Hre : as_uploaded (reread JSON_parse b)
                = set_data b (Upload.coalesce v JUndefined)).
  { unfold as_uploaded, reread. rewrite Hdata. cbn [Text.data_text]. rewrite Hparse.
    reflexivity. }
  assert (Hbad : String.eqb (computeHash (as_uploaded (reread JSON_parse b)))
                            (hash (reread JSON_parse b)) = false).
  { apply String.eqb_neq. rewrite Hre.
    change (hash (reread JSON_parse b)) with (hash b).
    rewrite Hh. unfold computeHash. intros E. apply Hsha in E.
    destruct (tampered_hash_input b (set_data b (Upload.coalesce v JUndefined)))
      as [[Hne _] | [_ Hin]].
    - apply tamper_data. now rewrite Hdata.
    - now apply Hne.
    - now apply Hin. }
  unfold uploaded_detail. cbv zeta. cbn [isHashValid blockValid]. rewrite Hbad.
  split; [reflexivity | now rewrite andb_false_r].
Qed.

Lemma txt_export_reimport_witness :
  Upload.text_blocks decimal_literal example_parse Text.split_sections Text.trim
    Text.match_line (Text.download_txt two_block_chain)
  = map (imported decimal_literal example_parse) (chain two_block_chain).
Proof.
  apply (txt_export_reimport decimal_literal example_parse two_block_chain).
  vm_compute. reflexivity.
Defined.

Lemma empty_data_reimported_as_next_line_witness :
  nth_error (Upload.text_blocks decimal_literal example_parse Text.split_sections Text.trim
               Text.match_line (Text.download_txt empty_data_chain)) 0
  = Some (JObj [ ("index", JNum (Int 0)); ("timestamp", JStr example_now);
                 ("previousHash", JStr "0"); ("hash", JStr "0abc");
                 ("data", JStr "Nonce: 5"); ("nonce", JNum (Int 5)) ]).
Proof.
  exact (empty_data_reimported_as_next_line decimal_literal example_parse empty_data_chain 0
           (mkBlock (Int 0) example_now (JStr EmptyString) "0" (Int 5) "0abc")
           eq_refl eq_refl eq_refl).
Defined.


Lemma json_text_data_flagged_witness :
  isValid (validateChain json_text_chain) = true
  /\ map isHashValid (details json_text_report) = [true; false].
Proof.
  split; [vm_compute; reflexivity|].
  assert (E : Upload.validateChain decimal_literal json_text_chain
                (Upload.text_blocks decimal_literal example_parse Text.split_sections
                   Text.trim Text.match_line (Text.download_txt json_text_chain))
                (difficulty json_text_chain)
              = Returns json_text_report)
    by (vm_compute; reflexivity).
  assert (Hplain : forallb plain_block (chain json_text_chain) = true)
    by (vm_compute; reflexivity).
  assert (Hnum : forall b', In b' (chain json_text_chain) ->
            decimal_literal (num_to_string (index b')) = index b'
            /\ decimal_literal (num_to_string (nonce b')) = nonce b').
  { intros b' [<- | [<- | []]]; split; vm_compute; reflexivity. }
  assert (Hjson : template_opt (JSON_stringify (Upload.coalesce (JNum (Int 7)) JUndefined))
                  <> template_opt (JSON_stringify (JStr "7")))
    by (vm_compute; discriminate).
  assert (Hsha : no_collision
                   (hash_input (set_data json_text_block
                                  (Upload.coalesce (JNum (Int 7)) JUndefined)))
                   (hash_input json_text_block)).
  { intros C. vm_compute in C. discriminate. }
  assert (Hh : hash json_text_block = computeHash json_text_block)
    by (vm_compute; reflexivity).
  destruct (json_text_data_flagged decimal_literal example_parse json_text_chain
              json_text_chain json_text_report 1 json_text_block "7" (JNum (Int 7))
              (nth 1 (details json_text_report)
                 (tag_detail (block_detail 0 [] 0 fresh_block true)))
              Hplain Hnum eq_refl eq_refl eq_refl Hjson Hh Hsha E eq_refl) as (Hbad & _).
  change (true :: isHashValid (nth 1 (details json_text_report)
                                 (tag_detail (block_detail 0 [] 0 fresh_block true))) :: nil
          = [true; false]).
  now rewrite Hbad.
Defined.

(** X23. The text export is read the same with Windows line ends: with
    CR LF in place of every LF between its lines, the text branch of
    [parseUpChain] gives the same records, provided the timestamp,
    previousHash and hash of every block are plain and its data text is
    plain or empty. *)
Theorem crlf_export_read_the_same (StringToNumber : string -> JsNum)
    (JSON_parse : string -> option JsVal) (bc : Blockchain) :
  forallb exportable (chain bc) = true ->
  Upload.text_blocks StringToNumber JSON_parse Text.split_sections Text.trim Text.match_line
    (export_with crlf bc)
  = Upload.text_blocks StringToNumber JSON_parse Text.split_sections Text.trim
      Text.match_line (Text.download_txt bc).
Proof.
  intros H.
  rewrite (export_blocks StringToNumber JSON_parse crlf bc (or_intror eq_refl) H).
  now rewrite (download_txt_blocks StringToNumber JSON_parse bc H).
Qed.

Lemma crlf_export_read_the_same_witness :
  Upload.text_blocks decimal_literal example_parse Text.split_sections Text.trim
    Text.match_line (export_with crlf two_block_chain)
  = Upload.text_blocks decimal_literal example_parse Text.split_sections Text.trim
      Text.match_line (Text.download_txt two_block_chain).
Proof.
  apply (crlf_export_read_the_same decimal_literal example_parse two_block_chain).
  vm_compute. reflexivity.
Defined.

(** ** The limit of [JSON.stringify]: lemmas *)

Lemma stringify_ok (stringifies : JsVal -> bool) (v : JsVal) :
  stringifies v = true -> Limits.stringify stringifies v = Returns (JSON_stringify v).
Proof. unfold Limits.stringify. now intros ->. Qed.

Lemma stringify_Returns (stringifies : JsVal -> bool) (v : JsVal) (t : option string) :
  Limits.stringify stringifies v = Returns t -> stringifies v = true /\ t = JSON_stringify v.
Proof.
  unfold Limits.stringify. destruct (stringifies v); intros H; [|discriminate].
  inversion H. now split.
Qed.

Lemma limits_computeHash_ok (stringifies : JsVal -> bool) (b : Block) :
  stringifies (data b) = true -> Limits.computeHash stringifies b = Returns (computeHash b).
Proof. intros H. unfold Limits.computeHash. now rewrite (stringify_ok _ _ H). Qed.

Lemma limits_computeHash_fails (stringifies : JsVal -> bool) (b : Block) :
  stringifies (data b) = false -> Limits.computeHash stringifies b = Throws RangeError.
Proof. intros H. unfold Limits.computeHash, Limits.stringify. now rewrite H. Qed.

Lemma limits_computeHash_Returns (stringifies : JsVal -> bool) (b : Block) (h : string) :
  Limits.computeHash stringifies b = Returns h ->
  stringifies (data b) = true /\ h = computeHash b.
Proof.
  intros H. destruct (stringifies (data b)) eqn:E.
  - rewrite (limits_computeHash_ok _ _ E) in H. inversion H. now split.
  - rewrite (limits_computeHash_fails _ _ E) in H. discriminate.
Qed.

Lemma limits_new_Block_ok (stringifies : JsVal -> bool) (i : JsNum) (t : string)
    (d : JsVal) (p : string) :
  stringifies d = true -> Limits.new_Block stringifies i t d p = Returns (new_Block i t d p).
Proof.
  intros H. unfold Limits.new_Block, new_Block. cbv zeta.
  now rewrite (limits_computeHash_ok stringifies (mkBlock i t d p (Int 0) EmptyString) H).
Qed.

Lemma limits_new_Block_fails (stringifies : JsVal -> bool) (i : JsNum) (t : string)
    (d : JsVal) (p : string) :
  stringifies d = false -> Limits.new_Block stringifies i t d p = Throws RangeError.
Proof.
  intros H. unfold Limits.new_Block. cbv zeta.
  now rewrite (limits_computeHash_fails stringifies (mkBlock i t d p (Int 0) EmptyString) H).
Qed.

Lemma limits_proofOfWork_ok (stringifies : JsVal -> bool) (fuel d : nat) (b : Block) :
  stringifies (data b) = true ->
  Limits.proofOfWork stringifies fuel d b = proofOfWork fuel d b.
Proof.
  revert b. induction fuel as [|fuel IH]; intros b H; [reflexivity|].
  cbn [Limits.proofOfWork proofOfWork]. rewrite (limits_computeHash_ok _ _ H).
  cbn [bind]. destruct (startsWith _ _); [reflexivity|]. now apply IH.
Qed.

Lemma limits_addBlock_ok (stringifies : JsVal -> bool) (fuel : nat) (now : string)
    (d : JsVal) (bc : Blockchain) :
  stringifies d = true ->
  Limits.addBlock stringifies fuel now d bc = addBlock fuel now d bc.
Proof.
  intros H. unfold Limits.addBlock, addBlock.
  destruct (getLastBlock bc) as [latest|]; [|reflexivity].
  rewrite (limits_new_Block_ok _ _ _ _ _ H). cbn [bind].
  now rewrite limits_proofOfWork_ok.
Qed.

Lemma limits_addBlock_fails (stringifies : JsVal -> bool) (fuel : nat) (now : string)
    (d : JsVal) (bc : Blockchain) :
  stringifies d = false -> chain bc <> [] ->
  Limits.addBlock stringifies fuel now d bc = Throws RangeError.
Proof.
  intros H Hne. unfold Limits.addBlock, getLastBlock.
  destruct (nth_error (chain bc) (List.length (chain bc) - 1)) as [latest|] eqn:E.
  - now rewrite (limits_new_Block_fails _ _ _ _ _ H).
  - apply nth_error_None in E. destruct (chain bc); [congruence | simpl in E; lia].
Qed.

Lemma limits_addBlock_empty (stringifies : JsVal -> bool) (fuel : nat) (now : string)
    (d : JsVal) (bc : Blockchain) :
  chain bc = [] -> Limits.addBlock stringifies fuel now d bc = Throws TypeError.
Proof. intros H. unfold Limits.addBlock, getLastBlock. now rewrite H. Qed.

Lemma decided_Returns {A : Type} (a : A) : decided (Returns a).
Proof. left. now exists a. Qed.

Lemma decided_bind {A B : Type} (m : Outcome A) (k : A -> Outcome B) :
  decided m -> (forall a, decided (k a)) -> decided (bind m k).
Proof.
  intros [[a ->] | [-> | ->]] Hk; cbn [bind]; [apply Hk | right; now left | right; now right].
Qed.

Lemma guarded_decided {A : Type} (ok : bool) (o : Outcome A) : guarded ok o -> decided o.
Proof. intros [a ->]. destruct ok; [left; now exists a | right; now left]. Qed.

Lemma stringify_decided (stringifies : JsVal -> bool) (v : JsVal) :
  decided (Limits.stringify stringifies v).
Proof.
  unfold Limits.stringify. destruct (stringifies v); [apply decided_Returns | right; now right].
Qed.

Lemma limits_computeHash_decided (stringifies : JsVal -> bool) (b : Block) :
  decided (Limits.computeHash stringifies b).
Proof.
  unfold Limits.computeHash.
  apply decided_bind; [apply stringify_decided | intros; apply decided_Returns].
Qed.

Lemma limits_new_Block_decided (stringifies : JsVal -> bool) (i : JsNum) (t : string)
    (d : JsVal) (p : string) :
  decided (Limits.new_Block stringifies i t d p).
Proof.
  unfold Limits.new_Block. cbv zeta.
  apply decided_bind; [apply limits_computeHash_decided | intros; apply decided_Returns].
Qed.

Lemma guarded_true {A : Type} (o : Outcome A) : guarded true o -> exists a, o = Returns a.
Proof. intros [a ->]. now exists a. Qed.

Section LimitsFacts.
Variable stringifies : JsVal -> bool.
Variable StringToNumber : string -> JsNum.
Variable server : Blockchain.
Variable d : nat.
Variable c : list JsVal.

Lemma limits_previous_block_decided (prev : JsVal) :
  decided (Limits.previous_block stringifies StringToNumber prev).
Proof.
  unfold Limits.previous_block.
  apply decided_bind; [exact (guarded_decided _ _ (js_Number_guarded _ _))|]. intros pIndex.
  apply decided_bind; [exact (guarded_decided _ _ (js_String_guarded _))|]. intros pTs.
  apply decided_bind; [exact (guarded_decided _ _ (js_String_guarded _))|]. intros pPrev.
  apply decided_bind; [apply limits_new_Block_decided|]. intros prevTemp.
  apply decided_bind; [exact (guarded_decided _ _ (js_Number_guarded _ _))|]. intros pNonce.
  apply decided_Returns.
Qed.

Lemma limits_upload_detail_decided (i : nat) (casc : bool) :
  decided (Limits.upload_detail stringifies StringToNumber server d c i casc).
Proof.
  unfold Limits.upload_detail. cbv zeta.
  apply decided_bind; [exact (guarded_decided _ _ (js_Number_guarded _ _))|]. intros bIndex.
  apply decided_bind; [exact (guarded_decided _ _ (js_String_guarded _))|]. intros prevHashStr.
  apply decided_bind; [exact (guarded_decided _ _ (js_String_guarded _))|]. intros hashStr.
  apply decided_bind; [exact (guarded_decided _ _ (js_String_guarded _))|]. intros ts.
  apply decided_bind; [exact (guarded_decided _ _ (js_Number_guarded _ _))|]. intros nonceNum.
  apply decided_bind; [apply limits_new_Block_decided|]. intros temp0.
  apply decided_bind; [apply limits_computeHash_decided|]. intros reHash.
  apply decided_bind.
  { destruct (Nat.eqb i 0); [apply decided_Returns|].
    exact (guarded_decided _ _ (js_Number_guarded _ _)). }
  intros prevIndex.
  apply decided_bind; [|intros; apply decided_Returns].
  destruct (Nat.eqb i 0); [apply decided_Returns|]. cbv zeta.
  apply decided_bind; [apply limits_previous_block_decided|]. intros prevTemp.
  apply decided_bind; [apply limits_computeHash_decided | intros; apply decided_Returns].
Qed.

Lemma limits_previous_block_ok (prev : JsVal) :
  stringifies (Upload.js_get prev "data") = true ->
  Limits.previous_block stringifies StringToNumber prev
  = Upload.previous_block StringToNumber prev.
Proof.
  intros H. unfold Limits.previous_block, Upload.previous_block.
  destruct (Upload.js_Number StringToNumber _) as [pIndex| |]; cbn [bind]; try reflexivity.
  destruct (Upload.js_String _) as [pTs| |]; cbn [bind]; try reflexivity.
  destruct (Upload.js_String _) as [pPrev| |]; cbn [bind]; try reflexivity.
  rewrite (limits_new_Block_ok _ _ _ _ _ H). reflexivity.
Qed.

Lemma previous_block_data (prev : JsVal) (prevTemp : Block) :
  Upload.previous_block StringToNumber prev = Returns prevTemp ->
  data prevTemp = Upload.js_get prev "data".
Proof. intros H. apply previous_block_fields in H. apply H. Qed.

(** Where [JSON.stringify] returns on the data hashed at a position, the
    detail is the one computed without regard to the limit. *)
Lemma limits_upload_detail_ok (i : nat) (casc : bool) :
  hashes_at stringifies c i = true ->
  Limits.upload_detail stringifies StringToNumber server d c i casc
  = Upload.upload_detail StringToNumber server d c i casc.
Proof.
  unfold hashes_at, hashed, current_record, read_data. intros H.
  cbn [forallb] in H. apply andb_true_iff in H as [Hcur Hprev].
  unfold Limits.upload_detail, Upload.upload_detail. cbv zeta.
  destruct (Upload.js_Number StringToNumber _) as [bIndex| |]; cbn [bind]; try reflexivity.
  destruct (Upload.js_String _) as [prevHashStr| |]; cbn [bind]; try reflexivity.
  destruct (Upload.js_String _) as [hashStr| |]; cbn [bind]; try reflexivity.
  destruct (Upload.js_String _) as [ts| |]; cbn [bind]; try reflexivity.
  destruct (Upload.js_Number StringToNumber _) as [nonceNum| |]; cbn [bind]; try reflexivity.
  rewrite (limits_new_Block_ok _ _ _ _ _ Hcur). cbn [bind].
  rewrite limits_computeHash_ok by exact Hcur. cbn [bind].
  destruct i as [|k]; [reflexivity|].
  cbn [Nat.eqb]. simpl Nat.sub. rewrite Nat.sub_0_r.
  cbn [forallb] in Hprev. rewrite andb_true_r in Hprev.
  destruct (Upload.js_Number StringToNumber _) as [prevIndex| |]; cbn [bind]; try reflexivity.
  rewrite (limits_previous_block_ok _ Hprev).
  destruct (Upload.previous_block StringToNumber _) as [prevTemp| |] eqn:E; cbn [bind];
    try reflexivity.
  rewrite limits_computeHash_ok; [reflexivity|].
  now rewrite (previous_block_data _ _ E).
Qed.

Lemma limits_previous_block_Returns (prev : JsVal) (prevTemp : Block) :
  Limits.previous_block stringifies StringToNumber prev = Returns prevTemp ->
  stringifies (Upload.js_get prev "data") = true.
Proof.
  unfold Limits.previous_block. intros H.
  apply bind_Returns in H as (pIndex & _ & H).
  apply bind_Returns in H as (pTs & _ & H).
  apply bind_Returns in H as (pPrev & _ & H).
  apply bind_Returns in H as (blk & Hb & _).
  destruct (stringifies (Upload.js_get prev "data")) eqn:E; [reflexivity|].
  rewrite (limits_new_Block_fails _ _ _ _ _ E) in Hb. discriminate.
Qed.

Lemma limits_upload_detail_Returns (i : nat) (casc : bool) (det : Detail) :
  Limits.upload_detail stringifies StringToNumber server d c i casc = Returns det ->
  hashes_at stringifies c i = true.
Proof.
  unfold Limits.upload_detail. cbv zeta. intros H.
  apply bind_Returns in H as (bIndex & _ & H).
  apply bind_Returns in H as (prevHashStr & _ & H).
  apply bind_Returns in H as (hashStr & _ & H).
  apply bind_Returns in H as (ts & _ & H).
  apply bind_Returns in H as (nonceNum & _ & H).
  apply bind_Returns in H as (temp0 & Htemp & H).
  apply bind_Returns in H as (reHash & _ & H).
  apply bind_Returns in H as (prevIndex & _ & H).
  apply bind_Returns in H as (isPrev & Hprev & _).
  unfold hashes_at, hashed, current_record, read_data. cbn [forallb].
  apply andb_true_iff. split.
  - match type of Htemp with
    | Limits.new_Block _ _ _ ?v _ = _ => destruct (stringifies v) eqn:E; [reflexivity|]
    end.
    rewrite (limits_new_Block_fails _ _ _ _ _ E) in Htemp. discriminate.
  - destruct i as [|k]; [reflexivity|].
    cbn [Nat.eqb] in Hprev. simpl Nat.sub in Hprev. rewrite Nat.sub_0_r in Hprev.
    cbv zeta in Hprev. apply bind_Returns in Hprev as (prevTemp & Hpt & _).
    cbn [forallb]. rewrite andb_true_r.
    exact (limits_previous_block_Returns _ _ Hpt).
Qed.

Lemma limits_previous_block_TypeError (prev : JsVal) :
  Limits.previous_block stringifies StringToNumber prev = Throws TypeError ->
  Upload.previous_block StringToNumber prev = Throws TypeError.
Proof.
  destruct (stringifies (Upload.js_get prev "data")) eqn:E.
  - now rewrite (limits_previous_block_ok _ E).
  - unfold Limits.previous_block, Upload.previous_block.
    destruct (Upload.js_Number StringToNumber _) as [pIndex| |]; cbn [bind]; try easy.
    destruct (Upload.js_String _) as [pTs| |]; cbn [bind]; try easy.
    destruct (Upload.js_String _) as [pPrev| |]; cbn [bind]; try easy.
    rewrite (limits_new_Block_fails _ _ _ _ _ E). discriminate.
Qed.

(** A [TypeError] comes from a conversion, which does not depend on the
    limit. *)
Lemma limits_upload_detail_TypeError (i : nat) (casc : bool) :
  Limits.upload_detail stringifies StringToNumber server d c i casc = Throws TypeError ->
  Upload.upload_detail StringToNumber server d c i casc = Throws TypeError.
Proof.
  unfold Limits.upload_detail, Upload.upload_detail. cbv zeta.
  destruct (Upload.js_Number StringToNumber _) as [bIndex| |]; cbn [bind]; try easy.
  destruct (Upload.js_String _) as [prevHashStr| |]; cbn [bind]; try easy.
  destruct (Upload.js_String _) as [hashStr| |]; cbn [bind]; try easy.
  destruct (Upload.js_String _) as [ts| |]; cbn [bind]; try easy.
  destruct (Upload.js_Number StringToNumber _) as [nonceNum| |]; cbn [bind]; try easy.
  match goal with
  | |- context [Limits.new_Block _ _ _ ?v _] => destruct (stringifies v) eqn:E
  end.
  2:{ rewrite (limits_new_Block_fails _ _ _ _ _ E). discriminate. }
  rewrite (limits_new_Block_ok _ _ _ _ _ E). cbn [bind].
  rewrite limits_computeHash_ok by exact E. cbn [bind].
  destruct i as [|k]; [easy|].
  cbn [Nat.eqb]. simpl Nat.sub. rewrite Nat.sub_0_r.
  destruct (Upload.js_Number StringToNumber _) as [prevIndex| |]; cbn [bind]; try easy.
  destruct (stringifies (Upload.js_get (Upload.or_empty_object (nth k c JUndefined)) "data"))
    eqn:Ep.
  - rewrite (limits_previous_block_ok _ Ep).
    destruct (Upload.previous_block StringToNumber _) as [prevTemp| |] eqn:Et; cbn [bind];
      try easy.
    rewrite limits_computeHash_ok; [easy|].
    now rewrite (previous_block_data _ _ Et).
  - destruct (Limits.previous_block stringifies StringToNumber _) as [prevTemp| e |] eqn:Et;
      cbn [bind].
    + apply limits_previous_block_Returns in Et. congruence.
    + intros H. inversion H; subst e.
      now rewrite (limits_previous_block_TypeError _ Et).
    + discriminate.
Qed.

(** Where every conversion at a position returns, the only failure left is
    that of [JSON.stringify]. *)
Lemma limits_upload_detail_range (i : nat) (casc : bool) :
  converts_at c i = true -> hashes_at stringifies c i = false ->
  Limits.upload_detail stringifies StringToNumber server d c i casc = Throws RangeError.
Proof.
  intros Hconv Hhash.
  destruct (limits_upload_detail_decided i casc) as [[det Hdet] | [H | H]]; [| |exact H].
  - apply limits_upload_detail_Returns in Hdet. congruence.
  - apply limits_upload_detail_TypeError in H.
    destruct (upload_detail_guarded StringToNumber server d c i casc) as [det Hdet].
    rewrite Hconv in Hdet. congruence.
Qed.

(** *** The loop *)

Lemma limits_for_each_decided (positions : list nat) (st : LoopState) :
  decided (Upload.for_each (Limits.validate_step stringifies StringToNumber server d c)
             positions st).
Proof.
  revert st. induction positions as [|i positions IH]; intros st.
  - apply decided_Returns.
  - cbn [Upload.for_each]. apply decided_bind; [|intros; apply IH].
    unfold Limits.validate_step.
    apply decided_bind; [apply limits_upload_detail_decided | intros; apply decided_Returns].
Qed.

Lemma limits_for_each_ok (positions : list nat) (st : LoopState) :
  forallb (hashes_at stringifies c) positions = true ->
  Upload.for_each (Limits.validate_step stringifies StringToNumber server d c) positions st
  = Upload.for_each (Upload.validate_step StringToNumber server d c) positions st.
Proof.
  revert st. induction positions as [|i positions IH]; intros st H; [reflexivity|].
  cbn [forallb] in H. apply andb_true_iff in H as [Hi H].
  cbn [Upload.for_each]. unfold Limits.validate_step at 1, Upload.validate_step at 1.
  rewrite (limits_upload_detail_ok i (snd st) Hi).
  destruct (Upload.upload_detail _ _ _ _ _ _) as [det| |]; cbn [bind]; try reflexivity.
  now apply IH.
Qed.

Lemma limits_for_each_Returns (positions : list nat) (st st' : LoopState) :
  Upload.for_each (Limits.validate_step stringifies StringToNumber server d c) positions st
  = Returns st' ->
  forallb (hashes_at stringifies c) positions = true.
Proof.
  revert st. induction positions as [|i positions IH]; intros st H; [reflexivity|].
  cbn [Upload.for_each] in H. apply bind_Returns in H as (st1 & H1 & H).
  unfold Limits.validate_step in H1. apply bind_Returns in H1 as (det & Hdet & _).
  cbn [forallb]. rewrite (limits_upload_detail_Returns _ _ _ Hdet). exact (IH _ H).
Qed.

Lemma limits_for_each_range (positions : list nat) (st : LoopState) :
  forallb (converts_at c) positions = true ->
  forallb (hashes_at stringifies c) positions = false ->
  Upload.for_each (Limits.validate_step stringifies StringToNumber server d c) positions st
  = Throws RangeError.
Proof.
  revert st. induction positions as [|i positions IH]; intros st Hc Hh; [discriminate|].
  cbn [forallb] in Hc, Hh. apply andb_true_iff in Hc as [Hci Hc].
  cbn [Upload.for_each]. unfold Limits.validate_step at 1.
  destruct (hashes_at stringifies c i) eqn:Ei.
  - rewrite (limits_upload_detail_ok i (snd st) Ei).
    destruct (upload_detail_guarded StringToNumber server d c i (snd st)) as [det Hdet].
    rewrite Hci in Hdet. rewrite Hdet. cbn [bind]. now apply IH.
  - now rewrite (limits_upload_detail_range i (snd st) Hci Ei).
Qed.

End LimitsFacts.

(** What [validateChain(chain, difficulty)] does: it returns the report
    computed without regard to the limit when every conversion returns and
    [JSON.stringify] returns on every data value it hashes, and throws
    otherwise: a [TypeError] when [JSON.stringify] returns on the data, a
    [RangeError] when the conversions return. *)
Lemma limits_validateChain_outcome (stringifies : JsVal -> bool)
    (StringToNumber : string -> JsNum) (server : Blockchain) (c : list JsVal) (d : nat) :
  exists r e,
    Limits.validateChain stringifies StringToNumber server c d
    = (if converts_all c && hashes_all stringifies c then Returns r else Throws e)
    /\ (converts_all c = true -> Upload.validateChain StringToNumber server c d = Returns r)
    /\ (e = TypeError \/ e = RangeError)
    /\ (hashes_all stringifies c = true -> e = TypeError)
    /\ (converts_all c = true -> hashes_all stringifies c = false -> e = RangeError).
Proof.
  destruct (upload_validateChain_guarded StringToNumber server c d) as [r Hr].
  unfold Limits.validateChain, hashes_all.
  destruct (forallb (hashes_at stringifies c) (seq 0 (List.length c))) eqn:Eh.
  - rewrite (limits_for_each_ok stringifies StringToNumber server d c _ _ Eh).
    fold (Upload.validateChain StringToNumber server c d). rewrite Hr.
    rewrite andb_true_r. exists r, TypeError.
    split; [reflexivity|]. split; [now intros ->|]. split; [now left|].
    split; [reflexivity | discriminate].
  - rewrite andb_false_r.
    destruct (converts_all c) eqn:Ec.
    + exists r, RangeError. unfold converts_all in Ec.
      rewrite (limits_for_each_range stringifies StringToNumber server d c _ _ Ec Eh).
      split; [reflexivity|]. split; [now intros _|]. split; [now right|].
      split; [discriminate | reflexivity].
    + destruct (limits_for_each_decided stringifies StringToNumber server d c
                  (seq 0 (List.length c)) initial_loop_state) as [[st Hst] | [H | H]].
      * apply limits_for_each_Returns in Hst. congruence.
      * exists r, TypeError. rewrite H.
        split; [reflexivity|]. split; [discriminate|]. split; [now left|].
        split; [reflexivity | discriminate].
      * exists r, RangeError. rewrite H.
        split; [reflexivity|]. split; [discriminate|]. split; [now right|].
        split; discriminate.
Qed.

Lemma limits_validateChain_Returns (stringifies : JsVal -> bool)
    (StringToNumber : string -> JsNum) (server : Blockchain) (c : list JsVal) (d : nat)
    (r : Report) :
  Limits.validateChain stringifies StringToNumber server c d = Returns r ->
  Upload.validateChain StringToNumber server c d = Returns r.
Proof.
  intros H.
  destruct (limits_validateChain_outcome stringifies StringToNumber server c d)
    as (r0 & e & Hl & Hu & _).
  rewrite Hl in H.
  destruct (converts_all c) eqn:Ec; [|discriminate].
  destruct (hashes_all stringifies c); [|discriminate].
  cbn [andb] in H. injection H as <-. now apply Hu.
Qed.

Lemma addBlock_not_thrown (fuel : nat) (now : string) (payload : JsVal) (bc : Blockchain)
    (e : Exn) :
  chain bc <> [] -> addBlock fuel now payload bc <> Throws e.
Proof.
  intros Hne H. unfold addBlock, getLastBlock in H.
  destruct (nth_error (chain bc) (List.length (chain bc) - 1)) as [latest|] eqn:E.
  - destruct (proofOfWork fuel (difficulty bc) _) eqn:P; try discriminate.
    clear H. revert P. generalize (new_Block (num_add (index latest) (Int 1)) now payload
                                               (hash latest)).
    induction fuel as [|fuel IH]; intros blk P; [discriminate|].
    rewrite proofOfWork_unfold in P.
    destruct (startsWith (computeHash blk) (targetPrefix (difficulty bc)));
      [discriminate | exact (IH _ P)].
  - apply nth_error_None in E. destruct (chain bc); [congruence | simpl in E; lia].
Qed.

(** X6. [addBlock] with the failure of [JSON.stringify] written out.  On
    an empty chain it throws a [TypeError], as there is no last block.  On a
    chain with a block it throws a [RangeError] when [JSON.stringify] fails
    on the payload, and otherwise does what [addBlock] does, which is not to
    throw.  A chain built by the constructor and [addBlock] calls always has
    a block. *)
Theorem addBlock_outcome (stringifies : JsVal -> bool) (d fuel : nat) (now : string)
    (payload : JsVal) (bc : Blockchain) :
  Limits.addBlock stringifies fuel now payload bc
  = match chain bc with
    | [] => Throws TypeError
    | _ :: _ => if stringifies payload then addBlock fuel now payload bc
                else Throws RangeError
    end
  /\ (chain bc <> [] -> stringifies payload = true ->
      forall e, Limits.addBlock stringifies fuel now payload bc <> Throws e)
  /\ (produced d bc -> chain bc <> []).
Proof.
  assert (E : Limits.addBlock stringifies fuel now payload bc
              = match chain bc with
                | [] => Throws TypeError
                | _ :: _ => if stringifies payload then addBlock fuel now payload bc
                            else Throws RangeError
                end).
  { destruct (chain bc) as [|b rest] eqn:Ec.
    - now apply limits_addBlock_empty.
    - destruct (stringifies payload) eqn:Es.
      + now apply limits_addBlock_ok.
      + apply limits_addBlock_fails; [exact Es | congruence]. }
  split; [exact E|]. split.
  - intros Hne Hs e. rewrite E, Hs.
    destruct (chain bc) as [|b rest] eqn:Ec; [congruence|].
    apply addBlock_not_thrown. congruence.
  - apply produced_nonempty.
Qed.

Lemma addBlock_outcome_witness :
  Limits.addBlock example_stack 200 example_later (JArr [JNull]) genesis_only_chain
  = Returns (second_block, two_block_chain)
  /\ (forall e,
        Limits.addBlock example_stack 200 example_later (JArr [JNull]) genesis_only_chain
        <> Throws e)
  /\ Limits.addBlock no_stack 200 example_later (JArr [JNull]) genesis_only_chain
     = Throws RangeError
  /\ Limits.addBlock example_stack 200 example_later (JArr [JNull]) (mkBlockchain 1 [])
     = Throws TypeError.
Proof.
  assert (Hne : chain genesis_only_chain <> []) by discriminate.
  pose proof (addBlock_outcome example_stack 1 200 example_later (JArr [JNull])
                genesis_only_chain) as (H1 & H2 & _).
  pose proof (addBlock_outcome no_stack 1 200 example_later (JArr [JNull])
                genesis_only_chain) as (H3 & _).
  pose proof (addBlock_outcome example_stack 1 200 example_later (JArr [JNull])
                (mkBlockchain 1 [])) as (H4 & _).
  split; [rewrite H1; vm_compute; reflexivity|].
  split; [exact (H2 Hne eq_refl)|].
  split; [rewrite H3; reflexivity | rewrite H4; reflexivity].
Defined.





(** X13. When [parseUpChain] falls back to the text format, every record
    it returns has exactly the six canonical keys with numbers under
    [index] and [nonce], and there is at least one record.  Validating the
    records returns a report with one detail per record when
    [JSON.stringify] returns on every data value that is hashed, and throws
    a [RangeError] otherwise: no conversion of such a record fails. *)
Theorem text_upload_validates (StringToNumber : string -> JsNum)
    (JSON_parse yaml_load : string -> option JsVal)
    (split_sections : string -> list string) (trim : string -> string)
    (match_line : string -> string -> option string) (raw : string)
    (blocks : list JsVal) :
  Upload.try_document (JSON_parse raw) = None ->
  Upload.try_document (yaml_load raw) = None ->
  Upload.parseUpChain StringToNumber JSON_parse yaml_load split_sections trim match_line raw
  = Returns blocks ->
  blocks <> []
  /\ Forall text_shaped blocks
  /\ forall stringifies server d,
       exists r,
         Limits.validateChain stringifies StringToNumber server blocks d
         = (if hashes_all stringifies blocks then Returns r else Throws RangeError)
         /\ List.length (details r) = List.length blocks.
Proof.
  intros Hj Hy Hparse.
  rewrite parseUpChain_cases, Hj, Hy in Hparse.
  pose proof (text_blocks_shaped StringToNumber JSON_parse split_sections trim match_line raw)
    as Hshape.
  destruct (Upload.text_blocks _ _ _ _ _ raw) as [|b rest] eqn:E; [discriminate|].
  inversion Hparse; subst blocks. clear Hparse.
  split; [discriminate|]. split; [exact Hshape|].
  intros stringifies server d.
  destruct (limits_validateChain_outcome stringifies StringToNumber server (b :: rest) d)
    as (r & e & Hl & Hu & _ & _ & He).
  pose proof (text_shaped_converts _ Hshape) as Hc.
  rewrite Hc in Hl. specialize (Hu Hc). specialize (He Hc).
  exists r. split.
  - rewrite Hl. cbn [andb]. destruct (hashes_all stringifies (b :: rest)); [reflexivity|].
    now rewrite He.
  - exact (proj1 (proj2 (upload_validateChain_details _ _ _ _ _ Hu))).
Qed.

Lemma text_upload_validates_witness :
  Upload.parseUpChain decimal_literal example_parse (fun _ => None) Text.split_sections
    Text.trim Text.match_line (Text.download_txt two_block_chain)
  = Returns two_block_import
  /\ (exists r,
        Limits.validateChain example_stack decimal_literal two_block_chain
          two_block_import 1 = Returns r
        /\ List.length (details r) = 2)
  /\ Limits.validateChain no_stack decimal_literal two_block_chain two_block_import 1
     = Throws RangeError.
Proof.
  assert (Hj : Upload.try_document (example_parse (Text.download_txt two_block_chain)) = None)
    by (vm_compute; reflexivity).
  assert (E : Upload.parseUpChain decimal_literal example_parse (fun _ => None)
                Text.split_sections Text.trim Text.match_line
                (Text.download_txt two_block_chain)
              = Returns two_block_import) by (vm_compute; reflexivity).
  split; [exact E|].
  destruct (text_upload_validates decimal_literal example_parse (fun _ => None)
              Text.split_sections Text.trim Text.match_line
              (Text.download_txt two_block_chain) two_block_import Hj eq_refl E)
    as (_ & _ & Hv).
  assert (Hs : hashes_all example_stack two_block_import = true) by (vm_compute; reflexivity).
  assert (Hn : hashes_all no_stack two_block_import = false) by (vm_compute; reflexivity).
  split.
  - destruct (Hv example_stack two_block_chain 1) as (r & Hr & Hlen).
    rewrite Hs in Hr. exists r. split; [exact Hr | exact Hlen].
  - destruct (Hv no_stack two_block_chain 1) as (r & Hr & _).
    rewrite Hn in Hr. exact Hr.
Defined.



(** ** The link to the previous block, in both validators *)

(** C4. [validateChain] has a detail for every block.  At a position
    after the first, [isPrevValid] compares the block's previousHash with
    the hash recomputed from the fields of the block before it, and does not
    depend on the hash stored in that block; at the first position it
    compares previousHash with the string 0.  The upload validator, when it
    returns, has a detail for every record and does the same on the coerced
    previousHash and on the block it rebuilds from the record before, in
    which the stored hash of that record is not read. *)
Theorem isPrevValid_recomputes_previous :
  (forall bc i cur,
     nth_error (chain bc) i = Some cur ->
     exists det,
       nth_error (details (validateChain bc)) i = Some det
       /\ match i with
          | O => isPrevValid det = String.eqb (previousHash cur) "0"
          | S k =>
              exists prev,
                nth_error (chain bc) k = Some prev
                /\ isPrevValid det = String.eqb (previousHash cur) (computeHash prev)
                /\ forall h,
                     exists det',
                       nth_error
                         (details (validateChain (with_block bc k (set_hash prev h)))) (S k)
                       = Some det'
                       /\ isPrevValid det' = isPrevValid det
          end)
  /\ (forall stringifies StringToNumber server c d r,
        Limits.validateChain stringifies StringToNumber server c d = Returns r ->
        List.length (details r) = List.length c
        /\ forall i,
             i < List.length c ->
             exists det prevHashStr,
               nth_error (details r) i = Some det
               /\ Upload.js_String (read_previousHash (current_record c i))
                  = Returns prevHashStr
               /\ match i with
                  | O => isPrevValid det = String.eqb prevHashStr "0"
                  | S k =>
                      exists prevTemp,
                        Upload.previous_block StringToNumber (current_record c k)
                        = Returns prevTemp
                        /\ rebuilt_from_canonical StringToNumber (current_record c k) prevTemp
                        /\ isPrevValid det = String.eqb prevHashStr (computeHash prevTemp)
                  end)
  /\ (forall StringToNumber v props,
        Upload.previous_block StringToNumber (JObj (("hash", v) :: props))
        = Upload.previous_block StringToNumber (JObj props)).
Proof.
  assert (Hexists : forall bc i cur,
            nth_error (chain bc) i = Some cur ->
            exists det, nth_error (details (validateChain bc)) i = Some det).
  { intros bc i cur Hcur.
    destruct (validateChain_details bc) as (_ & Hlen & _).
    destruct (nth_error (details (validateChain bc)) i) as [det|] eqn:E; [now exists det|].
    apply nth_error_None in E.
    assert (i < List.length (chain bc)) by (apply nth_error_Some; congruence). lia. }
  assert (Hread : forall bc i cur det,
            nth_error (chain bc) i = Some cur ->
            nth_error (details (validateChain bc)) i = Some det ->
            exists casc, det = block_detail (difficulty bc) (chain bc) i cur casc).
  { intros bc i cur det Hcur Hdet.
    destruct (validateChain_details bc) as (_ & _ & Hall).
    destruct (Hall _ _ Hdet) as (cur' & casc & Hcur' & ->).
    rewrite Hcur in Hcur'. inversion Hcur'; subst cur'. now exists casc. }
  split; [|split].
  - intros bc i cur Hcur.
    destruct (Hexists bc i cur Hcur) as [det Hdet]. exists det. split; [exact Hdet|].
    destruct (Hread bc i cur det Hcur Hdet) as [casc ->].
    destruct i as [|k]; [reflexivity|].
    assert (Hk : k < List.length (chain bc)).
    { apply Nat.lt_succ_l. apply nth_error_Some. congruence. }
    destruct (nth_error (chain bc) k) as [prev|] eqn:Hprev.
    2:{ apply nth_error_None in Hprev. lia. }
    exists prev. split; [reflexivity|].
    unfold block_detail. simpl Nat.sub. rewrite Nat.sub_0_r, Hprev. simpl isPrevValid.
    split; [reflexivity|].
    intros h.
    assert (Hcur2 : nth_error (chain (with_block bc k (set_hash prev h))) (S k) = Some cur).
    { simpl chain. rewrite nth_error_replace_nth.
      replace (Nat.eqb (S k) k) with false by (symmetry; apply Nat.eqb_neq; lia).
      exact Hcur. }
    destruct (Hexists _ _ _ Hcur2) as [det' Hdet']. exists det'. split; [exact Hdet'|].
    destruct (Hread _ _ _ _ Hcur2 Hdet') as [casc2 ->].
    unfold block_detail. simpl Nat.sub. rewrite Nat.sub_0_r. simpl chain.
    rewrite nth_error_replace_nth, Nat.eqb_refl, Hprev. simpl.
    reflexivity.
  - intros stringifies StringToNumber server c d r H.
    apply limits_validateChain_Returns in H.
    destruct (upload_validateChain_details _ _ _ _ _ H) as (_ & Hlen & Hall).
    split; [exact Hlen|]. intros i Hi.
    destruct (nth_error (details r) i) as [det|] eqn:Hdet.
    2:{ apply nth_error_None in Hdet. lia. }
    destruct (Hall _ _ Hdet) as (casc & Hd).
    destruct (upload_detail_inv _ _ _ _ _ _ _ Hd)
      as (bIndex & prevHashStr & ? & ? & ? & _ & Hp & _ & _ & _ & _ & _ & _ & _ & _ & _ & Hrest).
    exists det, prevHashStr. split; [reflexivity|]. split; [exact Hp|].
    destruct i as [|k]; [exact (proj1 Hrest)|].
    destruct Hrest as (prevIndex & prevTemp & _ & Hpt & Hv & _).
    exists prevTemp. split; [exact Hpt|]. split; [|exact Hv].
    now apply previous_block_fields.
  - intros StringToNumber v props. reflexivity.
Qed.

Lemma isPrevValid_recomputes_previous_witness :
  option_map hash (nth_error (chain forged_chain) 1) = Some "0bad"
  /\ option_map isPrevValid (nth_error (details (validateChain forged_chain)) 2) = Some true
  /\ option_map isPrevValid (nth_error (details (validateChain three_block_chain)) 2) = Some true
  /\ Limits.validateChain example_stack decimal_literal three_block_chain forged_upload 1
     = Returns forged_upload_report
  /\ List.length (details forged_upload_report) = 3
  /\ option_map isPrevValid (nth_error (details forged_upload_report) 2) = Some true.
Proof.
  split; [reflexivity|].
  assert (E2 : nth_error (chain three_block_chain) 2
               = Some (nth 2 (chain three_block_chain) fresh_block)) by reflexivity.
  destruct (proj1 isPrevValid_recomputes_previous three_block_chain 2 _ E2)
    as (det & Edet & prev & Hprev & Hv & Hstable).
  assert (Hp : prev = second_block) by (vm_compute in Hprev; now inversion Hprev).
  subst prev.
  assert (Hdet : isPrevValid det = true).
  { vm_compute in Edet. now inversion Edet. }
  destruct (Hstable "0bad") as (det' & Edet' & Hsame).
  split.
  { change (validateChain forged_chain)
      with (validateChain (with_block three_block_chain 1 (set_hash second_block "0bad"))).
    rewrite Edet'. simpl. now rewrite Hsame, Hdet. }
  split; [rewrite Edet; simpl; now rewrite Hdet|].
  assert (E : Limits.validateChain example_stack decimal_literal three_block_chain
                forged_upload 1
              = Returns forged_upload_report) by (vm_compute; reflexivity).
  split; [exact E|].
  destruct (proj1 (proj2 isPrevValid_recomputes_previous) example_stack decimal_literal
              three_block_chain forged_upload 1 forged_upload_report E) as (Hlen & Hall).
  split; [exact Hlen|].
  destruct (Hall 2 ltac:(vm_compute; lia))
    as (udet & prevHashStr & Hudet & Hps & prevTemp & Hpt & _ & Huv).
  rewrite Hudet. simpl. rewrite Huv.
  vm_compute in Hps. injection Hps as <-.
  vm_compute in Hpt. injection Hpt as <-.
  vm_compute. reflexivity.
Defined.

(** ** Blocks with overwritten fields: lemmas *)

Lemma raw_for_each_app (body : nat -> Raw.LoopState -> Outcome Raw.LoopState)
    (l1 l2 : list nat) (st : Raw.LoopState) :
  Raw.for_each body (l1 ++ l2) st = (st' <- Raw.for_each body l1 st ;; Raw.for_each body l2 st').
Proof.
  revert st. induction l1 as [|i l1 IH]; intros st; [reflexivity|].
  simpl. destruct (body i st); simpl; auto.
Qed.

Lemma raw_record_detail_details (st : Raw.LoopState) (det : Raw.Detail) :
  Raw.details (fst (Raw.record_detail st det)) = (Raw.details (fst st) ++ [det])%list.
Proof.
  destruct st as [r flag]. unfold Raw.record_detail.
  destruct (negb (Raw.blockValid det)); reflexivity.
Qed.

Lemma raw_record_detail_flag (st : Raw.LoopState) (det : Raw.Detail) :
  snd (Raw.record_detail st det) = snd st || negb (Raw.blockValid det).
Proof.
  destruct st as [r flag]. unfold Raw.record_detail.
  destruct (negb (Raw.blockValid det)); simpl; [now rewrite orb_true_r | now rewrite orb_false_r].
Qed.

Lemma raw_block_detail_flags (stringifies : JsVal -> bool) (d : nat) (c : list Raw.Block)
    (i : nat) (cur : Raw.Block) (casc : bool) (det : Raw.Detail) :
  Raw.block_detail stringifies d c i cur casc = Returns det ->
  Raw.cascaded det = casc
  /\ (Raw.isHashValid det = false -> Raw.blockValid det = false)
  /\ (exists stored, Raw.hash cur = JStr stored)
  /\ exists h, Raw.computeHash stringifies cur = Returns h
               /\ Raw.isHashValid det = Raw.strict_eq (JStr h) (Raw.hash cur).
Proof.
  unfold Raw.block_detail. intros H.
  apply bind_Returns in H as (h & Hh & H).
  apply bind_Returns in H as (pow & Hpow & H).
  apply bind_Returns in H as (idx & _ & H).
  apply bind_Returns in H as (prev & _ & H).
  inversion H; subst det; clear H. cbn.
  split; [reflexivity|]. split; [|split].
  - intros ->. now rewrite andb_false_r.
  - destruct (Raw.hash cur) as [ | | ? | ? | stored | ? | ? ]; try discriminate.
    now exists stored.
  - now exists h.
Qed.

(** What the loop has done after [n] positions. *)
Lemma raw_prefix (stringifies : JsVal -> bool) (d : nat) (c : list Raw.Block) (n : nat)
    (st : Raw.LoopState) :
  n <= List.length c ->
  Raw.for_each (Raw.validate_step stringifies d c) (seq 0 n) Raw.initial_loop_state
  = Returns st ->
  List.length (Raw.details (fst st)) = n
  /\ snd st = negb (forallb Raw.blockValid (Raw.details (fst st)))
  /\ forall j det,
       nth_error (Raw.details (fst st)) j = Some det ->
       Raw.cascaded det = negb (forallb Raw.blockValid (firstn j (Raw.details (fst st))))
       /\ exists cur,
            nth_error c j = Some cur
            /\ Raw.block_detail stringifies d c j cur (Raw.cascaded det) = Returns det.
Proof.
  revert st. induction n as [|n IH]; intros st Hn H.
  - simpl in H. inversion H; subst st. split; [reflexivity|]. split; [reflexivity|].
    intros j det Hj. destruct j; discriminate.
  - rewrite seq_S, raw_for_each_app in H. simpl in H.
    apply bind_Returns in H as (st1 & H1 & H).
    apply bind_Returns in H as (st2 & H2 & H). inversion H; subst st2; clear H.
    destruct (IH _ ltac:(lia) H1) as (Hlen & Hflag & Hall).
    unfold Raw.validate_step in H2.
    destruct (nth_error c n) as [cur|] eqn:Hcur.
    2:{ apply nth_error_None in Hcur. lia. }
    apply bind_Returns in H2 as (det & Hdet & H2). inversion H2; subst st; clear H2.
    destruct (raw_block_detail_flags _ _ _ _ _ _ _ Hdet) as (Hc & _).
    rewrite raw_record_detail_details, raw_record_detail_flag.
    split; [rewrite length_app; simpl; lia|].
    split.
    { rewrite forallb_app. simpl. rewrite andb_true_r, negb_andb, Hflag. reflexivity. }
    intros j det' Hj.
    destruct (Nat.lt_ge_cases j n) as [Hlt | Hge].
    + rewrite nth_error_app1 in Hj by lia.
      destruct (Hall _ _ Hj) as (Hcj & Hex).
      split; [|exact Hex].
      rewrite firstn_app. replace (j - List.length (Raw.details (fst st1))) with 0 by lia.
      simpl. rewrite app_nil_r. exact Hcj.
    + rewrite nth_error_app2 in Hj by lia. rewrite Hlen in Hj.
      destruct (j - n) as [|m] eqn:Em; [|destruct m; discriminate].
      simpl in Hj. inversion Hj; subst det'.
      replace j with n by lia. split.
      * rewrite firstn_app, Hlen, Nat.sub_diag. simpl. rewrite app_nil_r.
        rewrite <- Hlen at 1. rewrite firstn_all. rewrite Hc. exact Hflag.
      * exists cur. split; [exact Hcur|]. now rewrite Hc.
Qed.

Lemma raw_validateChain_details (stringifies : JsVal -> bool) (d : nat) (c : list Raw.Block)
    (r : Raw.Report) :
  Raw.validateChain stringifies d c = Returns r ->
  List.length (Raw.details r) = List.length c
  /\ forall j det,
       nth_error (Raw.details r) j = Some det ->
       Raw.cascaded det = negb (forallb Raw.blockValid (firstn j (Raw.details r)))
       /\ exists cur,
            nth_error c j = Some cur
            /\ Raw.block_detail stringifies d c j cur (Raw.cascaded det) = Returns det.
Proof.
  unfold Raw.validateChain. intros H.
  apply bind_Returns in H as (st & Hst & H). inversion H; subst r; clear H.
  destruct (raw_prefix _ _ _ _ _ (le_n _) Hst) as (Hlen & _ & Hall). now split.
Qed.

(** After a detail that is not valid every detail is flagged. *)
Lemma raw_cascade (stringifies : JsVal -> bool) (d : nat) (c : list Raw.Block)
    (r : Raw.Report) (i j : nat) (det dj : Raw.Detail) :
  Raw.validateChain stringifies d c = Returns r ->
  nth_error (Raw.details r) i = Some det ->
  Raw.blockValid det = false ->
  i < j ->
  nth_error (Raw.details r) j = Some dj ->
  Raw.cascaded dj = true.
Proof.
  intros H Hi Hbad Hlt Hj.
  destruct (raw_validateChain_details _ _ _ _ H) as (_ & Hall).
  destruct (Hall _ _ Hj) as (Hc & _). rewrite Hc.
  apply negb_true_iff. apply not_true_is_false. intros Hv.
  rewrite forallb_forall in Hv.
  assert (Hin : In det (firstn j (Raw.details r))).
  { apply nth_error_In with (n := i). rewrite nth_error_firstn.
    destruct (Nat.ltb_spec i j); [exact Hi | lia]. }
  specialize (Hv _ Hin). congruence.
Qed.

Lemma hash_input_with_same (f : Field) (b : Block) :
  hash_input_with f (field_text f b) b = hash_input b.
Proof. destruct f; reflexivity. Qed.

Lemma hash_input_with_inj (f : Field) (text : string) (b : Block) :
  f <> F_hash -> hash_input_with f text b = hash_input b -> text = field_text f b.
Proof.
  intros Hf. unfold hash_input_with, hash_input.
  destruct f; try congruence; cbn [field_text]; intros E.
  - now apply string_app_inv_tail in E.
  - apply string_app_inv_head in E. apply string_app_inv_head in E.
    now apply string_app_inv_tail in E.
  - do 4 apply string_app_inv_head in E. now apply string_app_inv_tail in E.
  - do 6 apply string_app_inv_head in E. now apply string_app_inv_tail in E.
  - do 8 apply string_app_inv_head in E. exact E.
Qed.

(** The hash of a block of the class with one field overwritten. *)
Lemma raw_computeHash_overwrite (stringifies : JsVal -> bool) (f : Field) (v : JsVal)
    (b : Block) (h : string) :
  f <> F_hash ->
  Raw.computeHash stringifies (overwrite f v (raw_of b)) = Returns h ->
  exists text,
    rendered stringifies f v = Returns text
    /\ h = Sha256.hex (hash_input_with f text b).
Proof.
  intros Hf H. unfold Raw.computeHash in H.
  apply bind_Returns in H as (i & Hi & H).
  apply bind_Returns in H as (t & Ht & H).
  apply bind_Returns in H as (dt & Hd & H).
  apply bind_Returns in H as (p & Hp & H).
  apply bind_Returns in H as (n & Hn & H).
  inversion H; subst h; clear H.
  destruct f; try congruence; cbn in Hi, Ht, Hd, Hp, Hn; cbn [rendered hash_input_with].
  - exists i. split; [exact Hi|].
    apply stringify_Returns in Hd as [_ ->].
    inversion Ht; inversion Hp; inversion Hn. reflexivity.
  - exists t. split; [exact Ht|].
    apply stringify_Returns in Hd as [_ ->].
    inversion Hi; inversion Hp; inversion Hn. reflexivity.
  - exists (template_opt dt). split; [now rewrite Hd|].
    inversion Hi; inversion Ht; inversion Hp; inversion Hn. reflexivity.
  - exists p. split; [exact Hp|].
    apply stringify_Returns in Hd as [_ ->].
    inversion Hi; inversion Ht; inversion Hn. reflexivity.
  - exists n. split; [exact Hn|].
    apply stringify_Returns in Hd as [_ ->].
    inversion Hi; inversion Ht; inversion Hp. reflexivity.
Qed.

Lemma raw_computeHash_typed (stringifies : JsVal -> bool) (v : JsVal) (b : Block)
    (h : string) :
  Raw.computeHash stringifies (overwrite F_hash v (raw_of b)) = Returns h ->
  h = computeHash b.
Proof.
  unfold Raw.computeHash. cbn. intros H.
  apply bind_Returns in H as (dt & Hd & H).
  apply stringify_Returns in Hd as [_ ->]. now inversion H.
Qed.

Lemma strict_eq_string_false (s : string) (v : JsVal) :
  Raw.strict_eq (JStr s) v = false <-> v <> JStr s.
Proof.
  destruct v; cbn; try (split; [discriminate | reflexivity]).
  split.
  - intros H E. inversion E; subst. now rewrite String.eqb_refl in H.
  - intros H. apply String.eqb_neq. congruence.
Qed.

(** C3, as the code has it.  In a chain that validates, overwrite one
    stored field of one block with any value, and let [validateChain]
    return.  When the field is [hash], the value is a string, and
    [isHashValid] of the block is false exactly when the value is not the
    stored hash string.  When it is one of
    the five hashed fields, the value has a text in the hashed string;
    [isHashValid] is true when that text is the text of the old value, and
    false when the text differs and SHA-256 tells the old and the new hashed
    string apart.  Whenever [isHashValid] of the block is false, every block
    after it has [cascaded = true]. *)
Theorem tampering_detected (stringifies : JsVal -> bool) (bc : Blockchain) (i : nat)
    (b : Block) (f : Field) (v : JsVal) (r : Raw.Report) :
  isValid (validateChain bc) = true ->
  nth_error (chain bc) i = Some b ->
  Raw.validateChain stringifies (difficulty bc)
    (replace_nth (map raw_of (chain bc)) i (overwrite f v (raw_of b))) = Returns r ->
  exists det,
    nth_error (Raw.details r) i = Some det
    /\ (f = F_hash ->
        (exists stored, v = JStr stored)
        /\ (Raw.isHashValid det = false <-> v <> JStr (hash b)))
    /\ (f <> F_hash ->
        exists text,
          rendered stringifies f v = Returns text
          /\ (text = field_text f b -> Raw.isHashValid det = true)
          /\ (text <> field_text f b ->
              no_collision (hash_input_with f text b) (hash_input b) ->
              Raw.isHashValid det = false))
    /\ (Raw.isHashValid det = false ->
        forall j dj, i < j -> nth_error (Raw.details r) j = Some dj ->
                     Raw.cascaded dj = true).
Proof.
  intros Hvalid Hb Hr.
  pose proof (valid_chain_hashes bc i b Hvalid Hb) as Hh.
  destruct (raw_validateChain_details _ _ _ _ Hr) as (Hlen & Hall).
  assert (Hi : i < List.length (chain bc)) by (apply nth_error_Some; congruence).
  assert (Hcur : nth_error (replace_nth (map raw_of (chain bc)) i (overwrite f v (raw_of b))) i
                 = Some (overwrite f v (raw_of b))).
  { rewrite nth_error_replace_nth, Nat.eqb_refl.
    now rewrite (map_nth_error raw_of _ _ Hb). }
  destruct (nth_error (Raw.details r) i) as [det|] eqn:Hdet.
  2:{ apply nth_error_None in Hdet. rewrite Hlen in Hdet.
      assert (i < List.length (replace_nth (map raw_of (chain bc)) i
                                 (overwrite f v (raw_of b))))
        by (apply nth_error_Some; congruence). lia. }
  exists det. split; [reflexivity|].
  destruct (Hall _ _ Hdet) as (_ & cur & Hcur' & Hbd).
  rewrite Hcur in Hcur'. inversion Hcur'; subst cur; clear Hcur'.
  destruct (raw_block_detail_flags _ _ _ _ _ _ _ Hbd)
    as (_ & Hbad & Hstring & h & Hhash & Hflag).
  split; [|split].
  - intros ->. split; [exact Hstring|].
    apply raw_computeHash_typed in Hhash. subst h.
    rewrite Hflag. cbn [overwrite Raw.hash]. rewrite Hh. apply strict_eq_string_false.
  - intros Hf. destruct (raw_computeHash_overwrite _ _ _ _ _ Hf Hhash) as (text & Ht & ->).
    exists text. split; [exact Ht|].
    assert (Hstored : Raw.hash (overwrite f v (raw_of b)) = JStr (hash b))
      by (destruct f; try reflexivity; congruence).
    rewrite Hflag, Hstored. cbn [Raw.strict_eq]. split.
    + intros ->. rewrite (hash_input_with_same f b). fold (computeHash b).
      rewrite Hh. apply String.eqb_refl.
    + intros Hne Hsha. apply String.eqb_neq. intros E.
      rewrite <- Hh in E. unfold computeHash in E. apply Hsha in E.
      now apply hash_input_with_inj in E.
  - intros Hfalse j dj Hlt Hj.
    exact (raw_cascade _ _ _ _ _ _ _ _ Hr Hdet (Hbad Hfalse) Hlt Hj).
Qed.

Lemma tampering_detected_witness :
  Raw.validateChain example_stack 1
    (replace_nth (map raw_of (chain three_block_chain)) 1
       (overwrite F_nonce (JStr "7777") (raw_of second_block)))
  = Returns tampered_nonce_report
  /\ map Raw.isHashValid (Raw.details tampered_nonce_report) = [true; false; true]
  /\ map Raw.cascaded (Raw.details tampered_nonce_report) = [false; false; true]
  /\ Raw.validateChain example_stack 1
       (replace_nth (map raw_of (chain three_block_chain)) 1
          (overwrite F_nonce (JStr (num_to_string (nonce second_block)))
             (raw_of second_block)))
     = Returns retyped_nonce_report
  /\ Raw.isValid retyped_nonce_report = true.
Proof.
  assert (Hvalid : isValid (validateChain three_block_chain) = true)
    by (vm_compute; reflexivity).
  assert (Hb : nth_error (chain three_block_chain) 1 = Some second_block) by reflexivity.
  assert (E : Raw.validateChain example_stack (difficulty three_block_chain)
                (replace_nth (map raw_of (chain three_block_chain)) 1
                   (overwrite F_nonce (JStr "7777") (raw_of second_block)))
              = Returns tampered_nonce_report) by (vm_compute; reflexivity).
  assert (E' : Raw.validateChain example_stack (difficulty three_block_chain)
                 (replace_nth (map raw_of (chain three_block_chain)) 1
                    (overwrite F_nonce (JStr (num_to_string (nonce second_block)))
                       (raw_of second_block)))
               = Returns retyped_nonce_report) by (vm_compute; reflexivity).
  split; [exact E|].
  destruct (tampering_detected example_stack three_block_chain 1 second_block F_nonce
              (JStr "7777") tampered_nonce_report Hvalid Hb E)
    as (det & Hdet & _ & Hfield & Hcasc).
  assert (Hf : F_nonce <> F_hash) by discriminate.
  destruct (Hfield Hf) as (text & Htext & _ & Hdiff).
  cbn in Htext. injection Htext as <-.
  assert (Hsha : no_collision (hash_input_with F_nonce "7777" second_block)
                              (hash_input second_block)).
  { intros C. vm_compute in C. discriminate. }
  assert (Hne : "7777" <> field_text F_nonce second_block)
    by (vm_compute; discriminate).
  pose proof (Hdiff Hne Hsha) as Hbad.
  assert (Hdet1 : nth 1 (Raw.details tampered_nonce_report)
                    (Raw.mkDetail JNull true true true true true false) = det).
  { apply nth_error_nth with (d := Raw.mkDetail JNull true true true true true false) in Hdet.
    exact Hdet. }
  pose proof (Hcasc Hbad 2
                (nth 2 (Raw.details tampered_nonce_report)
                   (Raw.mkDetail JNull true true true true true false))
                (le_n 2) eq_refl) as Hc2.
  split.
  { change (true :: Raw.isHashValid
                      (nth 1 (Raw.details tampered_nonce_report)
                         (Raw.mkDetail JNull true true true true true false))
                 :: true :: nil = [true; false; true]).
    now rewrite Hdet1, Hbad. }
  split.
  { change (false :: false
                  :: Raw.cascaded
                       (nth 2 (Raw.details tampered_nonce_report)
                          (Raw.mkDetail JNull true true true true true false))
                  :: nil = [false; false; true]).
    now rewrite Hc2. }
  split; [exact E' | reflexivity].
Defined.

(** *** Agreement with the validator on blocks of the class *)

Lemma raw_computeHash_of_block (stringifies : JsVal -> bool) (b : Block) :
  stringifies (data b) = true ->
  Raw.computeHash stringifies (raw_of b) = Returns (computeHash b).
Proof.
  intros H. unfold Raw.computeHash. cbn. now rewrite (stringify_ok _ _ H).
Qed.

Lemma raw_record_detail_typed (st : LoopState) (det : Detail) :
  Raw.record_detail (raw_state st) (raw_detail det) = raw_state (record_detail st det).
Proof.
  destruct st as [r flag]. unfold Raw.record_detail, record_detail, raw_state. cbn.
  destruct (negb (blockValid det)); cbn; unfold raw_report; cbn;
    now rewrite ?map_app.
Qed.

Lemma raw_block_detail_typed (stringifies : JsVal -> bool) (d : nat) (c : list Block)
    (i : nat) (cur : Block) (casc : bool) :
  forallb (fun b => stringifies (data b)) c = true ->
  nth_error c i = Some cur ->
  Raw.block_detail stringifies d (map raw_of c) i (raw_of cur) casc
  = Returns (raw_detail (block_detail d c i cur casc)).
Proof.
  intros Hall Hcur. rewrite forallb_forall in Hall.
  assert (Hd : stringifies (data cur) = true) by (apply Hall; eapply nth_error_In; eauto).
  unfold Raw.block_detail, block_detail.
  rewrite (raw_computeHash_of_block _ _ Hd). cbn [bind raw_of Raw.hash Raw.starts_with].
  destruct i as [|k].
  - reflexivity.
  - simpl Nat.sub. rewrite Nat.sub_0_r.
    assert (Hk : k < List.length c).
    { apply Nat.lt_succ_l. apply nth_error_Some. congruence. }
    destruct (nth_error c k) as [prev|] eqn:Hprev.
    2:{ apply nth_error_None in Hprev. lia. }
    rewrite (map_nth_error raw_of _ _ Hprev).
    assert (Hp : stringifies (data prev) = true) by (apply Hall; eapply nth_error_In; eauto).
    cbn [raw_of Raw.index Raw.plus_one bind].
    fold (raw_of prev). rewrite (raw_computeHash_of_block _ _ Hp). reflexivity.
Qed.

(** On the blocks of the class, where [JSON.stringify] returns on their
    data, [Raw.validateChain] gives the report of [validateChain]. *)
Lemma raw_validateChain_typed (stringifies : JsVal -> bool) (bc : Blockchain) :
  forallb (fun b => stringifies (data b)) (chain bc) = true ->
  Raw.validateChain stringifies (difficulty bc) (map raw_of (chain bc))
  = Returns (raw_report (validateChain bc)).
Proof.
  intros Hall. unfold Raw.validateChain, validateChain. rewrite length_map.
  assert (H : forall n, n <= List.length (chain bc) ->
            Raw.for_each (Raw.validate_step stringifies (difficulty bc)
                            (map raw_of (chain bc))) (seq 0 n) Raw.initial_loop_state
            = Returns (raw_state (fold_left (validate_step (difficulty bc) (chain bc))
                                            (seq 0 n) initial_loop_state))).
  { induction n as [|n IH]; intros Hn; [reflexivity|].
    rewrite seq_S, raw_for_each_app, IH by lia. rewrite fold_left_app.
    cbn [bind Raw.for_each fold_left Nat.add].
    set (st := fold_left (validate_step (difficulty bc) (chain bc)) (seq 0 n)
                 initial_loop_state).
    destruct (nth_error (chain bc) n) as [cur|] eqn:Hcur.
    2:{ apply nth_error_None in Hcur. lia. }
    unfold Raw.validate_step, validate_step.
    rewrite (map_nth_error raw_of _ _ Hcur), Hcur.
    change (snd (raw_state st)) with (snd st).
    rewrite (raw_block_detail_typed _ _ _ _ _ _ Hall Hcur). cbn [bind].
    now rewrite raw_record_detail_typed. }
  rewrite (H _ (le_n _)). reflexivity.
Qed.
